(** * fx_env_kaustubh_mod.py: project provisioning, listing, selection,
      backup and restore, over a model of the POSIX file system

    The script manages per-project directory trees for Houdini.  Its
    functions are embedded below as programs of a small state-and-exception
    monad [py] over a [world]: the file system, the process environment, the
    lines waiting on standard input, the trace of what was printed, logged and
    handed to the shell, and the system clock.

    Modelling conventions.
    - A path is the list of its components from the root, each of them a
      plain name: not empty, without separator, and neither [.] nor [..].
      [os_path_join] appends one component, which is what [os.path.join]
      does for such a name (project names, timestamps).
    - A Python [str] is the list of its code points, for code points below
      256; an [ascii] holds one code point.
    - The file system maps canonical paths to entries.  Every system call
      resolves its path from the root, following symbolic links in every
      directory component (and in the last one where the call does), at most
      [SYMLOOP_MAX] of them.
    - [glob.glob] and [fnmatch] follow CPython 3.11: a wildcard in the
      directory part of a pattern is expanded like one in the last
      component.
    - Access times are read only: the updates that the kernel makes to
      them when an entry is read or made are left out.
    - The interpreter's recursion limit is left out: a call nests as deep
      as its input makes it. *)

From Stdlib Require Import ZArith Ascii DecimalString.
From stdpp Require Import gmap strings list fin_maps sorting.

Local Open Scope Z_scope.
Local Open Scope nat_scope.

(** ** Paths, file-system entries, errors *)

Abbreviation path := (list string).

Inductive node :=
| File (data : string)
| Dir
| Symlink (target : path).

#[global] Instance node_eq_dec : EqDecision node.
Proof. solve_decision. Defined.

Abbreviation tree := (gmap path node).

Inductive errno := ENOENT | ENOTDIR | EEXIST | EISDIR | ELOOP.

#[global] Instance errno_eq_dec : EqDecision errno.
Proof. solve_decision. Defined.

(** Python's exceptions.  [OSError e p] is the [OSError] subclass that CPython
    picks for the error number: [FileNotFoundError] for [ENOENT],
    [FileExistsError] for [EEXIST], [NotADirectoryError] for [ENOTDIR],
    [IsADirectoryError] for [EISDIR]. *)
Inductive exn :=
| OSError (e : errno) (p : path)
| SameFileError (src dst : path)
| ValueError (literal : string)
| IndexError
| EOFError
| RecursionError.

#[global] Instance exn_eq_dec : EqDecision exn.
Proof. solve_decision. Defined.

Definition FileNotFoundError : path → exn := OSError ENOENT.
Definition FileExistsError : path → exn := OSError EEXIST.
Definition NotADirectoryError : path → exn := OSError ENOTDIR.
Definition IsADirectoryError : path → exn := OSError EISDIR.

(** ** Path resolution *)

Definition SYMLOOP_MAX : nat := 40.

(** The root is a directory and is not stored in the map. *)
Definition lookup_node (m : tree) (p : path) : option node :=
  match p with
  | [] => Some Dir
  | _ => m !! p
  end.

(** [locate n m follow cur rest] walks the components [rest] from the
    directory [cur] and returns the canonical place of the entry they name.
    The last component may be absent (the place where it would be created is
    returned); a symbolic link in the last component is followed only when
    [follow] is set.  [n] bounds the number of links followed. *)
Fixpoint locate (n : nat) (m : tree) (follow : bool) : path → path → errno + path :=
  fix go (cur rest : path) {struct rest} : errno + path :=
    match rest with
    | [] => inr cur
    | c :: rest' =>
      let here := cur ++ [c] in
      match m !! here with
      | None => match rest' with [] => inr here | _ => inl ENOENT end
      | Some Dir => go here rest'
      | Some (File _) => match rest' with [] => inr here | _ => inl ENOTDIR end
      | Some (Symlink t) =>
        match rest', follow with
        | [], false => inr here
        | _, _ =>
          match n with
          | 0 => inl ELOOP
          | S n' => locate n' m follow [] (t ++ rest')
          end
        end
      end
    end.

(** [os.stat] (follows the last link) and [os.lstat] (does not). *)
Definition stat_with (follow : bool) (m : tree) (p : path) : errno + node :=
  match locate SYMLOOP_MAX m follow [] p with
  | inl e => inl e
  | inr loc =>
    match lookup_node m loc with
    | Some nd => inr nd
    | None => inl ENOENT
    end
  end.

Definition os_stat : tree → path → errno + node := stat_with true.
Definition os_lstat : tree → path → errno + node := stat_with false.

Definition path_exists (m : tree) (p : path) : bool :=
  match os_stat m p with inr _ => true | inl _ => false end.

Definition path_isdir (m : tree) (p : path) : bool :=
  match os_stat m p with inr Dir => true | _ => false end.

Definition path_islink (m : tree) (p : path) : bool :=
  match os_lstat m p with inr (Symlink _) => true | _ => false end.

(** The canonical path of an existing entry, links followed. *)
Definition realpath (m : tree) (p : path) : option path :=
  match locate SYMLOOP_MAX m true [] p with
  | inr loc => match lookup_node m loc with Some _ => Some loc | None => None end
  | inl _ => None
  end.

(** The names of the entries of the directory stored at [dir], in the order
    in which the model enumerates them. *)
Definition child_of (dir p : path) : option string :=
  if decide (take (length dir) p = dir) then
    match drop (length dir) p with
    | [c] => Some c
    | _ => None
    end
  else None.

Definition children (m : tree) (dir : path) : list string :=
  omap (child_of dir) (map_to_list m).*1.

Definition listdir (m : tree) (p : path) : errno + list string :=
  match locate SYMLOOP_MAX m true [] p with
  | inl e => inl e
  | inr loc =>
    match lookup_node m loc with
    | Some Dir => inr (children m loc)
    | Some _ => inl ENOTDIR
    | None => inl ENOENT
    end
  end.

(** [open(p, 'rb').read()] *)
Definition read_file (m : tree) (p : path) : errno + string :=
  match os_stat m p with
  | inl e => inl e
  | inr (File d) => inr d
  | inr _ => inl EISDIR
  end.

(** Every stored entry other than a top-level one lies in a stored
    directory. *)
Definition wf_tree (m : tree) : Prop :=
  ∀ (p : path) (c : string), is_Some (m !! (p ++ [c])) → lookup_node m p = Some Dir.

(** [adds_dirs m m']: [m'] is [m] with some new directories. *)
Definition adds_dirs (m m' : tree) : Prop :=
  m ⊆ m' ∧ ∀ p nd, m !! p = None → m' !! p = Some nd → nd = Dir.

(** [resolves m d cd]: the path [d] names the directory stored at [cd]. *)
Definition resolves (m : tree) (d cd : path) : Prop :=
  locate SYMLOOP_MAX m true [] d = inr cd ∧ lookup_node m cd = Some Dir.


(** ** The world and the monad of Python programs *)

Record datetime := DateTime {
  year : nat; month : nat; day : nat;
  hour : nat; minute : nat; second : nat
}.

Inductive event :=
| Print (line : string)          (* print(line) *)
| PrintNoNl (text : string)      (* print(text, end=empty) *)
| Prompt (text : string)         (* the prompt written by input(text) *)
| LogInfo (msg : string)         (* logging.info(msg) *)
| LogError (msg : string)        (* logging.error(msg) *)
| System (cmd : string).         (* os.system(cmd) *)

Record world := World {
  fs : tree;                     (* the file system *)
  atimes : path → Z;             (* st_atime of the entry stored at a path *)
  environ : gmap string string;  (* os.environ *)
  stdin : list string;           (* the lines input() will read *)
  trace : list event;            (* what the process has emitted so far *)
  clock : nat → datetime;        (* successive readings of datetime.now() *)
  ticks : nat                    (* how many readings were taken *)
}.

Definition set_fs (m : tree) (w : world) : world :=
  World m (atimes w) (environ w) (stdin w) (trace w) (clock w) (ticks w).
Definition set_environ (e : gmap string string) (w : world) : world :=
  World (fs w) (atimes w) e (stdin w) (trace w) (clock w) (ticks w).
Definition set_stdin (l : list string) (w : world) : world :=
  World (fs w) (atimes w) (environ w) l (trace w) (clock w) (ticks w).
Definition set_trace (t : list event) (w : world) : world :=
  World (fs w) (atimes w) (environ w) (stdin w) t (clock w) (ticks w).
Definition set_ticks (n : nat) (w : world) : world :=
  World (fs w) (atimes w) (environ w) (stdin w) (trace w) (clock w) n.

Inductive outcome (A : Type) :=
| Return (a : A)
| Raise (e : exn).
Arguments Return {A} a.
Arguments Raise {A} e.

Definition py (A : Type) : Type := world → outcome A * world.

#[global] Instance py_ret : MRet py := λ A a w, (Return a, w).
#[global] Instance py_bind : MBind py := λ A B f c w,
  match c w with
  | (Return a, w') => f a w'
  | (Raise e, w') => (Raise e, w')
  end.
#[global] Instance py_fmap : FMap py := λ A B f c, a ← c; mret (f a).

Definition raise {A} (e : exn) : py A := λ w, (Raise e, w).
Definition gets {A} (f : world → A) : py A := λ w, (Return (f w), w).
Definition modify (f : world → world) : py unit := λ w, (Return tt, f w).
Definition emit (e : event) : py unit := modify (λ w, set_trace (trace w ++ [e]) w).

(** [good c w]: run from [w], the program [c] leaves on standard input no
    more lines than it found, and does not end in [RecursionError].
    [tame c]: so from every world. *)
Definition good {A} (c : py A) (w : world) : Prop :=
  ∀ r w', c w = (r, w') → length (stdin w') ≤ length (stdin w) ∧ r ≠ Raise RecursionError.

Definition tame {A} (c : py A) : Prop := ∀ w, good c w.

(** [lift_os p r]: the value of a system call on path [p], or its [OSError]. *)
Definition lift_os {A} (p : path) (r : errno + A) : py A :=
  match r with
  | inr a => mret a
  | inl e => raise (OSError e p)
  end.

(** [try: c / except FileExistsError: pass] *)
Definition is_FileExistsError (e : exn) : bool :=
  match e with
  | OSError EEXIST _ => true
  | _ => false
  end.

Definition except_FileExistsError_pass (c : py unit) : py unit := λ w,
  match c w with
  | (Raise e, w') => if is_FileExistsError e then (Return tt, w') else (Raise e, w')
  | r => r
  end.

(** [for x in l: body(x)] *)
Fixpoint for_ {A} (l : list A) (body : A → py unit) : py unit :=
  match l with
  | [] => mret tt
  | x :: l' => body x ;; for_ l' body
  end.

(** ** Library calls *)

Definition os_path_join (p : path) (name : string) : path := p ++ [name].

Definition os_path_exists (p : path) : py bool := gets (λ w, path_exists (fs w) p).
Definition os_path_isdir (p : path) : py bool := gets (λ w, path_isdir (fs w) p).
Definition os_path_islink (p : path) : py bool := gets (λ w, path_islink (fs w) p).

(** [os.mkdir]: the parent must resolve to a directory and the name must be
    free; a link in the last component is not followed. *)
Definition os_mkdir (p : path) : py unit := λ w,
  match locate SYMLOOP_MAX (fs w) false [] p with
  | inl e => (Raise (OSError e p), w)
  | inr loc =>
    match lookup_node (fs w) loc with
    | Some _ => (Raise (FileExistsError p), w)
    | None => (Return tt, set_fs (<[loc := Dir]> (fs w)) w)
    end
  end.

(** [os.symlink(src, dst)] *)
Definition os_symlink (src dst : path) : py unit := λ w,
  match locate SYMLOOP_MAX (fs w) false [] dst with
  | inl e => (Raise (OSError e dst), w)
  | inr loc =>
    match lookup_node (fs w) loc with
    | Some _ => (Raise (FileExistsError dst), w)
    | None => (Return tt, set_fs (<[loc := Symlink src]> (fs w)) w)
    end
  end.

(** [os.makedirs(name)] with [exist_ok=False], after CPython's [os.py]: when
    the head does not exist it is made first, a [FileExistsError] of that
    recursive call being swallowed; then the leaf is made with [os.mkdir].
    The recursion is on the reversed path, the leaf first. *)
Fixpoint makedirs_rev (rname : path) : py unit :=
  match rname with
  | [] => os_mkdir []
  | tail :: rhead =>
    let head := rev rhead in
    head_exists ← os_path_exists head;
    (if negb head_exists
     then except_FileExistsError_pass (makedirs_rev rhead)
     else mret tt) ;;
    os_mkdir (head ++ [tail])
  end.

Definition os_makedirs (name : path) : py unit := makedirs_rev (rev name).

(** [os.listdir] *)
Definition os_listdir (p : path) : py (list string) :=
  m ← gets fs; lift_os p (listdir m p).

(** [os.path.getatime] *)
Definition os_path_getatime (p : path) : py Z := λ w,
  match realpath (fs w) p with
  | Some loc => (Return (atimes w loc), w)
  | None => (Raise (FileNotFoundError p), w)
  end.

(** [open(p, 'wb').write(data)]: links are followed, a missing file is
    created in its (existing) directory, an existing one is replaced. *)
Definition write_file (p : path) (data : string) : py unit := λ w,
  match locate SYMLOOP_MAX (fs w) true [] p with
  | inl e => (Raise (OSError e p), w)
  | inr loc =>
    match lookup_node (fs w) loc with
    | Some Dir => (Raise (IsADirectoryError p), w)
    | _ => (Return tt, set_fs (<[loc := File data]> (fs w)) w)
    end
  end.

(** [os.path.samefile] as [shutil] uses it: false when either side cannot be
    resolved. *)
Definition samefile (m : tree) (p q : path) : bool :=
  match realpath m p, realpath m q with
  | Some a, Some b => bool_decide (a = b)
  | _, _ => false
  end.

(** [shutil.copyfile(src, dst)] *)
Definition shutil_copyfile (src dst : path) : py unit :=
  m ← gets fs;
  if samefile m src dst then raise (SameFileError src dst)
  else
    data ← lift_os src (read_file m src);
    write_file dst data.

Definition os_path_basename (p : path) : string := default EmptyString (last p).

(** [shutil.copy(src, dst)]: into the directory [dst] under the name of
    [src], or onto the file [dst]. *)
Definition shutil_copy (src dst : path) : py unit :=
  d ← os_path_isdir dst;
  let dst := if (d : bool) then os_path_join dst (os_path_basename src) else dst in
  shutil_copyfile src dst.

(** [input(prompt)] *)
Definition input (prompt : string) : py string :=
  emit (Prompt prompt) ;;
  l ← gets stdin;
  match l with
  | [] => raise EOFError
  | line :: rest => modify (set_stdin rest) ;; mret line
  end.

Definition print (line : string) : py unit := emit (Print line).
Definition logging_info (msg : string) : py unit := emit (LogInfo msg).
Definition logging_error (msg : string) : py unit := emit (LogError msg).
Definition os_system (cmd : string) : py unit := emit (System cmd).

Definition environ_set (key value : string) : py unit :=
  modify (λ w, set_environ (<[key := value]> (environ w)) w).

(** [datetime.now()] *)
Definition datetime_now : py datetime := λ w,
  (Return (clock w (ticks w)), set_ticks (S (ticks w)) w).

(** ** Python strings *)

Definition ESC : string := String "027"%char EmptyString.
Definition NL : string := String "010"%char EmptyString.
Definition DQ : string := String "034"%char EmptyString.

(** [str.isspace] on one code point below 256. *)
Definition isspace (c : ascii) : bool :=
  let n := nat_of_ascii c in
  (9 <=? n) && (n <=? 13) || (28 <=? n) && (n <=? 32) || (n =? 133) || (n =? 160).

Fixpoint lstrip (s : string) : string :=
  match s with
  | String c s' => if isspace c then lstrip s' else s
  | EmptyString => EmptyString
  end.

Fixpoint rstrip (s : string) : string :=
  match s with
  | EmptyString => EmptyString
  | String c s' =>
    match rstrip s' with
    | EmptyString => if isspace c then EmptyString else String c EmptyString
    | r => String c r
    end
  end.

(** [s.strip()] *)
Definition str_strip (s : string) : string := rstrip (lstrip s).

Definition lower_char (c : ascii) : ascii :=
  let n := nat_of_ascii c in
  if (65 <=? n) && (n <=? 90) || (192 <=? n) && (n <=? 222) && negb (n =? 215)
  then ascii_of_nat (n + 32) else c.

(** [s.lower()] *)
Fixpoint str_lower (s : string) : string :=
  match s with
  | EmptyString => EmptyString
  | String c s' => String (lower_char c) (str_lower s')
  end.

(** The code points with the Unicode property Digit: the decimal digits and
    the superscripts two, three and one. *)
Definition isdigit_char (c : ascii) : bool :=
  let n := nat_of_ascii c in
  (48 <=? n) && (n <=? 57) || (n =? 178) || (n =? 179) || (n =? 185).

Fixpoint all_chars (f : ascii → bool) (s : string) : bool :=
  match s with
  | EmptyString => true
  | String c s' => f c && all_chars f s'
  end.

(** [s.isdigit()] *)
Definition str_isdigit (s : string) : bool :=
  negb (String.eqb s EmptyString) && all_chars isdigit_char s.

(** The value of a string of decimal digits; [None] when a character is not
    a decimal digit. *)
Fixpoint decimal_value (acc : Z) (s : string) : option Z :=
  match s with
  | EmptyString => Some acc
  | String c s' =>
    let n := nat_of_ascii c in
    if (48 <=? n) && (n <=? 57)
    then decimal_value (10 * acc + Z.of_nat (n - 48))%Z s'
    else None
  end.

(** [sys.get_int_max_str_digits()] *)
Definition int_max_str_digits : Z := 4300.

(** [int(s)], for the strings on which the script calls it: those that
    passed [isdigit].  A literal of more than [int_max_str_digits] digits is
    refused as well. *)
Definition int (s : string) : py Z :=
  match decimal_value 0%Z s with
  | Some n =>
    if (int_max_str_digits <? Z.of_nat (String.length s))%Z then raise (ValueError s)
    else mret n
  | None => raise (ValueError s)
  end.

Definition str_of_nat (n : nat) : string := NilZero.string_of_uint (Nat.to_uint n).

(** [f"{idx:02d}"] *)
Definition format_02d (n : nat) : string :=
  if n <? 10 then "0" +:+ str_of_nat n else str_of_nat n.

Fixpoint spaces (n : nat) : string :=
  match n with
  | 0 => EmptyString
  | S n' => String " "%char (spaces n')
  end.

Definition show_path (p : path) : string :=
  match p with
  | [] => "/"
  | _ => foldr (λ c acc, "/" +:+ c +:+ acc) EmptyString p
  end.

Definition digit_char (n : nat) : ascii := ascii_of_nat (48 + n mod 10).

Definition two_digits (n : nat) : string :=
  String (digit_char (n / 10)) (String (digit_char n) EmptyString).

Definition four_digits (n : nat) : string :=
  String (digit_char (n / 1000)) (String (digit_char (n / 100)) (two_digits n)).

(** [t.strftime('%Y%m%d_%H%M%S')] *)
Definition strftime_stamp (t : datetime) : string :=
  four_digits (year t) +:+ two_digits (month t) +:+ two_digits (day t) +:+ "_"
  +:+ two_digits (hour t) +:+ two_digits (minute t) +:+ two_digits (second t).

Definition starts_with (pre s : string) : bool :=
  String.eqb (String.substring 0 (String.length pre) s) pre.

(** ** [fnmatch] and [glob]

    [fnmatch.translate] turns a shell pattern into a regular expression:
    [*] into a run of any characters, [?] into any one character, a
    bracketed set into a character set, anything else into itself.  The
    tokens below are the pieces of that regular expression. *)

Inductive class_atom :=
| Ch (c : ascii)                 (* a character of the set, escaped if need be *)
| Hyphen.                        (* the hyphen that joins two chunks *)

Inductive class_item :=
| One (c : ascii)
| Range (lo hi : ascii).

Inductive glob_token :=
| Star                           (* .* *)
| AnyChar                        (* . *)
| Lit (c : ascii)                (* re.escape(c) *)
| Never                          (* (?!), the empty set *)
| Class (negate : bool) (items : list class_item).

(** The index [j] of the bracket that closes a set, counted from the
    character after the opening bracket: a leading [!] and then a leading
    [\]] are passed over, the next [\]] closes.  [None] when there is none,
    and the opening bracket then stands for itself. *)
Fixpoint class_end_scan (j : nat) (rest : list ascii) : option nat :=
  match rest with
  | [] => None
  | c :: rest' => if Ascii.eqb c "]" then Some j else class_end_scan (S j) rest'
  end.

Definition class_end (rest : list ascii) : option (list ascii) :=
  let j := match rest with "!"%char :: _ => 1 | _ => 0 end in
  let j := match drop j rest with "]"%char :: _ => S j | _ => j end in
  match class_end_scan j (drop j rest) with
  | Some j => Some (take j rest)
  | None => None
  end.

(** The chunks of a set: it is cut at every hyphen that can join a range,
    which the first character of the set (after [!]) and the two characters
    after the last cut cannot.  [skip] counts the characters still to pass
    over, [chunk] is the chunk being read. *)
Fixpoint split_chunks (skip : nat) (chunk stuff : list ascii) : list (list ascii) :=
  match stuff with
  | [] => [chunk]
  | c :: stuff' =>
    match skip with
    | S skip' => split_chunks skip' (chunk ++ [c]) stuff'
    | 0 =>
      if Ascii.eqb c "-" then chunk :: split_chunks 2 [] stuff'
      else split_chunks 0 (chunk ++ [c]) stuff'
    end
  end.

(** A cut just before the closing bracket leaves an empty last chunk: the
    hyphen goes back to the chunk before. *)
Definition close_chunks (chunks : list (list ascii)) : list (list ascii) :=
  match reverse chunks with
  | [] :: prev :: before => reverse ((prev ++ ["-"%char]) :: before)
  | _ => chunks
  end.

(** Empty ranges are removed, from the right: when the last character of a
    chunk is above the first of the next, both go and the chunks are
    joined. *)
Definition merge_empty_range (chunk : list ascii) (after : list (list ascii))
    : list (list ascii) :=
  match last chunk, after with
  | Some lo, (hi :: next') :: after' =>
    if nat_of_ascii hi <? nat_of_ascii lo then (removelast chunk ++ next') :: after'
    else chunk :: after
  | _, _ => chunk :: after
  end.

(** ['-'.join(chunks)], the hyphens inside the chunks escaped. *)
Fixpoint join_chunks (chunks : list (list ascii)) : list class_atom :=
  match chunks with
  | [] => []
  | [chunk] => Ch <$> chunk
  | chunk :: chunks' => (Ch <$> chunk) ++ Hyphen :: join_chunks chunks'
  end.

Definition atom_code (a : class_atom) : ascii :=
  match a with Ch c => c | Hyphen => "-"%char end.

(** How [re] reads the inside of a character set: an unescaped hyphen
    between two characters makes a range. *)
Fixpoint parse_set (atoms : list class_atom) : list class_item :=
  match atoms with
  | [] => []
  | this :: atoms' =>
    match atoms' with
    | Hyphen :: that :: atoms'' => Range (atom_code this) (atom_code that) :: parse_set atoms''
    | _ => One (atom_code this) :: parse_set atoms'
    end
  end.

(** The token of the set whose inside is [stuff]. *)
Definition class_token (stuff : list ascii) : glob_token :=
  let skip := match stuff with "!"%char :: _ => 2 | _ => 1 end in
  let chunks := foldr merge_empty_range [] (close_chunks (split_chunks skip [] stuff)) in
  match join_chunks chunks with
  | [] => Never
  | [Ch "!"%char] => AnyChar
  | Ch "!"%char :: atoms => Class true (parse_set atoms)
  | atoms => Class false (parse_set atoms)
  end.

(** [fnmatch.translate(pat)]; [skip] counts the characters of a set that
    was just read. *)
Fixpoint translate (skip : nat) (pat : list ascii) : list glob_token :=
  match pat with
  | [] => []
  | c :: pat' =>
    match skip with
    | S skip' => translate skip' pat'
    | 0 =>
      if Ascii.eqb c "*" then Star :: translate 0 pat'
      else if Ascii.eqb c "?" then AnyChar :: translate 0 pat'
      else if Ascii.eqb c "[" then
        match class_end pat' with
        | None => Lit c :: translate 0 pat'
        | Some stuff => class_token stuff :: translate (S (length stuff)) pat'
        end
      else Lit c :: translate 0 pat'
    end
  end.

Definition item_match (c : ascii) (i : class_item) : bool :=
  match i with
  | One x => Ascii.eqb c x
  | Range lo hi => (nat_of_ascii lo <=? nat_of_ascii c) && (nat_of_ascii c <=? nat_of_ascii hi)
  end.

Definition token_match (t : glob_token) (c : ascii) : bool :=
  match t with
  | Star | AnyChar => true
  | Lit x => Ascii.eqb c x
  | Never => false
  | Class negate items => xorb negate (existsb (item_match c) items)
  end.

(** Whether the regular expression matches the whole of [s].  The tokens
    between two stars take one character each, so that matching them at
    their first occurrence, as the atomic groups of [translate] do, finds a
    match whenever there is one; consecutive stars, which [translate] makes
    one, match what one star does. *)
Fixpoint re_match (tokens : list glob_token) : list ascii → bool :=
  match tokens with
  | [] => λ s, match s with [] => true | _ => false end
  | Star :: tokens' =>
    fix star (s : list ascii) : bool :=
      re_match tokens' s || match s with [] => false | _ :: s' => star s' end
  | t :: tokens' =>
    λ s, match s with [] => false | c :: s' => token_match t c && re_match tokens' s' end
  end.

(** [fnmatch.fnmatchcase(name, pat)] *)
Definition fnmatch (name pat : string) : bool :=
  re_match (translate 0 (String.list_ascii_of_string pat)) (String.list_ascii_of_string name).

(** [glob.has_magic] *)
Definition magic_char (c : ascii) : bool :=
  Ascii.eqb c "*" || Ascii.eqb c "?" || Ascii.eqb c "[".

Definition has_magic (s : string) : bool :=
  existsb magic_char (String.list_ascii_of_string s).

(** [glob._ishidden] *)
Definition ishidden (name : string) : bool := starts_with "." name.

(** [os.path.lexists] *)
Definition path_lexists (m : tree) (p : path) : bool :=
  match os_lstat m p with inr _ => true | inl _ => false end.

(** [glob._listdir]: the names in a directory, those of directories only
    when [dironly]; a directory that cannot be listed yields nothing. *)
Definition glob_listdir (m : tree) (dirname : path) (dironly : bool) : list string :=
  match listdir m dirname with
  | inr names =>
    if dironly then filter (λ name, path_isdir m (os_path_join dirname name) = true) names
    else names
  | inl _ => []
  end.

(** [glob._glob1]: the names in [dirname] that match [pattern]; a name that
    starts with a dot is matched only by a pattern that does. *)
Definition glob1 (m : tree) (dirname : path) (pattern : string) (dironly : bool)
    : list string :=
  let names := glob_listdir m dirname dironly in
  let names := if negb (ishidden pattern) then filter (λ x, ishidden x = false) names
               else names in
  filter (λ name, fnmatch name pattern = true) names.

(** [glob._glob0], for a name that is not a pattern (and not empty: a
    pattern does not end in a separator here). *)
Definition glob0 (m : tree) (dirname : path) (basename : string) (dironly : bool)
    : list string :=
  if path_lexists m (os_path_join dirname basename) then [basename] else [].

(** [glob._iglob], by recursion on the reversed pattern, the last component
    first: the directory part is expanded first when it holds a wildcard
    itself, and taken as it is otherwise. *)
Fixpoint iglob_rev (m : tree) (rpathname : path) (dironly : bool) : list path :=
  match rpathname with
  | [] => [[]]
  | basename :: rdirname =>
    if negb (existsb has_magic rpathname) then
      if path_lexists m (rev rpathname) then [rev rpathname] else []
    else
      let dirs := if existsb has_magic rdirname then iglob_rev m rdirname true
                  else [rev rdirname] in
      let glob_in_dir := if has_magic basename then glob1 else glob0 in
      dirname ← dirs;
      os_path_join dirname <$> glob_in_dir m dirname basename dironly
  end.

(** [glob.glob(pathname)] *)
Definition glob (m : tree) (pathname : path) : list path :=
  iglob_rev m (rev pathname) false.

(** What [glob] keeps of a directory listing for the pattern [*.hip]: the
    names that do not start with a dot and that [fnmatch] matches. *)
Definition hip_name (name : string) : bool :=
  negb (ishidden name) && fnmatch name "*.hip".

(** [glob.glob(os.path.join(dir, '*.hip'))] *)
Definition hip_files (m : tree) (dir : path) : list path :=
  glob m (os_path_join dir "*.hip").

Definition glob_hip (dir : path) : py (list path) :=
  gets (λ w, hip_files (fs w) dir).

Definition is_nil {A} (l : list A) : bool :=
  match l with [] => true | _ => false end.

(** [enumerate(l, start)] *)
Fixpoint enumerate {A} (start : nat) (l : list A) : list (nat * A) :=
  match l with
  | [] => []
  | x :: l' => (start, x) :: enumerate (S start) l'
  end.

(** [sorted(l, key=..., reverse=True)] on the list of (key, item) pairs:
    descending by key, items with equal keys in their original order. *)
Fixpoint insert_desc {A} (x : Z * A) (l : list (Z * A)) : list (Z * A) :=
  match l with
  | [] => [x]
  | y :: l' => if (x.1 <? y.1)%Z then y :: insert_desc x l' else x :: l
  end.

Definition sorted_reverse {A} (l : list (Z * A)) : list A :=
  (foldr insert_desc [] l).*2.

(** The order in which [insert_desc] keeps its list. *)
Definition key_desc {A} (a b : Z * A) : Prop := (b.1 ≤ a.1)%Z.

(** The one-character strings of the superscript digits, which
    [str.isdigit] accepts and [int] refuses. *)
Definition superscript_two : string := String "178"%char EmptyString.

(** ** Example worlds

    A files root [/files] and a project-source root [/src], used by the
    worked examples that follow the theorems. *)

Definition example_files : path := ["files"].
Definition example_src : path := ["src"].
Definition example_strftime (t : Z) : string := "January 01, 2024 12:00 PM".

Definition example_world (m : tree) (lines : list string) : world :=
  World m (λ _, 0%Z) ∅ lines [] (λ _, DateTime 2024 3 9 14 5 7) 0.

(** Only the two roots exist. *)
Definition tree_roots : tree :=
  <[ ["src"] := Dir ]> (<[ ["files"] := Dir ]> ∅).

(** Project [shotA] has a plain directory where the link should be. *)
Definition tree_geo_dir : tree :=
  <[ ["files"; "shotA"; "GEO"] := Dir ]> (<[ ["files"; "shotA"] := Dir ]> tree_roots).

(** Project [shotA] has a link [GEO] that points to [/elsewhere]. *)
Definition tree_geo_stale : tree :=
  <[ ["files"; "shotA"; "GEO"] := Symlink ["elsewhere"] ]>
    (<[ ["files"; "shotA"] := Dir ]> (<[ ["elsewhere"] := Dir ]> tree_roots)).

(** Project [shotA] exists and holds a directory and a text file, no
    [.hip] file. *)
Definition tree_project_empty : tree :=
  <[ ["files"; "shotA"; "notes.txt"] := File "todo" ]>
    (<[ ["files"; "shotA"; "HIP"] := Dir ]> (<[ ["files"; "shotA"] := Dir ]> tree_roots)).

(** Project [shotA] holds two [.hip] files and a text file. *)
Definition tree_project_hips : tree :=
  <[ ["files"; "shotA"; "a.hip"] := File "scene a" ]>
    (<[ ["files"; "shotA"; "b.hip"] := File "scene b" ]> tree_project_empty).

(** Project [shot[1]] holds two [.hip] files. *)
Definition tree_project_brackets : tree :=
  <[ ["files"; "shot[1]"; "a.hip"] := File "scene a" ]>
    (<[ ["files"; "shot[1]"; "b.hip"] := File "scene b" ]>
       (<[ ["files"; "shot[1]"] := Dir ]> tree_roots)).


(** Three projects, and a file beside them. *)
Definition tree_three_projects : tree :=
  <[ ["files"; "shotC"] := Dir ]>
    (<[ ["files"; "shotB"] := Dir ]>
       (<[ ["files"; "readme.txt"] := File "hello" ]>
          (<[ ["files"; "shotA"] := Dir ]> tree_roots))).

(** [shotB] was accessed last, then [shotC], then [shotA]. *)
Definition example_atimes (p : path) : Z :=
  if decide (p = ["files"; "shotA"]) then 100%Z
  else if decide (p = ["files"; "shotB"]) then 300%Z
  else if decide (p = ["files"; "shotC"]) then 200%Z
  else 0%Z.

Definition example_world_atimes (m : tree) (lines : list string) : world :=
  World m example_atimes ∅ lines [] (λ _, DateTime 2024 3 9 14 5 7) 0.

(** ** The script *)

Section Script.

(** [HOUDINI_FILES_DIR] and [HOUDINI_PROJECT_DIR], read from the environment
    when the module is loaded. *)
Variable FILES_DIR : path.
Variable PROJECT_DIR : path.

(** [datetime.fromtimestamp(t).strftime('%B %d, %Y %I:%M %p')], which depends
    on the local time zone. *)
Variable strftime_atime : Z → string.

Definition HFS : string := "20.5.370".

(** The colour wrappers of the [print_*] helpers. *)
Definition green (text : string) : string := ESC +:+ "[92m" +:+ text +:+ ESC +:+ "[0m".
Definition red (text : string) : string := ESC +:+ "[91m" +:+ text +:+ ESC +:+ "[0m".
Definition yellow (text : string) : string := ESC +:+ "[93m" +:+ text +:+ ESC +:+ "[0m".

Definition print_green (text : string) : py unit := print (green text).
Definition print_red (text : string) : py unit := print (red text).
Definition print_yellow (text : string) : py unit := print (yellow text).

Definition ensure_directory_exists (directory : path) : py unit :=
  d ← os_path_isdir directory;
  if negb d then
    os_makedirs directory ;;
    logging_info ("Created directory: " +:+ show_path directory) ;;
    print_yellow ("Directory created: " +:+ show_path directory)
  else mret tt.

Definition handle_error (message : string) : py unit :=
  logging_error message ;;
  print_red message.

(** Lines 106-123 of [ensure_directories_and_symlinks]: the project
    directory, its plain subdirectories, the [GEO] directory of the project
    tree and [FLIP]. *)
Definition ensure_project_directories (project_name : string) : py unit :=
  let required_dirs := ["HIP"; "REF"; "RENDER"; "COMP"] in
  let project_path := os_path_join FILES_DIR project_name in
  ensure_directory_exists project_path ;;
  for_ required_dirs (λ dir_name,
    let dir_path := os_path_join project_path dir_name in
    ensure_directory_exists dir_path) ;;
  let geo_dir_path_project := os_path_join (os_path_join PROJECT_DIR project_name) "GEO" in
  ensure_directory_exists geo_dir_path_project ;;
  let flip_dir_path := os_path_join project_path "FLIP" in
  ensure_directory_exists flip_dir_path.

Definition ensure_directories_and_symlinks (project_name : string) : py unit :=
  let project_path := os_path_join FILES_DIR project_name in
  let geo_dir_path_project := os_path_join (os_path_join PROJECT_DIR project_name) "GEO" in
  ensure_project_directories project_name ;;
  let symlink_path := os_path_join project_path "GEO" in
  l ← os_path_islink symlink_path;
  (if negb l then
     os_symlink geo_dir_path_project symlink_path ;;
     print_green ("Created symbolic link '" +:+ show_path symlink_path
                  +:+ "' pointing to '" +:+ show_path geo_dir_path_project +:+ "'")
   else
     print_yellow ("Symbolic link already exists: " +:+ show_path symlink_path)) ;;
  environ_set "PROJECT_NAME" project_name ;;
  environ_set "PROJECT_PATH" (show_path project_path) ;;
  print_green ("Environment variables set for project '" +:+ project_name +:+ "'.").

(** The directories that [ensure_project_directories] makes sure of, in the
    order of its calls. *)
Definition skeleton_dirs (project_name : string) : list path :=
  let project_path := os_path_join FILES_DIR project_name in
  [ project_path;
    os_path_join project_path "HIP"; os_path_join project_path "REF";
    os_path_join project_path "RENDER"; os_path_join project_path "COMP";
    os_path_join (os_path_join PROJECT_DIR project_name) "GEO";
    os_path_join project_path "FLIP" ].

(** The link that provisioning makes, and the directory it points to. *)
Definition link_path (project_name : string) : path :=
  os_path_join (os_path_join FILES_DIR project_name) "GEO".
Definition geo_path (project_name : string) : path :=
  os_path_join (os_path_join PROJECT_DIR project_name) "GEO".

(** The world after the last four statements of
    [ensure_directories_and_symlinks], [msg] being the line printed about
    the link. *)
Definition after_link (project_name : string) (msg : string) (w : world) : world :=
  set_trace (trace w ++
      [Print msg;
       Print (green ("Environment variables set for project '" +:+ project_name +:+ "'."))])
    (set_environ (<["PROJECT_PATH" := show_path (os_path_join FILES_DIR project_name)]>
                    (<["PROJECT_NAME" := project_name]> (environ w))) w).

(** What [os.path.getatime] returns for a project, and the projects that
    [list_recent_projects] finds: the entries of [FILES_DIR] that are
    directories, in the order of the listing. *)
Definition atime_of (w : world) (name : string) : Z :=
  match realpath (fs w) (os_path_join FILES_DIR name) with
  | Some loc => atimes w loc
  | None => 0%Z
  end.

Definition project_names (w : world) : list string :=
  match listdir (fs w) FILES_DIR with
  | inr names => filter (λ name, path_isdir (fs w) (os_path_join FILES_DIR name) = true) names
  | inl _ => []
  end.

(** The list that [list_recent_projects] returns: the projects by
    descending access time, the first six unless all are asked for. *)
Definition candidates (show_all : bool) (w : world) : list string :=
  let sorted := sorted_reverse ((λ x, (atime_of w x, x)) <$> project_names w) in
  if show_all then sorted else take 6 sorted.

Definition list_recent_projects (show_all : bool) : py (list string) :=
  e ← os_path_exists FILES_DIR;
  if negb e then
    handle_error ("Directory " +:+ show_path FILES_DIR +:+ " does not exist.") ;;
    mret []
  else
    names ← os_listdir FILES_DIR;
    m ← gets fs;
    let projects := filter (λ name, path_isdir m (os_path_join FILES_DIR name) = true) names in
    if is_nil projects then
      print_yellow "No projects found in FILES_DIR." ;;
      mret []
    else
      keyed ← mapM (λ x, k ← os_path_getatime (os_path_join FILES_DIR x); mret (k, x)) projects;
      let projects := sorted_reverse keyed in
      let projects := if negb show_all then take 6 projects else projects in
      print_green (if negb show_all then "Recent Projects:" else "All Projects:") ;;
      for_ (enumerate 1 projects) (λ '(idx, project),
        t ← os_path_getatime (os_path_join FILES_DIR project);
        let last_accessed := strftime_atime t in
        let spacing := 40 - String.length project in
        emit (PrintNoNl (ESC +:+ "[92m" +:+ format_02d idx +:+ " - " +:+ project
                         +:+ spaces spacing +:+ ESC +:+ "[0m")) ;;
        print (ESC +:+ "[37m" +:+ last_accessed +:+ ESC +:+ "[0m")) ;;
      mret projects.

(** Lines 248-268 of [select_project]: what is done with the answer, once
    read, stripped and lowered.  [retry] stands for the call of
    [select_project] by itself. *)
Definition resolve_choice (retry : py string) (projects : list string) (choice : string)
    : py string :=
  let finish (project_name : string) : py string :=
    environ_set "CURRENT_PROJECT" project_name ;;
    print_green ("Current project set to: " +:+ project_name) ;;
    mret project_name in
  if String.eqb choice "0" then
    project_name ← input "Enter the name of the new project: ";
    let project_name := str_strip project_name in
    if negb (String.eqb project_name EmptyString) then
      ensure_directories_and_symlinks project_name ;;
      print_green ("Created new project: " +:+ project_name) ;;
      finish project_name
    else
      handle_error "Invalid project name." ;;
      retry
  else
    in_range ←
      (if str_isdigit choice then
         n ← int choice;
         mret ((1 <=? n)%Z && (n <=? Z.of_nat (length projects))%Z)
       else mret false);
    if (in_range : bool) then
      n ← int choice;
      match projects !! Z.to_nat (n - 1) with
      | Some project_name =>
        print_green ("Selected project: " +:+ project_name) ;;
        finish project_name
      | None => raise IndexError
      end
    else
      handle_error "Invalid choice." ;;
      retry.

(** The body of [select_project], lines 239-246 and then [resolve_choice]. *)
Definition select_project_body (retry : py string) : py string :=
  projects ← list_recent_projects false;
  choice ← input "Press 'a' to show all projects, select project number, or '0' to create new: ";
  let choice := str_lower (str_strip choice) in
  '(projects, choice) ←
    (if String.eqb choice "a" then
       projects ← list_recent_projects true;
       choice ← input "Select project number or '0' to create new: ";
       mret (projects, str_lower (str_strip choice))
     else mret (projects, choice));
  resolve_choice retry projects choice.

(** [select_project] calls itself after an invalid answer; [depth] bounds the
    nesting of these calls. *)
Fixpoint select_project_rec (depth : nat) : py string :=
  match depth with
  | 0 => raise RecursionError
  | S depth' => select_project_body (select_project_rec depth')
  end.

(** Every call reads at least one line, so the lines waiting on standard
    input bound the nesting. *)
Definition select_project : py string := λ w,
  select_project_rec (S (length (stdin w))) w.

Definition customize_terminal (project_name hfs_version : string) : py unit :=
  os_system ("echo -ne '\033]0;" +:+ project_name +:+ " - Houdini " +:+ hfs_version +:+ "\007'") ;;
  let custom_prompt := "PS1=" +:+ DQ +:+ project_name +:+ " (" +:+ hfs_version +:+ ")$ " +:+ DQ in
  os_system ("export " +:+ custom_prompt).

Definition create_backup (project_dir : path) (backup_dir : option path) : py unit :=
  let backup_dir :=
    match backup_dir with
    | None => os_path_join project_dir "BACKUPS"
    | Some d => d
    end in
  now ← datetime_now;
  let timestamp := strftime_stamp now in
  let backup_dir := os_path_join backup_dir timestamp in
  ensure_directory_exists backup_dir ;;
  hip_files ← glob_hip project_dir;
  if is_nil hip_files then
    print_red "No .hip files found for backup."
  else
    for_ hip_files (λ file,
      shutil_copy file backup_dir ;;
      print_green ("Backed up " +:+ show_path file +:+ " to " +:+ show_path backup_dir)).

Definition restore_backup (project_dir : path) (timestamp : string) : py unit :=
  let backup_dir := os_path_join (os_path_join project_dir "BACKUPS") timestamp in
  e ← os_path_exists backup_dir;
  if negb e then
    handle_error ("No backup found for the specified timestamp: " +:+ timestamp)
  else
    let restore_dir := os_path_join project_dir ("RESTORED_" +:+ timestamp) in
    ensure_directory_exists restore_dir ;;
    hip_files ← glob_hip backup_dir;
    if is_nil hip_files then
      handle_error "No .hip files found in the backup."
    else
      for_ hip_files (λ file,
        shutil_copy file restore_dir ;;
        print_green ("Restored " +:+ show_path file +:+ " to " +:+ show_path restore_dir)).

Definition launch_xterm_with_env (project_name hfs_version : string) : py unit :=
  let houdini_setup :=
    NL +:+ "export HFS=" +:+ DQ +:+ "/opt/hfs" +:+ hfs_version +:+ DQ +:+ ";" +:+ NL
    +:+ "export HOUDINI_PATH=" +:+ DQ +:+ "$HFS/houdini;&" +:+ DQ +:+ ";" +:+ NL
    +:+ "export PROJECT_NAME=" +:+ DQ +:+ project_name +:+ DQ +:+ ";" +:+ NL
    +:+ "export PROJECT_PATH=" +:+ DQ +:+ show_path FILES_DIR +:+ "/" +:+ project_name +:+ DQ +:+ ";" +:+ NL
    +:+ "export COMP=" +:+ DQ +:+ "$PROJECT_PATH/COMP" +:+ DQ +:+ ";" +:+ NL
    +:+ "export FLIP=" +:+ DQ +:+ "$PROJECT_PATH/FLIP" +:+ DQ +:+ ";" +:+ NL
    +:+ "export GEO=" +:+ DQ +:+ "$PROJECT_PATH/GEO" +:+ DQ +:+ ";" +:+ NL
    +:+ "export HIP=" +:+ DQ +:+ "$PROJECT_PATH/HIP" +:+ DQ +:+ ";" +:+ NL
    +:+ "export REF=" +:+ DQ +:+ "$PROJECT_PATH/REF" +:+ DQ +:+ ";" +:+ NL
    +:+ "export RENDER=" +:+ DQ +:+ "$PROJECT_PATH/RENDER" +:+ DQ +:+ ";" +:+ NL
    +:+ "export JOB=" +:+ DQ +:+ "$PROJECT_PATH" +:+ DQ +:+ ";" +:+ NL
    +:+ "cd $PROJECT_PATH;" +:+ NL in
  let temp_env_file := ["tmp"; "fx_env_xterm.env"] in
  write_file temp_env_file houdini_setup ;;
  let title := project_name +:+ " - Houdini " +:+ hfs_version in
  let xterm_cmd := "xterm -title '" +:+ title +:+ "' -hold -e 'source "
                   +:+ show_path temp_env_file +:+ "; /bin/bash' &" in
  os_system xterm_cmd ;;
  print_green ("Launched xterm for project '" +:+ project_name
               +:+ "' with Houdini " +:+ hfs_version +:+ ".").

(** [if project_name:] for a variable that holds [None] or a string. *)
Definition truthy (project_name : option string) : bool :=
  match project_name with
  | Some s => negb (String.eqb s EmptyString)
  | None => false
  end.

(** The lines that open every round of [interactive_mode]. *)
Definition menu : list event :=
  [ Print (yellow (NL +:+ "--- Interactive Mode ---"));
    Print "1 - Select or Create Project";
    Print "2 - Create Backup";
    Print "3 - Restore Backup";
    Print "4 - Exit" ].

(** One round of the [while True] loop of [interactive_mode]; [loop] stands
    for the rounds that follow, and the result is the project name held when
    the loop is left. *)
Definition interactive_step (loop : option string → py (option string))
    (project_name : option string) : py (option string) :=
  print_yellow (NL +:+ "--- Interactive Mode ---") ;;
  print "1 - Select or Create Project" ;;
  print "2 - Create Backup" ;;
  print "3 - Restore Backup" ;;
  print "4 - Exit" ;;
  choice ← input "Select an option: ";
  if String.eqb choice "1" then
    name ← select_project;
    print_green ("Selected project: " +:+ name) ;;
    loop (Some name)
  else if String.eqb choice "2" then
    (if truthy project_name then
       create_backup (os_path_join FILES_DIR (default EmptyString project_name)) None
     else print_red "No project selected.") ;;
    loop project_name
  else if String.eqb choice "3" then
    (if truthy project_name then
       timestamp ← input "Enter the backup timestamp to restore: ";
       restore_backup (os_path_join FILES_DIR (default EmptyString project_name)) timestamp
     else print_red "No project selected.") ;;
    loop project_name
  else if String.eqb choice "4" then
    print_green "Exiting Interactive Mode." ;;
    mret project_name
  else
    print_red "Invalid choice, please try again." ;;
    loop project_name.

(** Every round reads at least one line; [rounds] bounds their number. *)
Fixpoint interactive_loop (rounds : nat) (project_name : option string)
    : py (option string) :=
  match rounds with
  | 0 => raise RecursionError
  | S rounds' => interactive_step (interactive_loop rounds') project_name
  end.

Definition interactive_mode : py unit := λ w,
  (project_name ← interactive_loop (S (length (stdin w))) None;
   if truthy project_name then
     customize_terminal (default EmptyString project_name) HFS ;;
     launch_xterm_with_env (default EmptyString project_name) HFS
   else
     print_red "No project selected. Cannot launch xterm.") w.


(** ** The launcher's texts *)

(** The text that [launch_xterm_with_env] writes to its environment file,
    the path of that file, and the command it hands to the shell. *)
Definition houdini_setup (project_name hfs_version : string) : string :=
  NL +:+ "export HFS=" +:+ DQ +:+ "/opt/hfs" +:+ hfs_version +:+ DQ +:+ ";" +:+ NL
  +:+ "export HOUDINI_PATH=" +:+ DQ +:+ "$HFS/houdini;&" +:+ DQ +:+ ";" +:+ NL
  +:+ "export PROJECT_NAME=" +:+ DQ +:+ project_name +:+ DQ +:+ ";" +:+ NL
  +:+ "export PROJECT_PATH=" +:+ DQ +:+ show_path FILES_DIR +:+ "/" +:+ project_name +:+ DQ +:+ ";" +:+ NL
  +:+ "export COMP=" +:+ DQ +:+ "$PROJECT_PATH/COMP" +:+ DQ +:+ ";" +:+ NL
  +:+ "export FLIP=" +:+ DQ +:+ "$PROJECT_PATH/FLIP" +:+ DQ +:+ ";" +:+ NL
  +:+ "export GEO=" +:+ DQ +:+ "$PROJECT_PATH/GEO" +:+ DQ +:+ ";" +:+ NL
  +:+ "export HIP=" +:+ DQ +:+ "$PROJECT_PATH/HIP" +:+ DQ +:+ ";" +:+ NL
  +:+ "export REF=" +:+ DQ +:+ "$PROJECT_PATH/REF" +:+ DQ +:+ ";" +:+ NL
  +:+ "export RENDER=" +:+ DQ +:+ "$PROJECT_PATH/RENDER" +:+ DQ +:+ ";" +:+ NL
  +:+ "export JOB=" +:+ DQ +:+ "$PROJECT_PATH" +:+ DQ +:+ ";" +:+ NL
  +:+ "cd $PROJECT_PATH;" +:+ NL.

Definition temp_env_file : path := ["tmp"; "fx_env_xterm.env"].

Definition xterm_cmd (project_name hfs_version : string) : string :=
  "xterm -title '" +:+ (project_name +:+ " - Houdini " +:+ hfs_version)
  +:+ "' -hold -e 'source " +:+ show_path temp_env_file +:+ "; /bin/bash' &".

(** ** Houdini version detection

    [os.path.join("/opt", f"hfs{hversion}")] is one component under [/opt]
    for a version string that has no separator in it. *)

Definition find_houdini_version (hversion : string) : py (option path) :=
  let houdini_base_dir := ["opt"] in
  let houdini_install_path := os_path_join houdini_base_dir ("hfs" +:+ hversion) in
  e ← os_path_exists houdini_install_path;
  if (e : bool) then
    print_green ("Houdini version " +:+ hversion +:+ " found at "
                 +:+ show_path houdini_install_path) ;;
    mret (Some houdini_install_path)
  else
    print_red ("Houdini version " +:+ hversion +:+ " not found!") ;;
    mret None.

(** A function that may call [exit]: it returns to its caller ([Continue])
    or ends the process with a status ([Exit]). *)
Inductive flow :=
| Continue
| Exit (status : Z).

Definition set_houdini_environment (hversion : string) : py flow :=
  houdini_path ← find_houdini_version hversion;
  match houdini_path with
  | Some houdini_path =>
    environ_set "HFS" (show_path houdini_path) ;;
    environ_set "HOUDINI_PATH" (show_path houdini_path +:+ "/houdini") ;;
    print_green ("Environment set for Houdini " +:+ hversion) ;;
    mret Continue
  | None =>
    handle_error ("Failed to set environment for Houdini " +:+ hversion) ;;
    mret (Exit 1)
  end.

(** ** The main program *)

(** The banner, whose box-drawing characters lie outside the code points
    that a [string] holds here. *)
Variable HOUDINI_ASCII : string.

Definition print_ascii_header : py unit := print_green HOUDINI_ASCII.

(** The parsed command line. *)
Record Args := {
  hversion : option string;
  debug : bool;
  backup : bool;
  restore : option string;
  interactive : bool;
  backup_dir : option string
}.

(** How the process ends: the module ran to its last line, an exception of
    a library call or of [input] reached the top, a key was missing from
    [os.environ], or [exit] was called. *)
Inductive ending :=
| Finished
| Uncaught (e : exn)
| KeyError (key : string)
| SystemExit (status : Z).

Definition script : Type := world → ending * world.

(** A statement of the module, and what follows it. *)
Definition run {A} (c : py A) (k : A → script) : script := λ w,
  match c w with
  | (Return a, w') => k a w'
  | (Raise e, w') => (Uncaught e, w')
  end.

(** [os.environ[key]] *)
Definition environ_get (key : string) (k : string → script) : script := λ w,
  match environ w !! key with
  | Some value => k value w
  | None => (KeyError key, w)
  end.

(** Lines 412-439. *)
Definition main (args : Args) : script :=
  run print_ascii_header (λ _,
  run (print ("Setting up environment for Houdini " +:+ HFS)) (λ _,
  run (if truthy (hversion args)
       then set_houdini_environment (default EmptyString (hversion args))
       else mret Continue) (λ fl,
  match fl with
  | Exit status => λ w, (SystemExit status, w)
  | Continue =>
    run select_project (λ project_name,
    run (print ("Working on project: " +:+ project_name)) (λ _,
    environ_get "CURRENT_PROJECT" (λ current,
    run (customize_terminal current HFS) (λ _,
    run (if backup args then
           create_backup (os_path_join FILES_DIR project_name) None
         else if truthy (restore args) then
           restore_backup (os_path_join FILES_DIR project_name)
                          (default EmptyString (restore args))
         else mret tt) (λ _,
    run (if interactive args then interactive_mode else mret tt) (λ _,
    environ_get "CURRENT_PROJECT" (λ current,
    run (print ("Project '" +:+ current
                +:+ "' is ready. You can start working in Houdini now!")) (λ _,
    run (launch_xterm_with_env project_name HFS) (λ _ w, (Finished, w))))))))))
  end))).

(** ** What a run may change *)

(** [keeps_entries m m']: every entry of [m] is still there in [m']; a
    directory or a link is as it was, a regular file may have new
    contents. *)
Definition keeps_entries (m m' : tree) : Prop :=
  ∀ p nd, m !! p = Some nd →
    match nd with
    | File _ => ∃ data, m' !! p = Some (File data)
    | _ => m' !! p = Some nd
    end.

(** [evolves keys w w']: what the script may do to the world.  No entry of
    the file system is removed and none changes its kind, a well-formed tree
    stays so; only the environment variables [keys] may change and none is
    unset; lines are only taken from the front of standard input; the trace
    only grows; the clock is only read. *)
Definition evolves (keys : list string) (w w' : world) : Prop :=
  keeps_entries (fs w) (fs w') ∧
  (wf_tree (fs w) → wf_tree (fs w')) ∧
  (∀ k, k ∉ keys → environ w' !! k = environ w !! k) ∧
  (∀ k, is_Some (environ w !! k) → is_Some (environ w' !! k)) ∧
  stdin w' `suffix_of` stdin w ∧
  trace w `prefix_of` trace w' ∧
  clock w' = clock w ∧
  ticks w ≤ ticks w'.

(** [preserves R c]: however [c] ends, the world it leaves is related by [R]
    to the one it started from. *)
Definition preserves {A} (R : world → world → Prop) (c : py A) : Prop :=
  ∀ w r w', c w = (r, w') → R w w'.

(** [printed w w']: [w'] is [w] with more in its trace and nothing else
    changed. *)
Definition printed (w w' : world) : Prop :=
  ∃ t, w' = set_trace (trace w ++ t) w.

(** [same f w w']: the part of the world that [f] reads is in [w'] as it
    was in [w]. *)
Definition same {B} (f : world → B) (w w' : world) : Prop := f w' = f w.

(** The environment variables that provisioning sets, and those that a
    selection may set. *)
Definition project_keys : list string := ["PROJECT_NAME"; "PROJECT_PATH"].
Definition session_keys : list string := ["PROJECT_NAME"; "PROJECT_PATH"; "CURRENT_PROJECT"].

(** [add_dirs_under base cs m]: [m] with the directories [base/c1],
    [base/c1/c2], ... for the components [cs = c1; c2; ...]. *)
Fixpoint add_dirs_under (base : path) (cs : list string) (m : tree) : tree :=
  match cs with
  | [] => m
  | c :: cs' => add_dirs_under (base ++ [c]) cs' (<[base ++ [c] := Dir]> m)
  end.

(** ** More example worlds *)

(** The three projects, and a [/tmp]. *)
Definition tree_with_tmp : tree :=
  <[ ["tmp"] := Dir ]> tree_three_projects.

(** [/tmp/fx_env_xterm.env] is a link to the file [/home/profile]. *)
Definition tree_tmp_link : tree :=
  <[ ["tmp"; "fx_env_xterm.env"] := Symlink ["home"; "profile"] ]>
    (<[ ["home"; "profile"] := File "export EDITOR=vi" ]>
       (<[ ["home"] := Dir ]> tree_with_tmp)).

(** The files root is a regular file. *)
Definition tree_files_is_file : tree :=
  <[ ["files"] := File "not a directory" ]> (<[ ["src"] := Dir ]> ∅).

(** A numeral of 4301 digits. *)
Definition long_numeral : string := String.string_of_list_ascii (replicate 4301 "7"%char).

(** A command line with [-hv 99.9] and nothing else. *)
Definition example_args : Args :=
  {| hversion := Some "99.9"; debug := false; backup := false;
     restore := None; interactive := false; backup_dir := None |}.

(** * Properties *)

(** ** Running programs *)

Lemma bind_run {A B} (c : py A) (f : A → py B) (w : world) :
  (c ≫= f) w = match c w with
                | (Return a, w') => f a w'
                | (Raise e, w') => (Raise e, w')
                end.
Proof. reflexivity. Qed.

Lemma bind_assoc_run {A B C} (c : py A) (f : A → py B) (g : B → py C) (w : world) :
  ((c ≫= f) ≫= g) w = (c ≫= (λ a, f a ≫= g)) w.
Proof. rewrite !bind_run. by destruct (c w) as [[a|e] w']. Qed.

Lemma ret_run {A} (a : A) (w : world) : (mret a : py A) w = (Return a, w).
Proof. reflexivity. Qed.

Lemma gets_run {A} (f : world → A) (w : world) : gets f w = (Return (f w), w).
Proof. reflexivity. Qed.

Lemma emit_run e w : emit e w = (Return tt, set_trace (trace w ++ [e]) w).
Proof. reflexivity. Qed.

Lemma locate_nil n m fl cur : locate n m fl cur [] = inr cur.
Proof. by destruct n. Qed.

Lemma locate_cons n m fl cur c rest :
  locate n m fl cur (c :: rest) =
  match m !! (cur ++ [c]) with
  | None => match rest with [] => inr (cur ++ [c]) | _ => inl ENOENT end
  | Some Dir => locate n m fl (cur ++ [c]) rest
  | Some (File _) => match rest with [] => inr (cur ++ [c]) | _ => inl ENOTDIR end
  | Some (Symlink t) =>
    match rest, fl with
    | [], false => inr (cur ++ [c])
    | _, _ => match n with 0 => inl ELOOP | S n' => locate n' m fl [] (t ++ rest) end
    end
  end.
Proof. by destruct n. Qed.

Lemma lookup_node_snoc m p c : lookup_node m (p ++ [c]) = m !! (p ++ [c]).
Proof. by destruct p. Qed.

(** A test for [wf_tree] that can be run. *)
Lemma wf_tree_check (m : tree) :
  map_Forall (λ p _, lookup_node m (removelast p) = Some Dir) m → wf_tree m.
Proof.
  intros Hall p c [nd Hnd]. specialize (Hall _ _ Hnd). cbv beta in Hall.
  by rewrite removelast_last in Hall.
Qed.

Lemma lookup_node_weaken (m m' : tree) p nd :
  m ⊆ m' → lookup_node m p = Some nd → lookup_node m' p = Some nd.
Proof. destruct p; [done|]. intros ? ?. by eapply lookup_weaken. Qed.

Lemma locate_induction (m : tree) (P : nat → path → path → Prop) :
  (∀ n cur, P n cur []) →
  (∀ n cur c rest,
     (m !! (cur ++ [c]) = Some Dir → P n (cur ++ [c]) rest) →
     (∀ t n', m !! (cur ++ [c]) = Some (Symlink t) → n = S n' → P n' [] (t ++ rest)) →
     P n cur (c :: rest)) →
  ∀ n cur rest, P n cur rest.
Proof.
  intros Hnil Hcons. induction n as [|n IHn]; intros cur rest; revert cur;
    induction rest as [|c rest IHrest]; intros cur; auto.
  - apply Hcons; [auto|]. intros; discriminate.
  - apply Hcons; [auto|]. intros t n' _ [= <-]. apply IHn.
Qed.

Lemma locate_weaken (n : nat) (m m' : tree) fl cur rest loc nd :
  m ⊆ m' →
  locate n m fl cur rest = inr loc →
  lookup_node m loc = Some nd →
  locate n m' fl cur rest = inr loc.
Proof.
  intros Hsub. revert n cur rest.
  refine (locate_induction m _ _ _).
  - intros n cur. by rewrite !locate_nil.
  - intros n cur c rest IHdir IHlink Hloc Hnd.
    rewrite locate_cons in Hloc. rewrite locate_cons.
    destruct (m !! (cur ++ [c])) as [[d| |t]|] eqn:Hc;
      try rewrite (lookup_weaken _ _ _ _ Hc Hsub).
    + done.
    + by apply IHdir.
    + destruct rest, fl, n; try done; by eapply IHlink.
    + destruct rest; [|done]. simplify_eq.
      rewrite lookup_node_snoc in Hnd. congruence.
Qed.

Lemma locate_insert (n : nat) (m : tree) cur rest loc fl nd :
  m !! loc = None →
  match nd with Symlink _ => fl = false | _ => True end →
  locate n m false cur rest = inr loc →
  locate n (<[loc := nd]> m) fl cur rest = inr loc.
Proof.
  intros Hnone Hnd. revert n cur rest.
  refine (locate_induction m _ _ _).
  - intros n cur. by rewrite !locate_nil.
  - intros n cur c rest IHdir IHlink Hloc.
    rewrite locate_cons in Hloc. rewrite locate_cons.
    destruct (m !! (cur ++ [c])) as [[d| |t]|] eqn:Hc.
    + destruct rest; [|done]. simplify_eq.
    + rewrite lookup_insert_ne by congruence. rewrite Hc. by apply IHdir.
    + destruct rest; [simplify_eq|].
      rewrite lookup_insert_ne by congruence. rewrite Hc.
      destruct n; [done|]. by eapply IHlink.
    + destruct rest; [|done]. simplify_eq.
      rewrite lookup_insert_eq. destruct nd; try done.
      * by rewrite locate_nil.
      * by subst fl.
Qed.

Lemma locate_snoc (n : nat) (m : tree) fl cur p cp c :
  lookup_node m cp = Some Dir →
  match m !! (cp ++ [c]) with Some (Symlink _) => fl = false | _ => True end →
  locate n m true cur p = inr cp →
  locate n m fl cur (p ++ [c]) = inr (cp ++ [c]).
Proof.
  intros Hdir Hc. revert n cur p.
  refine (locate_induction m _ _ _).
  - intros n cur. rewrite locate_nil. intros [= <-]. simpl.
    rewrite locate_cons.
    destruct (m !! (cur ++ [c])) as [[d| |t]|]; try done.
    + by rewrite locate_nil.
    + by subst fl.
  - intros n cur a p IHdir IHlink Hloc.
    rewrite locate_cons in Hloc. simpl. rewrite locate_cons.
    destruct (m !! (cur ++ [a])) as [[d| |t]|] eqn:Ha.
    + destruct p; [|done]. simplify_eq.
      rewrite lookup_node_snoc in Hdir. congruence.
    + by apply IHdir.
    + assert (match n with 0 => inl ELOOP | S n' => locate n' m true [] (t ++ p) end
              = inr cp) as Ht by (by destruct p).
      destruct n as [|n']; [done|].
      eapply IHlink in Ht; [|done..]. rewrite <-(assoc_L (++)) in Ht.
      by destruct p.
    + destruct p; [|done]. simplify_eq.
      rewrite lookup_node_snoc in Hdir. congruence.
Qed.

Lemma stat_weaken (fl : bool) (m m' : tree) (p : path) (nd : node) :
  m ⊆ m' → stat_with fl m p = inr nd → stat_with fl m' p = inr nd.
Proof.
  unfold stat_with. intros Hsub Hst.
  destruct (locate SYMLOOP_MAX m fl [] p) as [e|loc] eqn:Hloc; [done|].
  destruct (lookup_node m loc) as [nd'|] eqn:Hnd; [|done]. simplify_eq.
  rewrite (locate_weaken _ _ _ _ _ _ _ _ Hsub Hloc Hnd).
  by rewrite (lookup_node_weaken _ _ _ _ Hsub Hnd).
Qed.

Lemma os_lstat_weaken (m m' : tree) (p : path) (nd : node) :
  m ⊆ m' → os_lstat m p = inr nd → os_lstat m' p = inr nd.
Proof. apply stat_weaken. Qed.

Lemma os_stat_weaken (m m' : tree) (p : path) (nd : node) :
  m ⊆ m' → os_stat m p = inr nd → os_stat m' p = inr nd.
Proof. apply stat_weaken. Qed.

Lemma path_isdir_weaken (m m' : tree) p :
  m ⊆ m' → path_isdir m p = true → path_isdir m' p = true.
Proof.
  unfold path_isdir, os_stat. intros Hsub Hd.
  destruct (stat_with true m p) as [|[]] eqn:Hst; try done.
  by rewrite (stat_weaken _ _ _ _ _ Hsub Hst).
Qed.

Lemma path_exists_weaken (m m' : tree) p :
  m ⊆ m' → path_exists m p = true → path_exists m' p = true.
Proof.
  unfold path_exists, os_stat. intros Hsub Hd.
  destruct (stat_with true m p) as [|nd] eqn:Hst; try done.
  by rewrite (stat_weaken _ _ _ _ _ Hsub Hst).
Qed.

Lemma path_islink_weaken (m m' : tree) p :
  m ⊆ m' → path_islink m p = true → path_islink m' p = true.
Proof.
  unfold path_islink, os_lstat. intros Hsub Hd.
  destruct (stat_with false m p) as [|[]] eqn:Hst; try done.
  by rewrite (stat_weaken _ _ _ _ _ Hsub Hst).
Qed.

Lemma read_file_weaken (m m' : tree) (p : path) (d : string) :
  m ⊆ m' → read_file m p = inr d → read_file m' p = inr d.
Proof.
  unfold read_file, os_stat. intros Hsub Hd.
  destruct (stat_with true m p) as [|[]] eqn:Hst; try done.
  by rewrite (stat_weaken _ _ _ _ _ Hsub Hst).
Qed.

Lemma path_isdir_exists m p : path_isdir m p = true → path_exists m p = true.
Proof. unfold path_isdir, path_exists. by destruct (os_stat m p) as [|[]]. Qed.

(** *** Creating entries *)

Lemma os_mkdir_inv p w r w' :
  os_mkdir p w = (r, w') →
  (∃ loc, r = Return tt ∧ locate SYMLOOP_MAX (fs w) false [] p = inr loc ∧
          lookup_node (fs w) loc = None ∧ w' = set_fs (<[loc := Dir]> (fs w)) w) ∨
  (∃ e, r = Raise e ∧ w' = w).
Proof.
  unfold os_mkdir. intros H.
  destruct (locate SYMLOOP_MAX (fs w) false [] p) as [e|loc] eqn:Hloc;
    [right; eexists; by simplify_eq|].
  destruct (lookup_node (fs w) loc) as [nd|] eqn:Hnd;
    [right; eexists; by simplify_eq|].
  left. exists loc. by simplify_eq.
Qed.

Lemma os_symlink_inv src dst w r w' :
  os_symlink src dst w = (r, w') →
  (∃ loc, r = Return tt ∧ locate SYMLOOP_MAX (fs w) false [] dst = inr loc ∧
          lookup_node (fs w) loc = None ∧ w' = set_fs (<[loc := Symlink src]> (fs w)) w) ∨
  (∃ e, r = Raise e ∧ w' = w).
Proof.
  unfold os_symlink. intros H.
  destruct (locate SYMLOOP_MAX (fs w) false [] dst) as [e|loc] eqn:Hloc;
    [right; eexists; by simplify_eq|].
  destruct (lookup_node (fs w) loc) as [nd|] eqn:Hnd;
    [right; eexists; by simplify_eq|].
  left. exists loc. by simplify_eq.
Qed.

Lemma lookup_node_None (m : tree) (loc : path) :
  lookup_node m loc = None → m !! loc = None ∧ loc ≠ [].
Proof. by destruct loc. Qed.

Lemma stat_insert (fl : bool) (m : tree) (p loc : path) (nd : node) :
  locate SYMLOOP_MAX m false [] p = inr loc →
  lookup_node m loc = None →
  match nd with Symlink _ => fl = false | _ => True end →
  stat_with fl (<[loc := nd]> m) p = inr nd.
Proof.
  intros Hloc [Hnone Hne]%lookup_node_None Hnd. unfold stat_with.
  rewrite (locate_insert _ _ _ _ _ _ _ Hnone Hnd Hloc).
  destruct loc; [done|]. simpl. by rewrite lookup_insert_eq.
Qed.

Lemma os_mkdir_isdir p w w' :
  os_mkdir p w = (Return tt, w') → path_isdir (fs w') p = true.
Proof.
  intros [(loc & _ & Hloc & Hnone & ->)|(e & ? & _)]%os_mkdir_inv; [|done].
  unfold path_isdir, os_stat. simpl.
  by rewrite (stat_insert true _ _ _ Dir Hloc Hnone).
Qed.

Lemma adds_dirs_refl (m : tree) : adds_dirs m m.
Proof. split; [done|]. intros; congruence. Qed.

Lemma adds_dirs_trans (m1 m2 m3 : tree) :
  adds_dirs m1 m2 → adds_dirs m2 m3 → adds_dirs m1 m3.
Proof.
  intros [H12 N12] [H23 N23]. split; [by etrans|].
  intros p nd H1 H3. destruct (m2 !! p) as [nd2|] eqn:H2; [|by eauto].
  rewrite (lookup_weaken _ _ _ _ H2 H23) in H3. simplify_eq. eauto.
Qed.

Lemma adds_dirs_insert (m : tree) (loc : path) :
  m !! loc = None → adds_dirs m (<[loc := Dir]> m).
Proof.
  intros Hnone. split; [by apply insert_subseteq|].
  intros p nd Hp. destruct (decide (loc = p)) as [->|].
  - rewrite lookup_insert_eq. congruence.
  - rewrite lookup_insert_ne by done. congruence.
Qed.

Lemma os_mkdir_adds p w r w' :
  os_mkdir p w = (r, w') → adds_dirs (fs w) (fs w').
Proof.
  intros [(loc & _ & Hloc & [Hnone _]%lookup_node_None & ->)|(e & _ & ->)]%os_mkdir_inv.
  - by apply adds_dirs_insert.
  - apply adds_dirs_refl.
Qed.

Lemma except_pass_inv c w r w' :
  except_FileExistsError_pass c w = (r, w') → ∃ r0, c w = (r0, w').
Proof.
  unfold except_FileExistsError_pass.
  destruct (c w) as [[[]|e] w1]; [by eauto|].
  destruct (is_FileExistsError e); intros; simplify_eq; eauto.
Qed.

Lemma makedirs_rev_adds rname w r w' :
  makedirs_rev rname w = (r, w') → adds_dirs (fs w) (fs w').
Proof.
  revert w r w'. induction rname as [|tail rhead IH]; intros w r w'; simpl.
  - apply os_mkdir_adds.
  - rewrite !bind_run. unfold os_path_exists, gets.
    destruct (negb _); rewrite bind_run.
    + destruct (except_FileExistsError_pass _ w) as [r1 w1] eqn:H1.
      apply except_pass_inv in H1 as [r0 H1%IH].
      destruct r1 as [[]|e].
      * intros ?%os_mkdir_adds. by eapply adds_dirs_trans.
      * intros; by simplify_eq.
    + simpl. apply os_mkdir_adds.
Qed.

Lemma os_makedirs_isdir name w w' :
  os_makedirs name w = (Return tt, w') → path_isdir (fs w') name = true.
Proof.
  unfold os_makedirs. rewrite <-(rev_involutive name) at 2.
  destruct (rev name) as [|tail rhead]; simpl.
  - intros [(loc & _ & Hloc & Hnone & _)|(e & ? & _)]%os_mkdir_inv; [|done].
    rewrite locate_nil in Hloc. by simplify_eq.
  - rewrite !bind_run. unfold os_path_exists, gets.
    destruct (negb _); rewrite bind_run.
    + destruct (except_FileExistsError_pass _ w) as [[[]|e] w1]; [|done].
      apply os_mkdir_isdir.
    + apply os_mkdir_isdir.
Qed.

(** *** [ensure_directory_exists] *)

Lemma ensure_directory_exists_noop d w :
  path_isdir (fs w) d = true → ensure_directory_exists d w = (Return tt, w).
Proof.
  intros Hd. unfold ensure_directory_exists, os_path_isdir, gets.
  rewrite bind_run. by rewrite Hd.
Qed.

Lemma ensure_directory_exists_inv d w r w' :
  ensure_directory_exists d w = (r, w') →
  (path_isdir (fs w) d = true ∧ r = Return tt ∧ w' = w) ∨
  (path_isdir (fs w) d = false ∧
   ∃ w1, os_makedirs d w = (r, w1) ∧
     match r with
     | Return _ =>
       w' = set_trace (trace w1 ++
              [LogInfo ("Created directory: " +:+ show_path d);
               Print (yellow ("Directory created: " +:+ show_path d))]) w1
     | Raise _ => w' = w1
     end).
Proof.
  unfold ensure_directory_exists, os_path_isdir, gets. rewrite bind_run.
  destruct (path_isdir (fs w) d) eqn:Hd; simpl.
  - rewrite ret_run. intros [= <- <-]. by left.
  - rewrite bind_run. intros H. right. split; [done|].
    destruct (os_makedirs d w) as [[[]|e] w1]; [|simplify_eq; eauto].
    revert H. unfold logging_info, print_yellow, print.
    rewrite bind_run, !emit_run. simpl. intros [= <- <-].
    exists w1. split; [done|]. by rewrite <-(assoc_L (++)).
Qed.

Lemma ensure_directory_exists_isdir d w w' :
  ensure_directory_exists d w = (Return tt, w') → path_isdir (fs w') d = true.
Proof.
  intros [(Hd & _ & ->)|(_ & w1 & Hmk & ->)]%ensure_directory_exists_inv; [done|].
  simpl. by eapply os_makedirs_isdir.
Qed.

Lemma ensure_directory_exists_adds d w r w' :
  ensure_directory_exists d w = (r, w') → adds_dirs (fs w) (fs w').
Proof.
  intros [(Hd & _ & ->)|(_ & w1 & Hmk & Hw')]%ensure_directory_exists_inv;
    [apply adds_dirs_refl|].
  apply makedirs_rev_adds in Hmk. by destruct r; subst w'.
Qed.

Lemma for_ensure_adds l w r w' :
  for_ l ensure_directory_exists w = (r, w') → adds_dirs (fs w) (fs w').
Proof.
  revert w. induction l as [|d l IH]; intros w; simpl.
  - rewrite ret_run. intros [= <- <-]. apply adds_dirs_refl.
  - rewrite bind_run.
    destruct (ensure_directory_exists d w) as [[[]|e] w1] eqn:Hd;
      apply ensure_directory_exists_adds in Hd.
    + intros ?%IH. by eapply adds_dirs_trans.
    + by intros [= <- <-].
Qed.

Lemma for_ensure_isdir l w w' :
  for_ l ensure_directory_exists w = (Return tt, w') →
  Forall (λ d, path_isdir (fs w') d = true) l.
Proof.
  revert w. induction l as [|d l IH]; intros w; simpl; [by constructor|].
  rewrite bind_run.
  destruct (ensure_directory_exists d w) as [[[]|e] w1] eqn:Hd; [|done].
  intros Hl. constructor; [|by eapply IH].
  apply ensure_directory_exists_isdir in Hd.
  apply for_ensure_adds in Hl as [Hsub _]. by eapply path_isdir_weaken.
Qed.

Lemma for_ensure_noop l w :
  Forall (λ d, path_isdir (fs w) d = true) l →
  for_ l ensure_directory_exists w = (Return tt, w).
Proof.
  induction 1 as [|d l Hd _ IH]; simpl; [done|].
  rewrite bind_run. by rewrite ensure_directory_exists_noop.
Qed.



(** ** Provisioning *)

Lemma ensure_project_directories_for name w :
  ensure_project_directories name w =
  for_ (skeleton_dirs name) ensure_directory_exists w.
Proof.
  unfold ensure_project_directories, skeleton_dirs. simpl.
  repeat (rewrite ?bind_run, ?ret_run;
          repeat match goal with
          | H : ensure_directory_exists ?d ?w = _ |- context [ensure_directory_exists ?d ?w] =>
            rewrite H
          end;
          try match goal with
          | |- context [ensure_directory_exists ?d ?w] =>
            is_var w; destruct (ensure_directory_exists d w) as [[[]|?] ?] eqn:?
          end; try done).
Qed.

Lemma provision_tail name msg w :
  (print msg ;;
   environ_set "PROJECT_NAME" name ;;
   environ_set "PROJECT_PATH" (show_path (os_path_join FILES_DIR name)) ;;
   print_green ("Environment variables set for project '" +:+ name +:+ "'.")) w
  = (Return tt, after_link name msg w).
Proof.
  unfold after_link. rewrite (cons_middle (Print msg)), (assoc_L (++)). reflexivity.
Qed.

Lemma provision_inv name w r w' :
  ensure_directories_and_symlinks name w = (r, w') →
  ∃ rd wd, ensure_project_directories name w = (rd, wd) ∧
    match rd with
    | Raise e => r = Raise e ∧ w' = wd
    | Return _ =>
      if path_islink (fs wd) (link_path name) then
        r = Return tt ∧
        w' = after_link name
               (yellow ("Symbolic link already exists: " +:+ show_path (link_path name))) wd
      else
        ∃ rl wl, os_symlink (geo_path name) (link_path name) wd = (rl, wl) ∧
          match rl with
          | Raise e => r = Raise e ∧ w' = wl
          | Return _ =>
            r = Return tt ∧
            w' = after_link name
                   (green ("Created symbolic link '" +:+ show_path (link_path name)
                           +:+ "' pointing to '" +:+ show_path (geo_path name) +:+ "'")) wl
          end
    end.
Proof.
  unfold ensure_directories_and_symlinks. rewrite bind_run.
  destruct (ensure_project_directories _ _) as [[[]|e] wd];
    [|intros [= <- <-]; by exists (Raise e), wd].
  intros H. exists (Return tt), wd. split; [done|]. revert H.
  rewrite bind_run. unfold os_path_islink. rewrite gets_run.
  destruct (path_islink (fs wd) _); cbv beta iota; unfold negb.
  - unfold print_yellow. rewrite provision_tail. by intros [= <- <-].
  - rewrite bind_assoc_run, bind_run.
    destruct (os_symlink _ _ wd) as [[[]|e] wl].
    + cbv beta iota. intros H.
      match type of H with (print_green ?m ≫= _) _ = _ =>
        pose proof (provision_tail name (green m) wl) as Ht end.
      unfold print_green in *. rewrite Ht in H. simplify_eq.
      by exists (Return tt), wl.
    + intros [= <- <-]. by exists (Raise e), wl.
Qed.

Lemma provision_dirs_isdir name w wd :
  ensure_project_directories name w = (Return tt, wd) →
  Forall (λ d, path_isdir (fs wd) d = true) (skeleton_dirs name).
Proof. rewrite ensure_project_directories_for. apply for_ensure_isdir. Qed.

Lemma provision_dirs_adds name w r wd :
  ensure_project_directories name w = (r, wd) →
  adds_dirs (fs w) (fs wd).
Proof. rewrite ensure_project_directories_for. apply for_ensure_adds. Qed.

Lemma os_symlink_islink src dst w w' :
  os_symlink src dst w = (Return tt, w') →
  os_lstat (fs w') dst = inr (Symlink src) ∧ fs w ⊆ fs w'.
Proof.
  intros [(loc & _ & Hloc & Hnone & ->)|(e & ? & _)]%os_symlink_inv; [|done].
  split.
  - by apply stat_insert.
  - simpl. apply insert_subseteq. by apply lookup_node_None in Hnone as [].
Qed.

Lemma environ_reset (k1 k2 v1 v2 : string) (e : gmap string string) :
  <[k2 := v2]> (<[k1 := v1]> (<[k2 := v2]> (<[k1 := v1]> e))) =
  <[k2 := v2]> (<[k1 := v1]> e).
Proof.
  apply map_eq. intros k. rewrite !lookup_insert.
  by repeat case_decide.
Qed.


(** *** Entries of the old tree seen from the new one *)

Lemma locate_new_stays (n : nat) (m m' : tree) (fl : bool) (cur rest loc : path) :
  wf_tree m → adds_dirs m m' →
  cur ≠ [] → m !! cur = None →
  locate n m' fl cur rest = inr loc → m !! loc = None.
Proof.
  intros Hwf [Hsub Hnew]. revert n cur rest.
  refine (locate_induction m' _ _ _).
  - intros n cur Hne Hcur. rewrite locate_nil. by intros [= <-].
  - intros n cur c rest IHdir IHlink Hne Hcur. rewrite locate_cons.
    assert (m !! (cur ++ [c]) = None) as Hhere.
    { destruct (m !! (cur ++ [c])) as [x|] eqn:Hx; [|done].
      assert (lookup_node m cur = Some Dir) as Hd by (apply (Hwf cur c); by rewrite Hx).
      destruct cur; [done|]. simpl in Hd. congruence. }
    destruct (m' !! (cur ++ [c])) as [[d| |t]|] eqn:Hc.
    + destruct rest; [|done]. by intros [= <-].
    + apply IHdir; [done| |done]. by destruct cur.
    + by specialize (Hnew _ _ Hhere Hc).
    + destruct rest; [|done]. by intros [= <-].
Qed.

Lemma locate_back (n : nat) (m m' : tree) (fl : bool) (cur rest loc : path) :
  wf_tree m → adds_dirs m m' →
  lookup_node m cur = Some Dir →
  locate n m' fl cur rest = inr loc → is_Some (m !! loc) →
  locate n m fl cur rest = inr loc.
Proof.
  intros Hwf Hadd. pose proof Hadd as [Hsub Hnew]. revert n cur rest.
  refine (locate_induction m' _ _ _).
  - intros n cur _. by rewrite !locate_nil.
  - intros n cur c rest IHdir IHlink Hcur. rewrite !locate_cons.
    destruct (m' !! (cur ++ [c])) as [[d| |t]|] eqn:Hc.
    + destruct rest; [|done]. intros [= <-] [x Hx].
      rewrite Hx. rewrite (lookup_weaken _ _ _ _ Hx Hsub) in Hc. by simplify_eq.
    + destruct (m !! (cur ++ [c])) as [x|] eqn:Hx.
      * rewrite (lookup_weaken _ _ _ _ Hx Hsub) in Hc. simplify_eq.
        intros. apply IHdir; try done. by rewrite lookup_node_snoc.
      * intros Hloc [y Hy].
        assert (m !! loc = None) as Hn; [|congruence].
        apply (locate_new_stays n m m' fl (cur ++ [c]) rest loc Hwf Hadd);
          [by destruct cur|done|done].
    + destruct (m !! (cur ++ [c])) as [x|] eqn:Hx.
      * rewrite (lookup_weaken _ _ _ _ Hx Hsub) in Hc. simplify_eq.
        destruct rest, fl, n; try done; intros; by eapply IHlink.
      * by specialize (Hnew _ _ Hx Hc).
    + destruct (m !! (cur ++ [c])) as [x|] eqn:Hx; [|done].
      rewrite (lookup_weaken _ _ _ _ Hx Hsub) in Hc. done.
Qed.

Lemma lstat_symlink_back (m m' : tree) (p t : path) :
  wf_tree m → adds_dirs m m' →
  os_lstat m' p = inr (Symlink t) → os_lstat m p = inr (Symlink t).
Proof.
  intros Hwf Hadd. pose proof Hadd as [Hsub Hnew].
  unfold os_lstat, stat_with.
  destruct (locate SYMLOOP_MAX m' false [] p) as [e|loc] eqn:Hloc; [done|].
  destruct (lookup_node m' loc) as [nd|] eqn:Hnd; [|done]. intros [= ->].
  destruct loc as [|c0 loc0]; [done|]. simpl in Hnd.
  destruct (m !! (c0 :: loc0)) as [x|] eqn:Hx.
  - rewrite (lookup_weaken _ _ _ _ Hx Hsub) in Hnd. simplify_eq.
    erewrite locate_back; [|done..| |]; [|done|by rewrite Hx].
    simpl. by rewrite Hx.
  - by specialize (Hnew _ _ Hx Hnd).
Qed.

Lemma os_symlink_occupied (src dst : path) (w : world) (nd : node) :
  os_lstat (fs w) dst = inr nd →
  os_symlink src dst w = (Raise (FileExistsError dst), w).
Proof.
  unfold os_lstat, stat_with, os_symlink.
  destruct (locate SYMLOOP_MAX (fs w) false [] dst) as [e|loc]; [done|].
  by destruct (lookup_node (fs w) loc).
Qed.

(** C4.  Provisioning is idempotent: after a call that completed, a second
    call completes as well, leaves the file system and the environment as
    they are, and prints only that the link already exists and that the
    environment variables are set: it creates no directory and no link. *)
Theorem provisioning_idempotent (name : string) (w w1 : world) :
  ensure_directories_and_symlinks name w = (Return tt, w1) →
  ∃ w2, ensure_directories_and_symlinks name w1 = (Return tt, w2) ∧
        fs w2 = fs w1 ∧
        environ w2 = environ w1 ∧
        trace w2 = trace w1 ++
          [Print (yellow ("Symbolic link already exists: " +:+ show_path (link_path name)));
           Print (green ("Environment variables set for project '" +:+ name +:+ "'."))].
Proof.
  intros H1.
  assert (Forall (λ d, path_isdir (fs w1) d = true) (skeleton_dirs name)
          ∧ path_islink (fs w1) (link_path name) = true
          ∧ ∃ e, environ w1 = <["PROJECT_PATH" := show_path (os_path_join FILES_DIR name)]>
                                 (<["PROJECT_NAME" := name]> e)) as (Hdirs & Hlink & e & Henv).
  { apply provision_inv in H1 as (rd & wd & Hd & H1).
    destruct rd as [[]|e]; [|by destruct H1].
    pose proof (provision_dirs_isdir _ _ _ Hd) as Hdirs.
    destruct (path_islink (fs wd) (link_path name)) eqn:Hl.
    - destruct H1 as [_ ->]. split; [done|]. split; [done|].
      exists (environ wd). reflexivity.
    - destruct H1 as (rl & wl & Hsym & H1).
      destruct rl as [[]|e]; [|by destruct H1]. destruct H1 as [_ ->].
      apply os_symlink_islink in Hsym as [Hlst Hsub].
      change (fs (after_link name
                    (green ("Created symbolic link '" +:+ show_path (link_path name)
                            +:+ "' pointing to '" +:+ show_path (geo_path name) +:+ "'")) wl))
        with (fs wl).
      split; [|split].
      + eapply Forall_impl; [exact Hdirs|]. intros d Hd'.
        exact (path_isdir_weaken _ _ _ Hsub Hd').
      + unfold path_islink. rewrite Hlst. reflexivity.
      + exists (environ wl). reflexivity. }
  exists (after_link name
            (yellow ("Symbolic link already exists: " +:+ show_path (link_path name))) w1).
  split; [|split; [reflexivity|split; [|reflexivity]]].
  - unfold ensure_directories_and_symlinks. rewrite bind_run.
    rewrite ensure_project_directories_for, for_ensure_noop by exact Hdirs.
    rewrite bind_run. unfold os_path_islink. rewrite gets_run.
    fold (link_path name). rewrite Hlink.
    cbv beta iota. unfold negb, print_yellow. rewrite provision_tail. reflexivity.
  - cbn [environ after_link set_trace set_environ]. rewrite Henv. apply environ_reset.
Qed.


(** C2.  When [GEO] in the project directory is a plain directory, the call
    never completes normally, keeps every entry of the file system (the
    directory included); and once the directories are made sure of, the
    exception is the [FileExistsError] of [os.symlink] on the link path,
    which is not a [FileNotFoundError], with nothing changed by that step. *)
Theorem provisioning_conflict (name : string) (w : world) :
  os_lstat (fs w) (link_path name) = inr Dir →
  (∀ r w', ensure_directories_and_symlinks name w = (r, w') →
     (∃ e, r = Raise e) ∧ fs w ⊆ fs w' ∧ os_lstat (fs w') (link_path name) = inr Dir) ∧
  (∀ wd, ensure_project_directories name w = (Return tt, wd) →
     ensure_directories_and_symlinks name w = (Raise (FileExistsError (link_path name)), wd)) ∧
  (∀ p, FileExistsError (link_path name) ≠ FileNotFoundError p).
Proof.
  intros Hgeo.
  assert (∀ rd wd, ensure_project_directories name w = (rd, wd) →
            fs w ⊆ fs wd ∧ os_lstat (fs wd) (link_path name) = inr Dir ∧
            path_islink (fs wd) (link_path name) = false) as Hdirs.
  { intros rd wd [Hsub _]%provision_dirs_adds.
    assert (os_lstat (fs wd) (link_path name) = inr Dir) as Hl
      by exact (os_lstat_weaken _ _ _ _ Hsub Hgeo).
    split; [done|]. split; [done|]. unfold path_islink. by rewrite Hl. }
  split; [|split].
  - intros r w' (rd & wd & Hd & H)%provision_inv.
    destruct (Hdirs _ _ Hd) as (Hsub & Hl & Hnl).
    destruct rd as [[]|e].
    + rewrite Hnl in H. destruct H as (rl & wl & Hsym & H).
      rewrite (os_symlink_occupied _ _ _ _ Hl) in Hsym. simplify_eq.
      destruct H as [-> ->]. eauto.
    + destruct H as [-> ->]. eauto.
  - intros wd Hd. destruct (Hdirs _ _ Hd) as (Hsub & Hl & Hnl).
    destruct (ensure_directories_and_symlinks name w) as [r w'] eqn:Hrun.
    apply provision_inv in Hrun as (rd & wd' & Hd' & H).
    rewrite Hd in Hd'. simplify_eq. rewrite Hnl in H.
    destruct H as (rl & wl & Hsym & H).
    rewrite (os_symlink_occupied _ _ _ _ Hl) in Hsym. simplify_eq.
    by destruct H as [-> ->].
  - done.
Qed.

(** C5, amended.  After a call that completed, [GEO] in the project
    directory is a symbolic link (so not a plain directory).  When no link
    was there before the call, its target is the [GEO] directory of the
    project under the project-source root, which is then a directory; a link
    that was there before is kept with the target it had. *)
Theorem provisioning_link (name : string) (w w1 : world) :
  wf_tree (fs w) →
  ensure_directories_and_symlinks name w = (Return tt, w1) →
  ∃ t, os_lstat (fs w1) (link_path name) = inr (Symlink t) ∧
       (path_islink (fs w) (link_path name) = false →
        t = geo_path name ∧ path_isdir (fs w1) (geo_path name) = true) ∧
       (∀ t0, os_lstat (fs w) (link_path name) = inr (Symlink t0) → t = t0).
Proof.
  intros Hwf (rd & wd & Hd & H)%provision_inv.
  destruct rd as [[]|e]; [|by destruct H].
  pose proof (provision_dirs_adds _ _ _ _ Hd) as Hadd.
  pose proof (provision_dirs_isdir _ _ _ Hd) as Hdirs.
  assert (path_isdir (fs wd) (geo_path name) = true) as Hgeo.
  { rewrite Forall_forall in Hdirs. apply Hdirs.
    unfold skeleton_dirs, geo_path. set_solver. }
  destruct (path_islink (fs wd) (link_path name)) eqn:Hl.
  - destruct H as [_ ->]. unfold path_islink in Hl.
    destruct (os_lstat (fs wd) (link_path name)) as [|[d| |t]] eqn:Hlst; try done.
    exists t. split; [exact Hlst|]. split.
    + intros Hno. apply (lstat_symlink_back _ _ _ _ Hwf Hadd) in Hlst.
      unfold path_islink in Hno. by rewrite Hlst in Hno.
    + intros t0 Ht0. destruct Hadd as [Hsub _].
      pose proof (os_lstat_weaken _ _ _ _ Hsub Ht0) as Ht0'.
      rewrite Hlst in Ht0'. by injection Ht0'.
  - destruct H as (rl & wl & Hsym & H).
    destruct rl as [[]|e]; [|by destruct H]. destruct H as [_ ->].
    apply os_symlink_islink in Hsym as [Hlst Hsub].
    exists (geo_path name). split; [exact Hlst|]. split.
    + intros _. split; [done|]. exact (path_isdir_weaken _ _ _ Hsub Hgeo).
    + intros t0 Ht0. destruct Hadd as [Hsub' _].
      pose proof (os_lstat_weaken _ _ _ _ Hsub' Ht0) as Ht0'.
      unfold path_islink in Hl. by rewrite Ht0' in Hl.
Qed.

(** ** Directory listings *)

Lemma child_of_Some (dir p : path) (c : string) :
  child_of dir p = Some c ↔ p = dir ++ [c].
Proof.
  unfold child_of. split.
  - case_decide as Htake; [|done].
    destruct (drop (length dir) p) as [|c' [|]] eqn:Hdrop; try done.
    intros [= ->]. by rewrite <-(take_drop (length dir) p), Htake, Hdrop.
  - intros ->. rewrite take_app_length, decide_True by done.
    by rewrite drop_app_length.
Qed.

Lemma elem_of_children (m : tree) (dir : path) (c : string) :
  c ∈ children m dir ↔ is_Some (m !! (dir ++ [c])).
Proof.
  unfold children. rewrite list_elem_of_omap. split.
  - intros (p & Hp & ->%child_of_Some).
    apply list_elem_of_fmap in Hp as ([p' nd] & -> & Hin).
    apply elem_of_map_to_list in Hin. by exists nd.
  - intros [nd Hnd]. exists (dir ++ [c]). split; [|by apply child_of_Some].
    apply list_elem_of_fmap. exists (dir ++ [c], nd). split; [done|].
    by apply elem_of_map_to_list.
Qed.

Lemma NoDup_omap_inj {A B} (f : A → option B) (l : list A) :
  (∀ x y z, f x = Some z → f y = Some z → x = y) →
  NoDup l → NoDup (omap f l).
Proof.
  intros Hinj. induction 1 as [|x l Hx Hl IH]; simpl; [constructor|].
  destruct (f x) as [z|] eqn:Hfx; [|done].
  constructor; [|done].
  intros (y & Hy & Hfy)%list_elem_of_omap.
  by rewrite (Hinj _ _ _ Hfx Hfy) in Hx.
Qed.

Lemma NoDup_children (m : tree) (dir : path) : NoDup (children m dir).
Proof.
  unfold children. apply NoDup_omap_inj; [|apply NoDup_fst_map_to_list].
  intros p q c ->%child_of_Some ->%child_of_Some. done.
Qed.

(** ** Where new entries appear *)






Lemma locate_snoc_inv (n : nat) (m : tree) (cur p loc : path) (c : string) (nd : node) :
  lookup_node m cur = Some Dir →
  locate n m true cur (p ++ [c]) = inr loc →
  lookup_node m loc = Some nd →
  ∃ cp, locate n m true cur p = inr cp ∧ lookup_node m cp = Some Dir.
Proof.
  revert n cur p. refine (locate_induction m _ _ _).
  - intros n cur Hcur _ _. exists cur. by rewrite locate_nil.
  - intros n cur a p IHdir IHlink Hcur. simpl. rewrite !locate_cons.
    destruct (m !! (cur ++ [a])) as [[d| |t]|] eqn:Ha.
    + by destruct p.
    + intros. apply IHdir; try done. by rewrite lookup_node_snoc.
    + destruct n as [|n']; [by destruct p|].
      intros Hloc Hnd.
      assert (locate n' m true [] ((t ++ p) ++ [c]) = inr loc) as Hloc'.
      { rewrite <-(assoc_L (++)). by destruct p. }
      destruct (IHlink t n' eq_refl eq_refl eq_refl Hloc' Hnd) as (cp & Hcp & Hd).
      exists cp. split; [|done]. by destruct p.
    + by destruct p.
Qed.

Lemma locate_nofollow_snoc_inv (n : nat) (m : tree) (cur p loc : path) (c : string) :
  lookup_node m cur = Some Dir →
  locate n m false cur (p ++ [c]) = inr loc →
  ∃ cp, locate n m true cur p = inr cp ∧ lookup_node m cp = Some Dir ∧ loc = cp ++ [c].
Proof.
  revert n cur p. refine (locate_induction m _ _ _).
  - intros n cur Hcur. cbn [app]. rewrite locate_cons, !locate_nil.
    intros Hloc. exists cur. split; [done|]. split; [done|].
    destruct (m !! (cur ++ [c])) as [[d| |t]|]; congruence.
  - intros n cur c0 p IHdir IHlink Hcur. cbn [app]. rewrite !locate_cons.
    destruct (m !! (cur ++ [c0])) as [[d| |t]|] eqn:Hc.
    + by destruct p.
    + intros Hloc. apply (IHdir eq_refl); [|done]. by rewrite lookup_node_snoc.
    + destruct n as [|n']; [by destruct p|].
      intros Hloc.
      assert (locate n' m false [] ((t ++ p) ++ [c]) = inr loc) as Hloc'.
      { rewrite <-(assoc_L (++)). by destruct p. }
      destruct (IHlink t n' eq_refl eq_refl eq_refl Hloc') as (cp & Hcp & Hdir & ->).
      exists cp. split; [|done]. by destruct p.
    + by destruct p.
Qed.

Lemma path_exists_parent (m : tree) (p : path) (c : string) :
  path_exists m (p ++ [c]) = true → path_isdir m p = true.
Proof.
  unfold path_exists, path_isdir, os_stat, stat_with.
  destruct (locate SYMLOOP_MAX m true [] (p ++ [c])) as [e|loc] eqn:Hloc; [done|].
  destruct (lookup_node m loc) as [nd|] eqn:Hnd; [|done]. intros _.
  destruct (locate_snoc_inv SYMLOOP_MAX m [] p loc c nd eq_refl Hloc Hnd) as (cp & -> & ->).
  done.
Qed.

Lemma os_makedirs_snoc (p : path) (c : string) (w : world) :
  os_makedirs (p ++ [c]) w =
  ((if negb (path_exists (fs w) p)
    then except_FileExistsError_pass (os_makedirs p)
    else mret tt) ;;
   os_mkdir (p ++ [c])) w.
Proof.
  unfold os_makedirs. rewrite rev_app_distr. simpl.
  rewrite bind_run. unfold os_path_exists. rewrite gets_run.
  by rewrite rev_involutive.
Qed.





(** ** Directories and their entries *)

Lemma path_isdir_resolves (m : tree) (d : path) :
  path_isdir m d = true ↔ ∃ cd, resolves m d cd.
Proof.
  unfold path_isdir, os_stat, stat_with, resolves. split.
  - destruct (locate SYMLOOP_MAX m true [] d) as [e|cd]; [done|].
    destruct (lookup_node m cd) as [[]|] eqn:Hnd; try done. by exists cd.
  - intros (cd & -> & ->). done.
Qed.

Lemma resolves_weaken (m m' : tree) (d cd : path) :
  m ⊆ m' → resolves m d cd → resolves m' d cd.
Proof.
  intros Hsub [Hloc Hnd]. split.
  - by eapply locate_weaken.
  - by eapply lookup_node_weaken.
Qed.

Lemma resolves_inj (m : tree) (d cd cd' : path) :
  resolves m d cd → resolves m d cd' → cd = cd'.
Proof. intros [H1 _] [H2 _]. congruence. Qed.

(** An entry of a directory that is not a link is found by [stat] and
    [lstat] alike; a link is found by [lstat]. *)
Lemma stat_child (fl : bool) (m : tree) (d cd : path) (c : string) :
  resolves m d cd →
  match m !! (cd ++ [c]) with Some (Symlink _) => fl = false | _ => True end →
  stat_with fl m (d ++ [c]) =
  match m !! (cd ++ [c]) with Some nd => inr nd | None => inl ENOENT end.
Proof.
  intros [Hloc Hnd] Hc. unfold stat_with.
  rewrite (locate_snoc _ _ _ _ _ _ _ Hnd Hc Hloc).
  by rewrite lookup_node_snoc.
Qed.

Lemma os_lstat_child (m : tree) (d cd : path) (c : string) :
  resolves m d cd →
  os_lstat m (d ++ [c]) =
  match m !! (cd ++ [c]) with Some nd => inr nd | None => inl ENOENT end.
Proof. intros H. apply stat_child; [done|]. by destruct (m !! _) as [[]|]. Qed.

Lemma resolves_child (m : tree) (d cd : path) (c : string) :
  resolves m d cd → m !! (cd ++ [c]) = Some Dir → resolves m (d ++ [c]) (cd ++ [c]).
Proof.
  intros [Hloc Hnd] Hc. split.
  - apply locate_snoc; [done| |done]. by rewrite Hc.
  - by rewrite lookup_node_snoc.
Qed.

Lemma listdir_resolves (m : tree) (d cd : path) :
  resolves m d cd → listdir m d = inr (children m cd).
Proof. intros [Hloc Hnd]. unfold listdir. by rewrite Hloc, Hnd. Qed.

Lemma read_file_child (m : tree) (d cd : path) (c data : string) :
  resolves m d cd → m !! (cd ++ [c]) = Some (File data) →
  read_file m (d ++ [c]) = inr data.
Proof.
  intros H Hc. unfold read_file, os_stat.
  rewrite (stat_child true _ _ _ _ H) by (by rewrite Hc). by rewrite Hc.
Qed.

Lemma os_mkdir_child (d cd : path) (c : string) (w : world) :
  resolves (fs w) d cd → fs w !! (cd ++ [c]) = None →
  os_mkdir (d ++ [c]) w = (Return tt, set_fs (<[cd ++ [c] := Dir]> (fs w)) w).
Proof.
  intros [Hloc Hnd] Hc. unfold os_mkdir.
  rewrite (locate_snoc _ _ false _ _ _ _ Hnd) by (done || by rewrite Hc).
  by rewrite lookup_node_snoc, Hc.
Qed.

(** [ensure_directory_exists] on a free name in an existing directory makes
    exactly that directory and reports it. *)
Lemma ensure_directory_exists_child (d cd : path) (c : string) (w : world) :
  resolves (fs w) d cd → fs w !! (cd ++ [c]) = None →
  ensure_directory_exists (d ++ [c]) w =
  (Return tt,
   set_trace (trace w ++
     [LogInfo ("Created directory: " +:+ show_path (d ++ [c]));
      Print (yellow ("Directory created: " +:+ show_path (d ++ [c])))])
     (set_fs (<[cd ++ [c] := Dir]> (fs w)) w)).
Proof.
  intros Hd Hc.
  assert (path_isdir (fs w) (d ++ [c]) = false) as Hno.
  { unfold path_isdir, os_stat. rewrite (stat_child true _ _ _ _ Hd) by (by rewrite Hc).
    by rewrite Hc. }
  assert (path_exists (fs w) d = true) as Hex.
  { apply path_isdir_exists, path_isdir_resolves. by exists cd. }
  unfold ensure_directory_exists, os_path_isdir. rewrite bind_run, gets_run, Hno.
  cbn [negb]. rewrite bind_run, os_makedirs_snoc, Hex. cbn [negb].
  rewrite bind_run, ret_run, (os_mkdir_child _ _ _ _ Hd Hc).
  unfold logging_info, print_yellow, print. rewrite bind_run, !emit_run.
  cbn [trace set_trace set_fs fs atimes environ stdin clock ticks].
  by rewrite <-(assoc_L (++)).
Qed.

(** In a well-formed tree a directory that was just made has no entries. *)
Lemma children_fresh (m : tree) (loc : path) :
  wf_tree m → lookup_node m loc = None → children (<[loc := Dir]> m) loc = [].
Proof.
  intros Hwf Hnone. apply elem_of_nil_inv. intros c [x Hx]%elem_of_children.
  rewrite lookup_insert_ne in Hx by (intros Heq; by apply app_inv_head_nil in Heq || (apply (f_equal length) in Heq; rewrite length_app in Heq; simpl in Heq; lia)).
  rewrite (Hwf loc c) in Hnone; [done|by rewrite Hx].
Qed.

Lemma wf_tree_insert (m : tree) (p : path) (c : string) (nd : node) :
  wf_tree m → lookup_node m p = Some Dir → m !! (p ++ [c]) = None →
  wf_tree (<[p ++ [c] := nd]> m).
Proof.
  intros Hwf Hp Hnone q c' [x Hx].
  assert (m ⊆ <[p ++ [c] := nd]> m) as Hsub by (by apply insert_subseteq).
  destruct (decide (p ++ [c] = q ++ [c'])) as [Heq|Hne].
  - apply app_inj_tail in Heq as [-> ->]. by eapply lookup_node_weaken.
  - rewrite lookup_insert_ne in Hx by done.
    eapply lookup_node_weaken; [done|]. apply (Hwf q c'). by rewrite Hx.
Qed.

Lemma stat_absent_parent (m : tree) (d cd : path) (b c : string) :
  resolves m d cd → m !! (cd ++ [b]) = None →
  path_isdir m ((d ++ [b]) ++ [c]) = false.
Proof.
  intros Hd Hb. apply not_true_is_false. intros Hdir.
  apply path_isdir_exists in Hdir.
  apply (path_exists_parent m (d ++ [b]) c) in Hdir.
  assert (path_isdir m (d ++ [b]) = false) as Hno; [|congruence].
  unfold path_isdir, os_stat.
  rewrite (stat_child true m d cd b Hd) by (by rewrite Hb).
  by rewrite Hb.
Qed.

(** [ensure_directory_exists] two levels below an existing directory, the
    lower name being free and the upper one free or a directory: both are
    there afterwards, and one line is logged and one printed. *)
Lemma ensure_directory_exists_grandchild (d cd : path) (b c : string) (w : world) :
  resolves (fs w) d cd →
  fs w !! (cd ++ [b]) = None ∨ fs w !! (cd ++ [b]) = Some Dir →
  fs w !! ((cd ++ [b]) ++ [c]) = None →
  ensure_directory_exists ((d ++ [b]) ++ [c]) w =
  (Return tt,
   set_trace (trace w ++
     [LogInfo ("Created directory: " +:+ show_path ((d ++ [b]) ++ [c]));
      Print (yellow ("Directory created: " +:+ show_path ((d ++ [b]) ++ [c])))])
     (set_fs (<[(cd ++ [b]) ++ [c] := Dir]> (<[cd ++ [b] := Dir]> (fs w))) w)).
Proof.
  intros Hd [Hb|Hb] Hc.
  - assert (path_isdir (fs w) ((d ++ [b]) ++ [c]) = false) as Hno
      by (by eapply stat_absent_parent).
    assert (path_exists (fs w) (d ++ [b]) = false) as Hnb.
    { unfold path_exists, os_stat.
      rewrite (stat_child true _ _ _ _ Hd) by (by rewrite Hb). by rewrite Hb. }
    assert (path_exists (fs w) d = true) as Hex.
    { apply path_isdir_exists, path_isdir_resolves. by exists cd. }
    unfold ensure_directory_exists, os_path_isdir. rewrite bind_run, gets_run, Hno.
    cbn [negb]. rewrite bind_run, os_makedirs_snoc, Hnb. cbn [negb].
    rewrite bind_run. unfold except_FileExistsError_pass.
    rewrite os_makedirs_snoc, Hex. cbn [negb].
    rewrite bind_run, ret_run, (os_mkdir_child _ _ _ _ Hd Hb).
    assert (resolves (fs (set_fs (<[cd ++ [b] := Dir]> (fs w)) w)) (d ++ [b]) (cd ++ [b]))
      as Hdb.
    { cbn [fs set_fs]. apply resolves_child; [|by rewrite lookup_insert_eq].
      eapply resolves_weaken; [|exact Hd]. by apply insert_subseteq. }
    rewrite (os_mkdir_child _ _ _ _ Hdb).
    + unfold logging_info, print_yellow, print. rewrite bind_run, !emit_run.
      cbn [trace set_trace set_fs fs atimes environ stdin clock ticks].
      by rewrite <-(assoc_L (++)).
    + cbn [fs set_fs]. rewrite lookup_insert_ne; [done|].
      intros Heq. apply (f_equal length) in Heq. rewrite !length_app in Heq.
      simpl in Heq. lia.
  - rewrite (insert_id (fs w) (cd ++ [b]) Dir Hb).
    apply ensure_directory_exists_child; [|done]. by apply resolves_child.
Qed.
(** ** What [fnmatch] matches *)





Lemma digit_char_cases (P : ascii → Prop) (n : nat) :
  P "0"%char → P "1"%char → P "2"%char → P "3"%char → P "4"%char →
  P "5"%char → P "6"%char → P "7"%char → P "8"%char → P "9"%char →
  P (digit_char n).
Proof.
  intros. unfold digit_char.
  assert (n mod 10 < 10) as Hlt by (apply Nat.mod_upper_bound; lia).
  revert Hlt. generalize (n mod 10) as k. intros k Hlt.
  do 10 (destruct k as [|k]; [assumption|]). lia.
Qed.


Lemma magic_char_digit (n : nat) : magic_char (digit_char n) = false.
Proof. by apply digit_char_cases. Qed.


Lemma has_magic_stamp (t : datetime) : has_magic (strftime_stamp t) = false.
Proof.
  unfold has_magic, strftime_stamp, four_digits, two_digits.
  cbv -[digit_char Nat.div magic_char].
  rewrite !magic_char_digit. reflexivity.
Qed.

(** ** What [glob] finds *)

Lemma path_exists_lstat (m : tree) (p : path) :
  path_exists m p = true → ∃ nd, os_lstat m p = inr nd.
Proof.
  assert (∀ n cur rest,
            lookup_node m cur = Some Dir →
            ∀ loc nd, locate n m true cur rest = inr loc → lookup_node m loc = Some nd →
            ∃ loc' nd', locate n m false cur rest = inr loc' ∧ lookup_node m loc' = Some nd')
    as Hgen.
  { refine (locate_induction m _ _ _).
    - intros n cur Hcur loc nd. rewrite !locate_nil. intros [= <-] Hnd. by exists cur, nd.
    - intros n cur c rest IHdir IHlink Hcur loc nd. rewrite !locate_cons.
      destruct (m !! (cur ++ [c])) as [[d| |t]|] eqn:Hc.
      + destruct rest; [|done]. intros [= <-] Hnd. by exists (cur ++ [c]), nd.
      + intros Hloc Hnd. refine (IHdir eq_refl _ loc nd Hloc Hnd).
        by rewrite lookup_node_snoc.
      + destruct n as [|n']; [by destruct rest|].
        destruct rest as [|c' rest].
        * intros _ _. exists (cur ++ [c]), (Symlink t). by rewrite lookup_node_snoc.
        * intros Hloc Hnd. by apply (IHlink t n' eq_refl eq_refl eq_refl loc nd).
      + destruct rest; [|done]. intros [= <-]. rewrite lookup_node_snoc. congruence. }
  unfold path_exists, os_stat, os_lstat, stat_with.
  destruct (locate SYMLOOP_MAX m true [] p) as [e|loc] eqn:Hloc; [done|].
  destruct (lookup_node m loc) as [nd|] eqn:Hnd; [|done]. intros _.
  destruct (Hgen SYMLOOP_MAX [] p eq_refl loc nd Hloc Hnd) as (loc' & nd' & -> & ->).
  by exists nd'.
Qed.

Lemma wf_tree_absent_child (m : tree) (p : path) (c : string) :
  wf_tree m → lookup_node m p = None → m !! (p ++ [c]) = None.
Proof.
  intros Hwf Hp. destruct (m !! (p ++ [c])) as [x|] eqn:Hx; [|done].
  rewrite (Hwf p c) in Hp; [done|by rewrite Hx].
Qed.

Lemma iglob_rev_cons (m : tree) (basename : string) (rdirname : path) (dironly : bool) :
  iglob_rev m (basename :: rdirname) dironly =
  if negb (existsb has_magic (basename :: rdirname)) then
    if path_lexists m (rev (basename :: rdirname)) then [rev (basename :: rdirname)] else []
  else
    dirname ← (if existsb has_magic rdirname then iglob_rev m rdirname true
               else [rev rdirname]);
    os_path_join dirname <$>
      (if has_magic basename then glob1 else glob0) m dirname basename dironly.
Proof. reflexivity. Qed.

Lemma existsb_rev {A} (f : A → bool) (l : list A) : existsb f (rev l) = existsb f l.
Proof.
  induction l as [|x l IH]; [done|]. cbn [rev existsb].
  rewrite existsb_app, IH. cbn [existsb]. by rewrite orb_false_r, orb_comm.
Qed.

Lemma glob1_hip (m : tree) (dirname : path) :
  glob1 m dirname "*.hip" false =
  filter (λ name, hip_name name = true) (glob_listdir m dirname false).
Proof.
  unfold glob1. change (negb (ishidden "*.hip")) with true. cbn match.
  rewrite list_filter_filter. apply list_filter_iff. intros name.
  unfold hip_name. rewrite andb_true_iff, negb_true_iff. tauto.
Qed.

(** When the directory holds no wildcard, the scan lists that directory;
    one that cannot be listed yields nothing. *)
Lemma hip_files_plain (m : tree) (dir : path) :
  existsb has_magic dir = false →
  hip_files m dir =
  os_path_join dir <$> filter (λ name, hip_name name = true) (glob_listdir m dir false).
Proof.
  intros Hplain. unfold hip_files, glob, os_path_join at 1. rewrite rev_unit, iglob_rev_cons.
  cbn [existsb]. change (has_magic "*.hip") with true. cbn [orb negb].
  rewrite existsb_rev, Hplain, rev_involutive. cbn [mbind list_bind].
  by rewrite glob1_hip, app_nil_r.
Qed.

Lemma listdir_inv (m : tree) (d : path) (names : list string) :
  listdir m d = inr names → ∃ cd, resolves m d cd ∧ names = children m cd.
Proof.
  unfold listdir, resolves.
  destruct (locate SYMLOOP_MAX m true [] d) as [e|cd]; [done|].
  destruct (lookup_node m cd) as [[| |]|] eqn:Hcd; try done.
  intros [= <-]. by exists cd.
Qed.

Lemma elem_of_glob_listdir (m : tree) (d : path) (dironly : bool) (name : string) :
  name ∈ glob_listdir m d dironly ↔
  ∃ cd, resolves m d cd ∧ is_Some (m !! (cd ++ [name])) ∧
        (dironly = true → path_isdir m (d ++ [name]) = true).
Proof.
  unfold glob_listdir, os_path_join. split.
  - destruct (listdir m d) as [e|names] eqn:Hls; [by intros ?%elem_of_nil|].
    apply listdir_inv in Hls as (cd & Hcd & ->). intros Hin. exists cd. split; [done|].
    destruct dironly.
    + apply list_elem_of_filter in Hin as [Hdir Hin]. by apply elem_of_children in Hin.
    + by apply elem_of_children in Hin.
  - intros (cd & Hcd & Hin & Hdir). rewrite (listdir_resolves _ _ _ Hcd).
    apply elem_of_children in Hin. destruct dironly; [|done].
    apply list_elem_of_filter. auto.
Qed.

Lemma elem_of_glob1 (m : tree) (d : path) (pattern : string) (dironly : bool) (name : string) :
  name ∈ glob1 m d pattern dironly ↔
  name ∈ glob_listdir m d dironly ∧
  (ishidden pattern = false → ishidden name = false) ∧
  fnmatch name pattern = true.
Proof.
  unfold glob1. rewrite list_elem_of_filter.
  destruct (ishidden pattern); cbn [negb].
  - split; [by intros [? ?]|by intros (? & _ & ?)].
  - rewrite list_elem_of_filter. split; [by intros (? & ? & ?)|].
    intros (? & Hhid & ?). auto.
Qed.





Lemma os_lstat_parent (m : tree) (p : path) (c : string) (nd : node) :
  os_lstat m (p ++ [c]) = inr nd → path_isdir m p = true.
Proof.
  unfold os_lstat, stat_with.
  destruct (locate SYMLOOP_MAX m false [] (p ++ [c])) as [e|loc] eqn:Hloc; [done|].
  intros _. destruct (locate_nofollow_snoc_inv SYMLOOP_MAX m [] p loc c eq_refl Hloc)
    as (cp & Hcp & Hdir & _).
  apply path_isdir_resolves. by exists cp.
Qed.

Lemma glob1_dironly_nil (m : tree) (d : path) (pattern : string) :
  glob1 m d pattern false = [] → glob1 m d pattern true = [].
Proof.
  intros Hnil. apply elem_of_nil_inv. intros n (Hn & Hhid & Hmatch)%elem_of_glob1.
  apply (proj1 (elem_of_nil n)). rewrite <-Hnil. apply elem_of_glob1. split; [|done].
  apply elem_of_glob_listdir in Hn as (cd & Hcd & Hentry & _).
  apply elem_of_glob_listdir. by exists cd.
Qed.

(** The scan of a directory sees its entries only. *)
Lemma glob1_same_entries (m m' : tree) (d cd : path) (pattern : string) :
  resolves m d cd → resolves m' d cd →
  (∀ n, is_Some (m' !! (cd ++ [n])) → is_Some (m !! (cd ++ [n]))) →
  glob1 m d pattern false = [] → glob1 m' d pattern false = [].
Proof.
  intros Hcd Hcd' Hsame Hnil. apply elem_of_nil_inv.
  intros n (Hn & Hhid & Hmatch)%elem_of_glob1.
  apply (proj1 (elem_of_nil n)). rewrite <-Hnil. apply elem_of_glob1. split; [|done].
  apply elem_of_glob_listdir in Hn as (cd0 & Hcd0 & Hentry & _).
  rewrite (resolves_inj _ _ _ _ Hcd0 Hcd') in Hentry.
  apply elem_of_glob_listdir. exists cd. split; [done|]. split; [by apply Hsame|done].
Qed.

(** A pattern in the last component of a path without other wildcards. *)
Lemma iglob_rev_name (m : tree) (parent : path) (name : string) (dironly : bool) :
  existsb has_magic parent = false → has_magic name = true →
  iglob_rev m (name :: rev parent) dironly = os_path_join parent <$> glob1 m parent name dironly.
Proof.
  intros Hplain Hname. rewrite iglob_rev_cons. cbn [existsb]. rewrite Hname. cbn [orb negb].
  rewrite existsb_rev, Hplain, rev_involutive. cbn [mbind list_bind].
  by rewrite app_nil_r.
Qed.

(** When the directory part of a pattern matches nothing, nothing is
    scanned. *)
Lemma iglob_rev_dead (m : tree) (basename : string) (rdirname : path) (dironly : bool) :
  existsb has_magic rdirname = true →
  iglob_rev m rdirname true = [] →
  iglob_rev m (basename :: rdirname) dironly = [].
Proof.
  intros Hmagic Hnil. rewrite iglob_rev_cons. cbn [existsb].
  rewrite Hmagic, orb_true_r, Hnil. reflexivity.
Qed.

(** *** Scanning after directories were added

    [m'] is a well-formed [m] with new directories.  A path that leads, in
    [m'], to an entry that [m] has already, is resolved in [m] in the same
    way ([locate_back]), so what the scan finds in [m'] at such a path it
    finds in [m]. *)
Section GlobOld.

Variables m m' : tree.
Hypothesis Hwf : wf_tree m.
Hypothesis Hadds : adds_dirs m m'.



End GlobOld.



(** In a directory that holds no wildcard: what the scan lists. *)
Lemma hip_files_nil (m : tree) (dir cd : path) :
  existsb has_magic dir = false →
  resolves m dir cd →
  hip_files m dir = [] ↔ ∀ c, is_Some (m !! (cd ++ [c])) → hip_name c = false.
Proof.
  intros Hplain Hcd. rewrite (hip_files_plain _ _ Hplain).
  unfold glob_listdir. rewrite (listdir_resolves _ _ _ Hcd).
  split.
  - intros Hnil%fmap_nil_inv c Hc%elem_of_children.
    destruct (hip_name c) eqn:Hh; [|done].
    by destruct (filter_nil_not_elem_of _ _ c Hnil Hh).
  - intros Hall.
    rewrite (elem_of_nil_inv (filter (λ name, hip_name name = true) (children m cd))); [done|].
    intros c [Hh Hc%elem_of_children]%list_elem_of_filter.
    by rewrite (Hall c Hc) in Hh.
Qed.


(** ** Backup and restore *)

Lemma handle_error_run (message : string) (w : world) :
  handle_error message w =
  (Return tt, set_trace (trace w ++ [LogError message; Print (red message)]) w).
Proof.
  unfold handle_error, logging_error, print_red, print.
  rewrite bind_run, !emit_run. cbn [trace set_trace].
  by rewrite <-(assoc_L (++)).
Qed.

Lemma print_red_run (text : string) (w : world) :
  print_red text w = (Return tt, set_trace (trace w ++ [Print (red text)]) w).
Proof. reflexivity. Qed.

(** C6.  When the snapshot path does not exist, [restore_backup] logs and
    prints that no backup was found for the timestamp and returns: the file
    system, and all of the world but the trace, are as before; no
    [RESTORED_] directory is made and nothing is copied. *)
Theorem restore_snapshot_not_found (project_dir : path) (timestamp : string) (w : world) :
  path_exists (fs w) (os_path_join (os_path_join project_dir "BACKUPS") timestamp) = false →
  restore_backup project_dir timestamp w =
  (Return tt,
   set_trace (trace w ++
     [LogError ("No backup found for the specified timestamp: " +:+ timestamp);
      Print (red ("No backup found for the specified timestamp: " +:+ timestamp))]) w).
Proof.
  intros Hno. unfold restore_backup, os_path_exists.
  rewrite bind_run, gets_run, Hno. cbn [negb]. apply handle_error_run.
Qed.


Lemma datetime_now_run (w : world) :
  datetime_now w = (Return (clock w (ticks w)), set_ticks (S (ticks w)) w).
Proof. reflexivity. Qed.

(** The canonical place of a free snapshot directory, the [BACKUPS]
    directory being absent or a plain directory. *)
Lemma snapshot_place (m : tree) (d cd : path) (b c : string) :
  wf_tree m → resolves m d cd →
  os_lstat m (d ++ [b]) = inl ENOENT ∨ os_lstat m (d ++ [b]) = inr Dir →
  os_lstat m ((d ++ [b]) ++ [c]) = inl ENOENT →
  (m !! (cd ++ [b]) = None ∨ m !! (cd ++ [b]) = Some Dir) ∧
  m !! ((cd ++ [b]) ++ [c]) = None.
Proof.
  intros Hwf Hd Hb Hc. rewrite (os_lstat_child m d cd b Hd) in Hb.
  destruct (m !! (cd ++ [b])) as [nd|] eqn:Hnd.
  - destruct Hb as [|[= ->]]; [done|]. split; [by right|].
    rewrite (os_lstat_child m (d ++ [b]) (cd ++ [b]) c) in Hc
      by (by apply resolves_child).
    by destruct (m !! ((cd ++ [b]) ++ [c])).
  - split; [by left|].
    destruct (m !! ((cd ++ [b]) ++ [c])) as [x|] eqn:Hx; [|done].
    assert (lookup_node m (cd ++ [b]) = Some Dir) as Hl
      by (apply (Hwf (cd ++ [b]) c); by rewrite Hx).
    rewrite lookup_node_snoc in Hl. congruence.
Qed.


(** ** Copying files *)

Lemma write_file_child (d cd : path) (c data : string) (w : world) :
  resolves (fs w) d cd → fs w !! (cd ++ [c]) = None →
  write_file (d ++ [c]) data w =
  (Return tt, set_fs (<[cd ++ [c] := File data]> (fs w)) w).
Proof.
  intros [Hloc Hnd] Hc. unfold write_file.
  rewrite (locate_snoc _ _ true _ _ _ _ Hnd) by (done || by rewrite Hc).
  by rewrite lookup_node_snoc, Hc.
Qed.

Lemma realpath_child_absent (m : tree) (d cd : path) (c : string) :
  resolves m d cd → m !! (cd ++ [c]) = None → realpath m (d ++ [c]) = None.
Proof.
  intros [Hloc Hnd] Hc. unfold realpath.
  rewrite (locate_snoc _ _ true _ _ _ _ Hnd) by (done || by rewrite Hc).
  by rewrite lookup_node_snoc, Hc.
Qed.

(** [shutil.copy] of a readable file into a directory where its name is
    free makes the copy there, with the same contents, and changes nothing
    else. *)
Lemma shutil_copy_into (src dst cd : path) (data : string) (w : world) :
  resolves (fs w) dst cd →
  read_file (fs w) src = inr data →
  fs w !! (cd ++ [os_path_basename src]) = None →
  shutil_copy src dst w =
  (Return tt, set_fs (<[cd ++ [os_path_basename src] := File data]> (fs w)) w).
Proof.
  intros Hdst Hsrc Hfree.
  assert (path_isdir (fs w) dst = true) as Hdir
    by (apply path_isdir_resolves; by exists cd).
  unfold shutil_copy, os_path_isdir. rewrite bind_run, gets_run, Hdir.
  unfold shutil_copyfile, os_path_join. rewrite bind_run, gets_run.
  assert (samefile (fs w) src (dst ++ [os_path_basename src]) = false) as ->.
  { unfold samefile. rewrite (realpath_child_absent _ _ _ _ Hdst Hfree).
    by destruct (realpath (fs w) src). }
  rewrite bind_run, Hsrc. unfold lift_os. rewrite ret_run.
  by apply write_file_child.
Qed.

Lemma os_path_basename_join (p : path) (c : string) :
  os_path_basename (os_path_join p c) = c.
Proof. unfold os_path_basename, os_path_join. by rewrite last_snoc. Qed.

(** The loop of [create_backup] and [restore_backup]: the files named [l]
    of the directory [src] are copied into the directory [dst], where these
    names are free. *)
Lemma copy_loop (src dst cs cd : path) (msg : path → string) (content : string → string)
    (l : list string) (w : world) :
  resolves (fs w) src cs → resolves (fs w) dst cd →
  NoDup l →
  (∀ c, c ∈ l → fs w !! (cs ++ [c]) = Some (File (content c))) →
  (∀ c, c ∈ l → fs w !! (cd ++ [c]) = None) →
  ∃ w', for_ (os_path_join src <$> l)
             (λ file, shutil_copy file dst ;; print_green (msg file)) w = (Return tt, w') ∧
        (∀ c, c ∈ l → fs w' !! (cd ++ [c]) = Some (File (content c))) ∧
        (∀ q, (∀ c, c ∈ l → q ≠ cd ++ [c]) → fs w' !! q = fs w !! q) ∧
        stdin w' = stdin w.
Proof.
  revert w. induction l as [|x l IH]; intros w Hsrc Hdst Hnd Hfile Hfree.
  - exists w. split; [done|]. split; [|done]. intros c Hc. by apply elem_of_nil in Hc.
  - apply NoDup_cons in Hnd as [Hx Hnd].
    assert (fs w !! (cd ++ [x]) = None) as Hfx by (apply Hfree; left).
    assert (read_file (fs w) (os_path_join src x) = inr (content x)) as Hread.
    { apply (read_file_child _ _ cs); [done|]. apply Hfile. left. }
    set (w1 := set_trace (trace w ++ [Print (green (msg (os_path_join src x)))])
                 (set_fs (<[cd ++ [x] := File (content x)]> (fs w)) w)).
    assert (fs w ⊆ fs w1) as Hsub by (by apply insert_subseteq).
    destruct (IH w1) as (w' & Hrun & Hcopied & Hother & Hin);
      [by eapply resolves_weaken|by eapply resolves_weaken|done| | |].
    { intros c Hc. cbn [fs w1 set_trace set_fs]. rewrite lookup_insert_ne.
      - apply Hfile. by right.
      - intros [_ ->]%app_inj_tail. done. }
    { intros c Hc. cbn [fs w1 set_trace set_fs]. rewrite lookup_insert_ne.
      - apply Hfree. by right.
      - intros [_ ->]%app_inj_tail. done. }
    exists w'. split; [|split; [|split]].
    + cbn [fmap list_fmap for_]. rewrite bind_run, bind_run.
      pose proof (shutil_copy_into (os_path_join src x) dst cd (content x) w Hdst Hread)
        as Hcp.
      rewrite os_path_basename_join in Hcp. rewrite (Hcp Hfx).
      exact Hrun.
    + intros c [->|Hc]%elem_of_cons; [|by apply Hcopied].
      rewrite Hother.
      * cbn [fs w1 set_trace set_fs]. by rewrite lookup_insert_eq.
      * intros c Hc [_ ->]%app_inj_tail. done.
    + intros q Hq. rewrite Hother.
      * cbn [fs w1 set_trace set_fs]. rewrite lookup_insert_ne; [done|].
        intros <-. by apply (Hq x); [left|].
      * intros c Hc. apply Hq. by right.
    + exact Hin.
Qed.

Lemma subseteq_outside (M M' : tree) (S : path → Prop) :
  (∀ q, ¬ S q → M' !! q = M !! q) → (∀ q, S q → M !! q = None) → M ⊆ M'.
Proof.
  intros Hout Hin. apply map_subseteq_spec. intros q x Hq.
  rewrite Hout; [done|]. intros HS. rewrite (Hin q HS) in Hq. done.
Qed.

(** The last statement of [create_backup] and [restore_backup]: report when
    the scan found nothing, else copy what it found. *)
Lemma copy_or_report (src dst cs cd : path) (msg : path → string) (report : py unit)
    (content : string → string) (l : list string) (w : world) :
  (∀ w0, ∃ t, report w0 = (Return tt, set_trace t w0)) →
  resolves (fs w) src cs → resolves (fs w) dst cd →
  NoDup l →
  (∀ c, c ∈ l → fs w !! (cs ++ [c]) = Some (File (content c))) →
  (∀ c, c ∈ l → fs w !! (cd ++ [c]) = None) →
  ∃ w', (if is_nil (os_path_join src <$> l) then report
         else for_ (os_path_join src <$> l)
                   (λ file, shutil_copy file dst ;; print_green (msg file))) w
        = (Return tt, w') ∧
        (∀ c, c ∈ l → fs w' !! (cd ++ [c]) = Some (File (content c))) ∧
        (∀ q, (∀ c, c ∈ l → q ≠ cd ++ [c]) → fs w' !! q = fs w !! q) ∧
        fs w ⊆ fs w'.
Proof.
  intros Hrep Hsrc Hdst Hnd Hfile Hfree.
  assert (∃ w', (if is_nil (os_path_join src <$> l) then report
                 else for_ (os_path_join src <$> l)
                   (λ file, shutil_copy file dst ;; print_green (msg file))) w
                = (Return tt, w') ∧
          (∀ c, c ∈ l → fs w' !! (cd ++ [c]) = Some (File (content c))) ∧
          (∀ q, (∀ c, c ∈ l → q ≠ cd ++ [c]) → fs w' !! q = fs w !! q))
    as (w' & Hrun & Ha & Hb).
  { destruct l as [|x l].
    - destruct (Hrep w) as [t Ht]. exists (set_trace t w). cbn [fmap list_fmap is_nil].
      split; [exact Ht|]. split; [|done]. intros c Hc. by apply elem_of_nil in Hc.
    - destruct (copy_loop src dst cs cd msg content (x :: l) w Hsrc Hdst Hnd Hfile Hfree)
        as (w' & Hrun & Ha & Hb & _).
      exists w'. split; [exact Hrun|]. by split. }
  exists w'. split; [exact Hrun|]. split; [exact Ha|]. split; [exact Hb|].
  apply (subseteq_outside _ _ (λ q, ∃ c, c ∈ l ∧ q = cd ++ [c])).
  - intros q Hq. apply Hb. intros c Hc ->. apply Hq. by exists c.
  - intros q (c & Hc & ->). by apply Hfree.
Qed.

Lemma hip_files_resolves (m : tree) (d cd : path) :
  existsb has_magic d = false →
  resolves m d cd →
  hip_files m d = os_path_join d <$> filter (λ name, hip_name name = true) (children m cd).
Proof.
  intros Hplain H. rewrite (hip_files_plain _ _ Hplain).
  unfold glob_listdir. by rewrite (listdir_resolves _ _ _ H).
Qed.

Lemma elem_of_hip_children (m : tree) (cd : path) (c : string) :
  c ∈ filter (λ name, hip_name name = true) (children m cd) ↔
  hip_name c = true ∧ is_Some (m !! (cd ++ [c])).
Proof. by rewrite list_elem_of_filter, elem_of_children. Qed.

Lemma NoDup_hip_children (m : tree) (cd : path) :
  NoDup (filter (λ name, hip_name name = true) (children m cd)).
Proof. apply NoDup_filter, NoDup_children. Qed.

Lemma snoc_ne_shorter {A} (p : list A) (x : A) : p ++ [x] ≠ p.
Proof.
  intros H. apply (f_equal length) in H. rewrite length_app in H. simpl in H. lia.
Qed.

Lemma snoc2_ne_shorter {A} (p : list A) (x y : A) : (p ++ [x]) ++ [y] ≠ p.
Proof.
  intros H. apply (f_equal length) in H. rewrite !length_app in H. simpl in H. lia.
Qed.

Lemma snoc3_ne_snoc {A} (p : list A) (x y z a : A) : ((p ++ [x]) ++ [y]) ++ [z] ≠ p ++ [a].
Proof.
  intros H. apply (f_equal length) in H. rewrite !length_app in H. simpl in H. lia.
Qed.

Lemma restored_ne_backups (timestamp : string) : "RESTORED_" +:+ timestamp ≠ "BACKUPS".
Proof. discriminate. Qed.

Ltac len_ne :=
  let H := fresh in
  intros H;
  repeat match goal with x := _ |- _ => progress unfold x in H end;
  apply (f_equal length) in H; rewrite ?length_app in H; simpl in H; lia.

(** X9.  Round trip, for a project path that holds no wildcard character.
    In a well-formed tree, for a project directory whose path has none of
    the characters that [glob] reads as a pattern, whose entries matched by
    [*.hip] are regular files, with no snapshot of the current timestamp
    ([BACKUPS] absent or a plain directory) and the [RESTORED_] name free:
    [create_backup] returns, [restore_backup] with the timestamp of that
    backup returns, the [RESTORED_<timestamp>] directory is a directory of
    the project, and it holds, under the same name, a file with the same
    contents as every [.hip] file of the project; the originals are
    unchanged. *)
Theorem backup_restore_round_trip (project_dir : path) (w : world) :
  let timestamp := strftime_stamp (clock w (ticks w)) in
  let backups := os_path_join project_dir "BACKUPS" in
  let backup_dir := os_path_join backups timestamp in
  let restore_dir := os_path_join project_dir ("RESTORED_" +:+ timestamp) in
  wf_tree (fs w) →
  existsb has_magic project_dir = false →
  path_isdir (fs w) project_dir = true →
  (∀ c nd, hip_name c = true →
     os_lstat (fs w) (os_path_join project_dir c) = inr nd → ∃ data, nd = File data) →
  os_lstat (fs w) backups = inl ENOENT ∨ os_lstat (fs w) backups = inr Dir →
  os_lstat (fs w) backup_dir = inl ENOENT →
  os_lstat (fs w) restore_dir = inl ENOENT →
  ∃ w1 w2,
    create_backup project_dir None w = (Return tt, w1) ∧
    restore_backup project_dir timestamp w1 = (Return tt, w2) ∧
    path_isdir (fs w2) restore_dir = true ∧
    ∀ c data, hip_name c = true →
      os_lstat (fs w) (os_path_join project_dir c) = inr (File data) →
      read_file (fs w2) (os_path_join restore_dir c) = inr data ∧
      read_file (fs w2) (os_path_join project_dir c) = inr data.
Proof.
  intros timestamp backups backup_dir restore_dir Hwf Hplain Hpd Hfiles Hb Hc Hr.
  assert (existsb has_magic ((project_dir ++ ["BACKUPS"]) ++ [timestamp]) = false) as Hplain'.
  { rewrite !existsb_app, Hplain. cbn [existsb]. unfold timestamp.
    by rewrite has_magic_stamp. }
  unfold backups, backup_dir, restore_dir, os_path_join in *.
  apply path_isdir_resolves in Hpd as [cd Hcd].
  destruct (snapshot_place _ _ _ _ _ Hwf Hcd Hb Hc) as [Hb' Hc'].
  rewrite (os_lstat_child _ _ _ _ Hcd) in Hr.
  set (R := "RESTORED_" +:+ timestamp) in *.
  assert (fs w !! (cd ++ [R]) = None) as Hr' by (by destruct (fs w !! (cd ++ [R]))).
  clear Hr Hb Hc.
  set (m0 := fs w) in *.
  set (content := λ c, match m0 !! (cd ++ [c]) with
                       | Some (File d) => d
                       | _ => EmptyString
                       end).
  set (cb := (cd ++ ["BACKUPS"]) ++ [timestamp]).
  set (m1 := <[cd ++ ["BACKUPS"] := Dir]> m0).
  set (ma := <[cb := Dir]> m1).
  assert (m0 ⊆ m1) as Hsub01.
  { destruct Hb' as [Hb'|Hb']; [by apply insert_subseteq|].
    unfold m1. by rewrite insert_id. }
  assert (m1 !! cb = None) as Hcb1.
  { unfold m1. rewrite lookup_insert_ne; [done|len_ne]. }
  assert (m1 ⊆ ma) as Hsub1a by (by apply insert_subseteq).
  assert (m0 ⊆ ma) as Hsub0a by (by etrans).
  assert (∀ q, q ≠ cd ++ ["BACKUPS"] → q ≠ cb → ma !! q = m0 !! q) as Hma.
  { intros q H1 H2. unfold ma, m1. by rewrite !lookup_insert_ne. }
  assert (resolves ma project_dir cd) as Hcd_a by (by eapply resolves_weaken).
  assert (resolves ma (project_dir ++ ["BACKUPS"]) (cd ++ ["BACKUPS"])) as Hcdb_a.
  { apply resolves_child; [done|]. eapply lookup_weaken; [|exact Hsub1a].
    unfold m1. by rewrite lookup_insert_eq. }
  assert (resolves ma ((project_dir ++ ["BACKUPS"]) ++ [timestamp]) cb) as Hcb_a.
  { apply resolves_child; [done|]. unfold ma. by rewrite lookup_insert_eq. }
  (* the backup *)
  set (la := filter (λ name, hip_name name = true) (children ma cd)).
  assert (∀ c, c ∈ la → ma !! (cd ++ [c]) = Some (File (content c))) as Hla_file.
  { intros c [Hh [x Hx]]%elem_of_hip_children.
    assert (c ≠ "BACKUPS") as Hne by (intros ->; done).
    assert (ma !! (cd ++ [c]) = m0 !! (cd ++ [c])) as Heq
      by (apply Hma; [intros [_ ?]%app_inj_tail; done|len_ne]).
    rewrite Heq in Hx |- *.
    destruct (Hfiles c x Hh) as [data ->].
    { rewrite (os_lstat_child _ _ _ _ Hcd). fold m0. by rewrite Hx. }
    unfold content. by rewrite Hx. }
  assert (∀ c, ma !! (cb ++ [c]) = None) as Hcb_free.
  { intros c. rewrite Hma.
    - apply wf_tree_absent_child; [done|]. unfold cb. by rewrite lookup_node_snoc.
    - len_ne.
    - len_ne. }
  destruct (copy_or_report project_dir ((project_dir ++ ["BACKUPS"]) ++ [timestamp]) cd cb
              (λ file, "Backed up " +:+ show_path file +:+ " to "
                       +:+ show_path ((project_dir ++ ["BACKUPS"]) ++ [timestamp]))
              (print_red "No .hip files found for backup.") content la
              (set_trace (trace w ++
                 [LogInfo ("Created directory: "
                           +:+ show_path ((project_dir ++ ["BACKUPS"]) ++ [timestamp]));
                  Print (yellow ("Directory created: "
                           +:+ show_path ((project_dir ++ ["BACKUPS"]) ++ [timestamp])))])
                 (set_fs ma (set_ticks (S (ticks w)) w))))
    as (w1 & Hrun1 & H1a & H1b & Hsub_a1).
  { intros w0. eexists. apply print_red_run. }
  { exact Hcd_a. }
  { exact Hcb_a. }
  { apply NoDup_hip_children. }
  { exact Hla_file. }
  { intros c _. apply Hcb_free. }
  cbn [fs set_trace set_fs] in H1b, Hsub_a1.
  assert (create_backup project_dir None w = (Return tt, w1)) as Hbackup.
  { unfold create_backup, os_path_join. rewrite bind_run, datetime_now_run.
    fold timestamp. rewrite bind_run.
    rewrite (ensure_directory_exists_grandchild project_dir cd "BACKUPS" timestamp
               (set_ticks (S (ticks w)) w) Hcd Hb' Hc').
    unfold glob_hip. rewrite bind_run, gets_run. cbn [fs set_trace set_fs set_ticks].
    fold m0 m1 cb ma.
    rewrite (hip_files_resolves ma project_dir cd Hplain Hcd_a). fold la.
    exact Hrun1. }
  (* the restore *)
  set (M1 := fs w1) in *.
  assert (m0 ⊆ M1) as Hsub01' by (by etrans).
  assert (M1 !! (cd ++ [R]) = None) as HR1.
  { rewrite H1b.
    - rewrite Hma; [done| |len_ne].
      intros [_ H]%app_inj_tail. by apply restored_ne_backups in H.
    - intros c _. len_ne. }
  assert (resolves M1 project_dir cd) as Hcd_1
    by exact (resolves_weaken _ _ _ _ Hsub_a1 Hcd_a).
  assert (resolves M1 ((project_dir ++ ["BACKUPS"]) ++ [timestamp]) cb) as Hcb_1
    by exact (resolves_weaken _ _ _ _ Hsub_a1 Hcb_a).
  set (Mc := <[cd ++ [R] := Dir]> M1).
  assert (M1 ⊆ Mc) as Hsub1c by (by apply insert_subseteq).
  assert (resolves Mc ((project_dir ++ ["BACKUPS"]) ++ [timestamp]) cb) as Hcb_c
    by exact (resolves_weaken _ _ _ _ Hsub1c Hcb_1).
  assert (resolves Mc (project_dir ++ [R]) (cd ++ [R])) as Hcr_c.
  { apply resolves_child; [exact (resolves_weaken _ _ _ _ Hsub1c Hcd_1)|].
    unfold Mc. by rewrite lookup_insert_eq. }
  set (lc := filter (λ name, hip_name name = true) (children Mc cb)).
  assert (∀ c, Mc !! (cb ++ [c]) = M1 !! (cb ++ [c])) as HMc_cb.
  { intros c. unfold Mc. rewrite lookup_insert_ne; [done|len_ne]. }
  assert (∀ c, c ∈ lc ↔ c ∈ la) as Hlc.
  { intros c. unfold lc. rewrite elem_of_hip_children, HMc_cb. split.
    - intros [Hh [x Hx]]. destruct (decide (c ∈ la)) as [|Hnin]; [done|].
      rewrite H1b, Hcb_free in Hx; [done|].
      intros c' Hin' [_ ->]%app_inj_tail. done.
    - intros Hin. split.
      + by apply elem_of_hip_children in Hin as [? _].
      + rewrite (H1a c Hin). done. }
  assert (∀ c, Mc !! ((cd ++ [R]) ++ [c]) = None) as Hcr_free.
  { intros c. unfold Mc. rewrite lookup_insert_ne by len_ne.
    rewrite H1b.
    - rewrite Hma.
      + apply wf_tree_absent_child; [done|]. by rewrite lookup_node_snoc.
      + len_ne.
      + unfold cb. intros [H _]%app_inj_tail. apply app_inj_tail in H as [_ H].
        by apply restored_ne_backups in H.
    - intros c' _. len_ne. }
  destruct (copy_or_report ((project_dir ++ ["BACKUPS"]) ++ [timestamp]) (project_dir ++ [R])
              cb (cd ++ [R])
              (λ file, "Restored " +:+ show_path file +:+ " to "
                       +:+ show_path (project_dir ++ [R]))
              (handle_error "No .hip files found in the backup.") content lc
              (set_trace (trace w1 ++
                 [LogInfo ("Created directory: " +:+ show_path (project_dir ++ [R]));
                  Print (yellow ("Directory created: " +:+ show_path (project_dir ++ [R])))])
                 (set_fs Mc w1)))
    as (w2 & Hrun2 & H2a & H2b & Hsub_c2).
  { intros w0. eexists. apply handle_error_run. }
  { exact Hcb_c. }
  { exact Hcr_c. }
  { apply NoDup_hip_children. }
  { intros c Hin%Hlc. rewrite HMc_cb. by apply H1a. }
  { intros c _. apply Hcr_free. }
  cbn [fs set_trace set_fs] in H2a, H2b, Hsub_c2.
  assert (restore_backup project_dir timestamp w1 = (Return tt, w2)) as Hrestore.
  { unfold restore_backup, os_path_exists, os_path_join. rewrite bind_run, gets_run.
    assert (path_exists (fs w1) ((project_dir ++ ["BACKUPS"]) ++ [timestamp]) = true) as ->.
    { apply path_isdir_exists, path_isdir_resolves. by exists cb. }
    cbn [negb]. fold R. rewrite bind_run.
    rewrite (ensure_directory_exists_child project_dir cd R w1 Hcd_1 HR1).
    unfold glob_hip. rewrite bind_run, gets_run. cbn [fs set_trace set_fs].
    fold M1 Mc.
    rewrite (hip_files_resolves Mc _ cb Hplain' Hcb_c). fold lc.
    exact Hrun2. }
  exists w1, w2. split; [exact Hbackup|]. split; [exact Hrestore|].
  assert (resolves (fs w2) (project_dir ++ [R]) (cd ++ [R])) as Hcr_2
    by exact (resolves_weaken _ _ _ _ Hsub_c2 Hcr_c).
  split.
  { apply path_isdir_resolves. by exists (cd ++ [R]). }
  intros c data Hh Hlst.
  rewrite (os_lstat_child _ _ _ _ Hcd) in Hlst. fold m0 in Hlst.
  destruct (m0 !! (cd ++ [c])) as [x|] eqn:Hx; [|done]. injection Hlst as ->.
  assert (content c = data) as Hcontent by (unfold content; by rewrite Hx).
  assert (c ∈ la) as Hin.
  { apply elem_of_hip_children. split; [done|].
    exists (File data). by eapply lookup_weaken. }
  split.
  - apply (read_file_child _ _ (cd ++ [R])); [done|].
    rewrite H2a by (by apply Hlc). by rewrite Hcontent.
  - apply (read_file_weaken m0); [by repeat (etrans; [eassumption|])|].
    by apply (read_file_child _ _ cd).
Qed.

(** C3, where the code fails it.  [glob] reads the whole of its argument as
    a pattern, the project directory included.  In a well-formed tree, let
    the project be a directory entry [name] of [parent], where [name] holds
    a wildcard character and, read as a pattern, matches no entry of
    [parent] (as [shot[1]] does not match itself), the rest being as for a
    round trip: no snapshot of the current timestamp and the [RESTORED_]
    name free.  Then, whatever [.hip] files the project holds,
    [create_backup] returns having reported that no [.hip] files were
    found, the snapshot being empty, and [restore_backup] with that
    timestamp returns having reported that no [.hip] files were found in the
    backup, the [RESTORED_] directory being made and empty: no file was
    copied. *)
Theorem backup_restore_wildcard_name (parent : path) (name : string) (w : world) :
  let project_dir := os_path_join parent name in
  let timestamp := strftime_stamp (clock w (ticks w)) in
  let backups := os_path_join project_dir "BACKUPS" in
  let backup_dir := os_path_join backups timestamp in
  let restore_dir := os_path_join project_dir ("RESTORED_" +:+ timestamp) in
  wf_tree (fs w) →
  existsb has_magic parent = false →
  has_magic name = true →
  os_lstat (fs w) project_dir = inr Dir →
  glob (fs w) project_dir = [] →
  os_lstat (fs w) backups = inl ENOENT ∨ os_lstat (fs w) backups = inr Dir →
  os_lstat (fs w) backup_dir = inl ENOENT →
  os_lstat (fs w) restore_dir = inl ENOENT →
  ∃ w1 w2,
    create_backup project_dir None w = (Return tt, w1) ∧
    restore_backup project_dir timestamp w1 = (Return tt, w2) ∧
    (∃ t, trace w1 = t ++ [Print (red "No .hip files found for backup.")]) ∧
    (∃ t, trace w2 = t ++ [LogError "No .hip files found in the backup.";
                           Print (red "No .hip files found in the backup.")]) ∧
    listdir (fs w1) backup_dir = inr [] ∧
    path_isdir (fs w2) restore_dir = true ∧
    listdir (fs w2) restore_dir = inr [].
Proof.
  intros project_dir timestamp backups backup_dir restore_dir
    Hwf Hplain Hname Hlst Hglob Hb Hc Hr.
  subst project_dir backups backup_dir restore_dir. unfold os_path_join in *.
  pose proof (os_lstat_parent _ _ _ _ Hlst) as [ploc Hploc]%path_isdir_resolves.
  rewrite (os_lstat_child _ _ _ _ Hploc) in Hlst.
  destruct (fs w !! (ploc ++ [name])) as [nd|] eqn:Hentry; [|done]. injection Hlst as ->.
  pose proof (resolves_child _ _ _ _ Hploc Hentry) as Hcd.
  set (cd := ploc ++ [name]) in *.
  destruct (snapshot_place _ _ _ _ _ Hwf Hcd Hb Hc) as [Hb' Hc'].
  rewrite (os_lstat_child _ _ _ _ Hcd) in Hr.
  set (R := "RESTORED_" +:+ timestamp) in *.
  assert (fs w !! (cd ++ [R]) = None) as Hr' by (by destruct (fs w !! (cd ++ [R]))).
  clear Hr Hb Hc.
  set (m0 := fs w) in *.
  set (cb := (cd ++ ["BACKUPS"]) ++ [timestamp]).
  set (m1 := <[cd ++ ["BACKUPS"] := Dir]> m0).
  set (ma := <[cb := Dir]> m1).
  set (Mc := <[cd ++ [R] := Dir]> ma).
  assert (m0 ⊆ m1) as Hsub01.
  { destruct Hb' as [Hb'|Hb']; [by apply insert_subseteq|].
    unfold m1. by rewrite insert_id. }
  assert (wf_tree m1) as Hwf1.
  { destruct Hb' as [Hb'|Hb']; [|unfold m1; by rewrite insert_id].
    apply wf_tree_insert; [done|by destruct Hcd|done]. }
  assert (m1 !! (cd ++ ["BACKUPS"]) = Some Dir) as Hb1 by (unfold m1; by rewrite lookup_insert_eq).
  assert (m1 !! cb = None) as Hcb1.
  { unfold m1. rewrite lookup_insert_ne; [done|len_ne]. }
  assert (wf_tree ma) as Hwfa.
  { apply wf_tree_insert; [done| |done]. by rewrite lookup_node_snoc. }
  assert (m1 ⊆ ma) as Hsub1a by (by apply insert_subseteq).
  assert (ma !! (cd ++ [R]) = None) as HRa.
  { unfold ma, m1. rewrite !lookup_insert_ne; [done| |len_ne].
    intros [_ H]%app_inj_tail. symmetry in H. by apply restored_ne_backups in H. }
  assert (ma ⊆ Mc) as Hsubac by (by apply insert_subseteq).
  assert (m0 ⊆ ma) as Hsub0a by (by etrans).
  assert (resolves ma (parent ++ [name]) cd) as Hcd_a by (by eapply resolves_weaken).
  assert (resolves ma ((parent ++ [name]) ++ ["BACKUPS"]) (cd ++ ["BACKUPS"])) as Hcdb_a.
  { apply resolves_child; [done|]. by eapply lookup_weaken. }
  assert (resolves ma (((parent ++ [name]) ++ ["BACKUPS"]) ++ [timestamp]) cb) as Hcb_a.
  { apply resolves_child; [done|]. unfold ma. by rewrite lookup_insert_eq. }
  (* the project's own name matches nothing, before and after *)
  assert (∀ M, m0 ⊆ M →
            (∀ n, is_Some (M !! (ploc ++ [n])) → is_Some (m0 !! (ploc ++ [n]))) →
            iglob_rev M (name :: rev parent) true = []) as Hdead.
  { intros M Hsub Hsame. rewrite iglob_rev_name by done.
    rewrite (glob1_dironly_nil M parent name); [done|].
    apply (glob1_same_entries m0 M parent ploc); [done|by eapply resolves_weaken|done|].
    revert Hglob. unfold glob. rewrite rev_unit, iglob_rev_name by done.
    apply fmap_nil_inv. }
  assert (∀ n, is_Some (ma !! (ploc ++ [n])) → is_Some (m0 !! (ploc ++ [n]))) as Hsame_a.
  { intros n. unfold ma, m1, cb, cd. rewrite !lookup_insert_ne; [done|len_ne..]. }
  assert (∀ n, is_Some (Mc !! (ploc ++ [n])) → is_Some (m0 !! (ploc ++ [n]))) as Hsame_c.
  { intros n. unfold Mc. rewrite lookup_insert_ne; [apply Hsame_a|unfold cd; len_ne]. }
  assert (existsb has_magic (name :: rev parent) = true) as Hmagic
    by (cbn [existsb]; by rewrite Hname).
  assert (hip_files ma (parent ++ [name]) = []) as Hhip_a.
  { unfold hip_files, glob, os_path_join. rewrite rev_unit, rev_unit.
    apply iglob_rev_dead; [done|]. by apply Hdead. }
  assert (hip_files Mc (((parent ++ [name]) ++ ["BACKUPS"]) ++ [timestamp]) = []) as Hhip_c.
  { unfold hip_files, glob, os_path_join. rewrite !rev_unit.
    apply iglob_rev_dead; [cbn [existsb]; rewrite Hname; cbn [orb]; by rewrite !orb_true_r|].
    apply iglob_rev_dead; [cbn [existsb]; rewrite Hname; cbn [orb]; by rewrite !orb_true_r|].
    apply iglob_rev_dead; [done|]. apply Hdead; [by etrans|done]. }
  (* the backup *)
  eexists _, _. split.
  { unfold create_backup, os_path_join. rewrite bind_run, datetime_now_run.
    fold timestamp. rewrite bind_run.
    rewrite (ensure_directory_exists_grandchild (parent ++ [name]) cd "BACKUPS" timestamp
               (set_ticks (S (ticks w)) w) Hcd Hb' Hc').
    unfold glob_hip. rewrite bind_run, gets_run. cbn [fs set_trace set_fs set_ticks].
    fold m0 m1 cb ma. rewrite Hhip_a. cbn [is_nil]. apply print_red_run. }
  cbn [fs set_trace set_fs set_ticks trace]. fold m0 m1 cb ma.
  split.
  { unfold restore_backup, os_path_exists, os_path_join. rewrite bind_run, gets_run.
    cbn [fs set_trace set_fs set_ticks].
    assert (path_exists ma (((parent ++ [name]) ++ ["BACKUPS"]) ++ [timestamp]) = true) as ->.
    { apply path_isdir_exists, path_isdir_resolves. by exists cb. }
    cbn [negb]. fold R. rewrite bind_run.
    rewrite (ensure_directory_exists_child (parent ++ [name]) cd R) by done.
    unfold glob_hip. rewrite bind_run, gets_run. cbn [fs set_trace set_fs set_ticks].
    fold Mc. rewrite Hhip_c. cbn [is_nil]. apply handle_error_run. }
  cbn [fs set_trace set_fs set_ticks trace]. fold Mc.
  split; [by eexists|]. split; [by eexists|].
  assert (resolves Mc ((parent ++ [name]) ++ [R]) (cd ++ [R])) as Hcr_c.
  { apply resolves_child; [by eapply resolves_weaken|].
    unfold Mc. by rewrite lookup_insert_eq. }
  split; [|split].
  - rewrite (listdir_resolves _ _ _ Hcb_a).
    unfold ma. f_equal. apply children_fresh; [done|]. unfold cb at 1.
    by rewrite lookup_node_snoc.
  - apply path_isdir_resolves. by exists (cd ++ [R]).
  - rewrite (listdir_resolves _ _ _ Hcr_c).
    unfold Mc. f_equal. apply children_fresh; [done|]. by rewrite lookup_node_snoc.
Qed.

(** ** Listing the projects *)

Section Sorting.
Context {A : Type}.

Lemma insert_desc_perm (x : Z * A) (l : list (Z * A)) : insert_desc x l ≡ₚ x :: l.
Proof.
  induction l as [|y l IH]; simpl; [done|].
  destruct (x.1 <? y.1)%Z; [|done]. rewrite IH. apply Permutation_swap.
Qed.

Lemma sort_desc_perm (l : list (Z * A)) : foldr insert_desc [] l ≡ₚ l.
Proof.
  induction l as [|x l IH]; simpl; [done|]. by rewrite insert_desc_perm, IH.
Qed.

Lemma insert_desc_sorted (x : Z * A) (l : list (Z * A)) :
  StronglySorted key_desc l → StronglySorted key_desc (insert_desc x l).
Proof.
  induction 1 as [|y l Hl IH Hy]; simpl; [by repeat constructor|].
  destruct (x.1 <? y.1)%Z eqn:Hlt.
  - constructor; [done|]. rewrite insert_desc_perm. constructor; [|done].
    unfold key_desc. lia.
  - constructor; [by constructor|]. constructor; [unfold key_desc; lia|].
    eapply Forall_impl; [exact Hy|]. unfold key_desc. intros z. lia.
Qed.

Lemma sort_desc_sorted (l : list (Z * A)) : StronglySorted key_desc (foldr insert_desc [] l).
Proof.
  induction l as [|x l IH]; simpl; [constructor|]. by apply insert_desc_sorted.
Qed.

(** The items of the sorted list, for keys computed from the items. *)
Lemma sorted_reverse_spec (key : A → Z) (l : list A) :
  sorted_reverse ((λ x, (key x, x)) <$> l) ≡ₚ l ∧
  StronglySorted (λ x y, (key y ≤ key x)%Z) (sorted_reverse ((λ x, (key x, x)) <$> l)).
Proof.
  unfold sorted_reverse. set (s := foldr insert_desc [] ((λ x, (key x, x)) <$> l)).
  assert (s ≡ₚ (λ x, (key x, x)) <$> l) as Hperm by apply sort_desc_perm.
  split.
  - rewrite Hperm, <-list_fmap_compose. by rewrite list_fmap_id.
  - assert (Forall (λ p, p.1 = key p.2) s) as Hkeys.
    { rewrite Hperm. apply Forall_fmap, Forall_forall. by intros x _. }
    pose proof (sort_desc_sorted ((λ x, (key x, x)) <$> l)) as Hs. fold s in Hs.
    clearbody s. clear Hperm.
    induction Hs as [|p s Hs IH Hp]; simpl; [constructor|].
    apply Forall_cons in Hkeys as [Hp1 Hkeys].
    constructor; [by apply IH|].
    apply Forall_fmap, Forall_forall. intros q Hq.
    rewrite Forall_forall in Hp, Hkeys.
    specialize (Hp q Hq). specialize (Hkeys q Hq). unfold key_desc in Hp.
    simpl. rewrite <-Hp1, <-Hkeys. done.
Qed.

Lemma StronglySorted_strict (key : A → Z) (l : list A) :
  NoDup l →
  (∀ x y, x ∈ l → y ∈ l → key x = key y → x = y) →
  StronglySorted (λ x y, (key y ≤ key x)%Z) l →
  StronglySorted (λ x y, (key y < key x)%Z) l.
Proof.
  intros Hnd Hinj Hs. induction Hs as [|x l Hs IH Hx]; [constructor|].
  apply NoDup_cons in Hnd as [Hxl Hnd].
  constructor.
  - apply IH; [done|]. intros a b Ha Hb. apply Hinj; by right.
  - rewrite Forall_forall in Hx |- *. intros y Hy. specialize (Hx y Hy).
    destruct (decide (key y = key x)) as [Heq|]; [|lia].
    apply Hinj in Heq; [|by right|by left]. by subst.
Qed.

End Sorting.

Lemma realpath_isdir (m : tree) (p : path) :
  path_isdir m p = true → is_Some (realpath m p).
Proof.
  intros [cd [Hloc Hnd]]%path_isdir_resolves. unfold realpath. by rewrite Hloc, Hnd.
Qed.

Lemma os_path_getatime_run (w : world) (name : string) :
  is_Some (realpath (fs w) (os_path_join FILES_DIR name)) →
  os_path_getatime (os_path_join FILES_DIR name) w = (Return (atime_of w name), w).
Proof.
  intros [loc Hloc]. unfold os_path_getatime, atime_of. by rewrite Hloc.
Qed.

Lemma mapM_getatime (l : list string) (w : world) :
  (∀ x, x ∈ l → is_Some (realpath (fs w) (os_path_join FILES_DIR x))) →
  mapM (λ x, k ← os_path_getatime (os_path_join FILES_DIR x); mret (k, x)) l w =
  (Return ((λ x, (atime_of w x, x)) <$> l), w).
Proof.
  induction l as [|x l IH]; intros Hall; [done|].
  cbn [mapM fmap list_fmap]. rewrite bind_run, bind_run.
  rewrite os_path_getatime_run by (apply Hall; left). rewrite ret_run, bind_run.
  change ((fix go (l0 : list string) : py (list (Z * string)) :=
             match l0 with
             | [] => mret []
             | x0 :: l1 => y ← (k ← os_path_getatime (os_path_join FILES_DIR x0); mret (k, x0));
                           k ← go l1; mret (y :: k)
             end) l)
    with (mapM (λ x, k ← os_path_getatime (os_path_join FILES_DIR x); mret (k, x)) l).
  rewrite IH by (intros y Hy; apply Hall; by right). done.
Qed.

(** The rows of the listing only add to the trace. *)
Lemma rows_run (l : list string) (start : nat) (w : world) :
  (∀ x, x ∈ l → is_Some (realpath (fs w) (os_path_join FILES_DIR x))) →
  ∃ t, for_ (enumerate start l) (λ '(idx, project),
         t ← os_path_getatime (os_path_join FILES_DIR project);
         let last_accessed := strftime_atime t in
         let spacing := 40 - String.length project in
         emit (PrintNoNl (ESC +:+ "[92m" +:+ format_02d idx +:+ " - " +:+ project
                          +:+ spaces spacing +:+ ESC +:+ "[0m")) ;;
         print (ESC +:+ "[37m" +:+ last_accessed +:+ ESC +:+ "[0m")) w
       = (Return tt, set_trace (trace w ++ t) w).
Proof.
  revert start w. induction l as [|x l IH]; intros start w Hall.
  - exists []. cbn [enumerate for_]. rewrite ret_run, app_nil_r. by destruct w.
  - cbn [enumerate for_]. rewrite bind_run, bind_run.
    rewrite os_path_getatime_run by (apply Hall; left).
    cbv zeta. rewrite bind_run, emit_run. unfold print. rewrite emit_run.
    edestruct (IH (S start)) as [t Ht]; [|rewrite Ht].
    + intros y Hy. cbn [fs set_trace]. apply Hall. by right.
    + eexists. cbn [trace set_trace]. rewrite <-!(assoc_L (++)). reflexivity.
Qed.

(** What one call of [list_recent_projects] computes, [FILES_DIR] being a
    directory: the projects sorted by access time, the first six unless all
    are asked for; only the trace changes. *)
Lemma list_recent_projects_run_aux (show_all : bool) (w : world) :
  path_isdir (fs w) FILES_DIR = true →
  ∃ t, list_recent_projects show_all w =
       (Return (let sorted := sorted_reverse ((λ x, (atime_of w x, x)) <$> project_names w) in
                if show_all then sorted else take 6 sorted),
        set_trace (trace w ++ t) w).
Proof.
  intros Hdir. pose proof Hdir as [cF HcF]%path_isdir_resolves.
  unfold list_recent_projects, os_path_exists, os_listdir, project_names.
  rewrite bind_run, gets_run, (path_isdir_exists _ _ Hdir). cbn [negb].
  rewrite bind_run, bind_run, gets_run, (listdir_resolves _ _ _ HcF).
  unfold lift_os. rewrite ret_run, bind_run, gets_run.
  set (projects := filter (λ name, path_isdir (fs w) (os_path_join FILES_DIR name) = true)
                     (children (fs w) cF)).
  destruct projects as [|x l] eqn:Hprojects.
  - cbn [is_nil]. unfold print_yellow, print. rewrite bind_run, emit_run, ret_run.
    eexists. f_equal. by destruct show_all.
  - cbn [is_nil]. rewrite <-Hprojects. rewrite bind_run.
    assert (∀ y, y ∈ projects → is_Some (realpath (fs w) (os_path_join FILES_DIR y))) as Hreal.
    { intros y [Hy _]%list_elem_of_filter. by apply realpath_isdir. }
    rewrite (mapM_getatime projects w Hreal).
    set (sorted := sorted_reverse ((λ x, (atime_of w x, x)) <$> projects)).
    assert (sorted ≡ₚ projects) as Hperm by apply sorted_reverse_spec.
    set (shown := if negb show_all then take 6 sorted else sorted).
    assert (∀ y, y ∈ shown → y ∈ projects) as Hshown.
    { intros y Hy. rewrite <-Hperm. unfold shown in Hy.
      destruct show_all; cbn [negb] in Hy; [done|]. by apply (subseteq_take 6 sorted). }
    unfold print_green, print. rewrite bind_run, emit_run, bind_run.
    edestruct (rows_run shown 1) as [t Ht]; [|rewrite Ht].
    + intros y Hy. cbn [fs set_trace]. apply Hreal, Hshown, Hy.
    + rewrite ret_run. eexists. cbn [trace set_trace].
      rewrite <-(assoc_L (++)). f_equal.
      unfold shown. by destruct show_all.
Qed.

Lemma list_recent_projects_run (show_all : bool) (w : world) :
  path_isdir (fs w) FILES_DIR = true →
  ∃ t, list_recent_projects show_all w =
       (Return (candidates show_all w), set_trace (trace w ++ t) w).
Proof. exact (list_recent_projects_run_aux show_all w). Qed.

(** C7.  [FILES_DIR] being a directory whose projects have distinct access
    times: asked for all, [list_recent_projects] returns every project once,
    each one accessed later than those after it; by default it returns the
    first six of that list, so six at most.  Neither call changes more than
    the trace. *)
Theorem list_recent_projects_ordered (w : world) :
  path_isdir (fs w) FILES_DIR = true →
  (∀ x y, x ∈ project_names w → y ∈ project_names w →
          atime_of w x = atime_of w y → x = y) →
  ∃ all recent t_all t_recent,
    list_recent_projects true w = (Return all, set_trace (trace w ++ t_all) w) ∧
    list_recent_projects false w = (Return recent, set_trace (trace w ++ t_recent) w) ∧
    all ≡ₚ project_names w ∧
    StronglySorted (λ x y, (atime_of w y < atime_of w x)%Z) all ∧
    recent = take 6 all ∧
    length recent ≤ 6.
Proof.
  intros Hdir Hdistinct.
  destruct (list_recent_projects_run_aux true w Hdir) as [t_all Hall].
  destruct (list_recent_projects_run_aux false w Hdir) as [t_recent Hrecent].
  cbv zeta in Hall, Hrecent.
  set (all := sorted_reverse ((λ x, (atime_of w x, x)) <$> project_names w)) in *.
  destruct (sorted_reverse_spec (atime_of w) (project_names w)) as [Hperm Hsorted].
  fold all in Hperm, Hsorted.
  assert (NoDup (project_names w)) as Hnd.
  { unfold project_names, listdir.
    destruct (locate SYMLOOP_MAX (fs w) true [] FILES_DIR) as [|loc]; [constructor|].
    destruct (lookup_node (fs w) loc) as [[]|]; try constructor.
    apply NoDup_filter, NoDup_children. }
  exists all, (take 6 all), t_all, t_recent.
  split; [exact Hall|]. split; [exact Hrecent|]. split; [exact Hperm|].
  split; [|split; [done|]].
  - apply StronglySorted_strict; [by rewrite Hperm| |done].
    intros x y Hx Hy. apply Hdistinct; by rewrite <-Hperm.
  - rewrite length_take. lia.
Qed.

(** The candidates depend on the file system and the access times only. *)
Lemma candidates_ext (show_all : bool) (w w' : world) :
  fs w' = fs w → atimes w' = atimes w → candidates show_all w' = candidates show_all w.
Proof.
  destruct w, w'. cbn [fs atimes]. intros -> ->.
  unfold candidates, project_names, atime_of. cbn [fs atimes]. reflexivity.
Qed.

(** ** Standard input is only consumed, and the nesting bounds suffice *)

Lemma good_bind {A B} (c : py A) (f : A → py B) (w : world) :
  good c w →
  (∀ a w1, c w = (Return a, w1) → good (f a) w1) →
  good (c ≫= f) w.
Proof.
  intros Hc Hf r w'. rewrite bind_run.
  destruct (c w) as [[a|e] w1] eqn:Hrun.
  - intros Hrun'. destruct (Hc _ _ Hrun) as [Hlen _].
    destruct (Hf a w1 eq_refl _ _ Hrun') as [Hlen' Hr]. split; [lia|done].
  - intros [= <- <-]. destruct (Hc _ _ Hrun) as [Hlen Hr].
    split; [done|]. intros [= ->]. done.
Qed.

Lemma tame_bind {A B} (c : py A) (f : A → py B) :
  tame c → (∀ a, tame (f a)) → tame (c ≫= f).
Proof. intros Hc Hf w. apply good_bind; [apply Hc|]. intros a w1 _. apply Hf. Qed.

Lemma tame_ret {A} (a : A) : tame (mret a : py A).
Proof. intros w r w' [= <- <-]. split; [lia|done]. Qed.

Lemma tame_raise {A} (e : exn) : e ≠ RecursionError → tame (raise e : py A).
Proof. intros He w r w' [= <- <-]. split; [lia|congruence]. Qed.

Lemma tame_gets {A} (f : world → A) : tame (gets f).
Proof. intros w r w' [= <- <-]. split; [lia|done]. Qed.

Lemma tame_modify (f : world → world) :
  (∀ w, stdin (f w) = stdin w) → tame (modify f).
Proof. intros Hf w r w' [= <- <-]. rewrite Hf. split; [lia|done]. Qed.

Lemma tame_emit (e : event) : tame (emit e).
Proof. by apply tame_modify. Qed.

Lemma tame_lift_os {A} (p : path) (r : errno + A) : tame (lift_os p r).
Proof. destruct r; [by apply tame_raise|apply tame_ret]. Qed.

Lemma tame_for {A} (l : list A) (body : A → py unit) :
  (∀ x, tame (body x)) → tame (for_ l body).
Proof.
  intros Hb. induction l as [|x l IH]; simpl; [apply tame_ret|].
  apply tame_bind; [apply Hb|]. by intros _.
Qed.

Lemma tame_mapM {A B} (f : A → py B) (l : list A) :
  (∀ x, tame (f x)) → tame (mapM f l).
Proof.
  intros Hf. induction l as [|x l IH]; [apply tame_ret|].
  apply tame_bind; [apply Hf|]. intros y.
  apply tame_bind; [apply IH|]. intros k. apply tame_ret.
Qed.

Lemma tame_if {A} (b : bool) (c1 c2 : py A) : tame c1 → tame c2 → tame (if b then c1 else c2).
Proof. by destruct b. Qed.

(** A system call that changes nothing but the file system. *)
Lemma tame_fs_call {A} (c : py A) :
  (∀ w r w', c w = (r, w') → stdin w' = stdin w ∧ r ≠ Raise RecursionError) → tame c.
Proof. intros H w r w' Hrun. destruct (H _ _ _ Hrun) as [-> ?]. split; [lia|done]. Qed.

Ltac tame_call :=
  apply tame_fs_call; intros w r w' H;
  repeat (case_match; simplify_eq); simplify_eq; done.

Lemma tame_os_mkdir (p : path) : tame (os_mkdir p).
Proof. unfold os_mkdir. tame_call. Qed.

Lemma tame_os_symlink (src dst : path) : tame (os_symlink src dst).
Proof. unfold os_symlink. tame_call. Qed.

Lemma tame_write_file (p : path) (data : string) : tame (write_file p data).
Proof. unfold write_file. tame_call. Qed.

Lemma tame_os_path_getatime (p : path) : tame (os_path_getatime p).
Proof. unfold os_path_getatime. tame_call. Qed.

Lemma tame_datetime_now : tame datetime_now.
Proof. unfold datetime_now. tame_call. Qed.

Lemma tame_except_pass (c : py unit) : tame c → tame (except_FileExistsError_pass c).
Proof.
  intros Hc w r w' H. unfold except_FileExistsError_pass in H.
  destruct (c w) as [[[]|e] w1] eqn:Hrun.
  - simplify_eq. exact (Hc _ _ _ Hrun).
  - destruct (Hc _ _ _ Hrun) as [Hlen Hr].
    destruct (is_FileExistsError e); simplify_eq; by split.
Qed.

Lemma tame_makedirs_rev (rname : path) : tame (makedirs_rev rname).
Proof.
  induction rname as [|tail rhead IH]; simpl; [apply tame_os_mkdir|].
  apply tame_bind; [apply tame_gets|]. intros e.
  apply tame_bind; [|intros _; apply tame_os_mkdir].
  apply tame_if; [by apply tame_except_pass|apply tame_ret].
Qed.

Lemma tame_input (prompt : string) : tame (input prompt).
Proof.
  unfold input. apply tame_bind; [apply tame_emit|]. intros _.
  intros w r w'. rewrite bind_run, gets_run.
  destruct (stdin w) as [|line rest] eqn:Hin.
  - intros [= <- <-]. rewrite Hin. split; [done|discriminate].
  - rewrite bind_run. intros [= <- <-]. cbn [stdin set_stdin].
    split; [simpl; lia|discriminate].
Qed.

(** A line that [input] returns was taken off standard input. *)
Lemma input_consumes (prompt line : string) (w w' : world) :
  input prompt w = (Return line, w') → length (stdin w') < length (stdin w).
Proof.
  unfold input. rewrite bind_run, emit_run, bind_run, gets_run. cbn [stdin set_trace].
  destruct (stdin w) as [|l rest]; [done|].
  rewrite bind_run. intros [= <- <-]. cbn [stdin set_stdin]. simpl. lia.
Qed.

Create HintDb tame.
#[local] Hint Resolve tame_ret tame_gets tame_emit tame_lift_os tame_os_mkdir tame_os_symlink
  tame_write_file tame_os_path_getatime tame_datetime_now tame_makedirs_rev tame_input
  tame_except_pass : tame.

Ltac tame_step :=
  match goal with
  | |- ∀ _, _ => intros
  | |- tame (mret _) => apply tame_ret
  | |- tame (_ ≫= _) => apply tame_bind
  | |- tame (for_ _ _) => apply tame_for
  | |- tame (mapM _ _) => apply tame_mapM
  | |- tame (if _ then _ else _) => apply tame_if
  | |- tame (gets _) => apply tame_gets
  | |- tame (emit _) => apply tame_emit
  | |- tame (modify _) => apply tame_modify; reflexivity
  | |- tame (raise _) => apply tame_raise; discriminate
  | |- tame (input _) => apply tame_input
  | |- tame (match ?x with _ => _ end) => destruct x
  | |- tame _ => solve [auto with tame]
  end.

Ltac tame_auto := repeat tame_step.

Lemma tame_print (s : string) : tame (print s).
Proof. apply tame_emit. Qed.

Lemma tame_ensure_directory_exists (d : path) : tame (ensure_directory_exists d).
Proof.
  unfold ensure_directory_exists, os_path_isdir, os_makedirs, logging_info, print_yellow, print.
  tame_auto.
Qed.

Lemma tame_handle_error (msg : string) : tame (handle_error msg).
Proof. unfold handle_error, logging_error, print_red, print. tame_auto. Qed.

#[local] Hint Resolve tame_print tame_ensure_directory_exists tame_handle_error : tame.

Lemma tame_ensure_directories_and_symlinks (name : string) :
  tame (ensure_directories_and_symlinks name).
Proof.
  unfold ensure_directories_and_symlinks, ensure_project_directories, os_path_islink,
    print_green, print_yellow, environ_set.
  tame_auto.
Qed.

Lemma tame_list_recent_projects (show_all : bool) : tame (list_recent_projects show_all).
Proof.
  unfold list_recent_projects, os_path_exists, os_listdir, print_green, print_yellow.
  tame_auto.
Qed.

Lemma tame_shutil_copy (src dst : path) : tame (shutil_copy src dst).
Proof. unfold shutil_copy, shutil_copyfile, os_path_isdir. tame_auto. Qed.

#[local] Hint Resolve tame_shutil_copy tame_ensure_directories_and_symlinks
  tame_list_recent_projects : tame.

Lemma tame_create_backup (project_dir : path) (backup_dir : option path) :
  tame (create_backup project_dir backup_dir).
Proof. unfold create_backup, glob_hip, print_red, print_green. tame_auto. Qed.

Lemma tame_restore_backup (project_dir : path) (timestamp : string) :
  tame (restore_backup project_dir timestamp).
Proof. unfold restore_backup, os_path_exists, glob_hip, print_green. tame_auto. Qed.

Lemma tame_customize_terminal (name version : string) : tame (customize_terminal name version).
Proof. unfold customize_terminal, os_system. tame_auto. Qed.

Lemma tame_launch_xterm_with_env (name version : string) :
  tame (launch_xterm_with_env name version).
Proof. unfold launch_xterm_with_env, os_system, print_green. tame_auto. Qed.

#[local] Hint Resolve tame_create_backup tame_restore_backup tame_customize_terminal
  tame_launch_xterm_with_env : tame.

(** ** Selecting a project *)

Lemma tame_int (s : string) : tame (int s).
Proof.
  unfold int. destruct (decimal_value 0 s); [|by apply tame_raise].
  destruct (_ <? _)%Z; [by apply tame_raise|apply tame_ret].
Qed.

#[local] Hint Resolve tame_int : tame.

Lemma good_resolve_choice (retry : py string) (projects : list string) (choice : string)
    (w : world) :
  (∀ w1, length (stdin w1) < length (stdin w) → good retry w1) →
  (∀ w1, String.eqb choice "0" = false → length (stdin w1) ≤ length (stdin w) → good retry w1) →
  good (resolve_choice retry projects choice) w.
Proof.
  intros Hretry Hretry'. unfold resolve_choice.
  destruct (String.eqb choice "0") eqn:Hzero.
  - apply good_bind; [apply tame_input|]. intros line w1 Hin%input_consumes.
    destruct (negb _).
    + assert (tame (ensure_directories_and_symlinks (str_strip line) ;;
                    print_green ("Created new project: " +:+ str_strip line) ;;
                    environ_set "CURRENT_PROJECT" (str_strip line) ;;
                    print_green ("Current project set to: " +:+ str_strip line) ;;
                    mret (str_strip line))) as Ht
        by (unfold print_green, environ_set; tame_auto).
      apply Ht.
    + apply good_bind; [apply tame_handle_error|]. intros [] w2 Hrun.
      apply Hretry. destruct (tame_handle_error _ _ _ _ Hrun) as [Hlen _]. lia.
  - apply good_bind.
    { assert (tame (if str_isdigit choice
                    then n ← int choice;
                         mret ((1 <=? n)%Z && (n <=? Z.of_nat (length projects))%Z)
                    else mret false)) as Ht by tame_auto.
      apply Ht. }
    intros in_range w1 Hrun1.
    assert (length (stdin w1) ≤ length (stdin w)) as Hlen1.
    { revert Hrun1. destruct (str_isdigit choice).
      - intros Hrun1.
        assert (tame (n ← int choice;
                      mret ((1 <=? n)%Z && (n <=? Z.of_nat (length projects))%Z))) as Ht
          by tame_auto.
        by destruct (Ht _ _ _ Hrun1).
      - by intros [= <- <-]. }
    destruct in_range.
    + assert (tame (n ← int choice;
                    match projects !! Z.to_nat (n - 1) with
                    | Some project_name =>
                      print_green ("Selected project: " +:+ project_name) ;;
                      environ_set "CURRENT_PROJECT" project_name ;;
                      print_green ("Current project set to: " +:+ project_name) ;;
                      mret project_name
                    | None => raise IndexError
                    end)) as Ht
        by (unfold print_green, environ_set; tame_auto).
      apply Ht.
    + apply good_bind; [apply tame_handle_error|]. intros [] w2 Hrun.
      apply Hretry'; [done|]. destruct (tame_handle_error _ _ _ _ Hrun) as [Hlen _]. lia.
Qed.

Lemma good_select_project_body (retry : py string) (w : world) :
  (∀ w1, length (stdin w1) < length (stdin w) → good retry w1) →
  good (select_project_body retry) w.
Proof.
  intros Hretry. unfold select_project_body.
  apply good_bind; [apply tame_list_recent_projects|]. intros projects w1 Hrun1.
  destruct (tame_list_recent_projects _ _ _ _ Hrun1) as [Hlen1 _].
  apply good_bind; [apply tame_input|]. intros line w2 Hin%input_consumes.
  apply good_bind.
  { assert (tame (if String.eqb (str_lower (str_strip line)) "a"
                  then projects0 ← list_recent_projects true;
                       choice ← input "Select project number or '0' to create new: ";
                       mret (projects0, str_lower (str_strip choice))
                  else mret (projects, str_lower (str_strip line)))) as Ht by tame_auto.
    apply Ht. }
  intros [projects' choice] w3 Hrun3.
  assert (length (stdin w3) ≤ length (stdin w2)) as Hlen3.
  { assert (tame (if String.eqb (str_lower (str_strip line)) "a"
                  then projects0 ← list_recent_projects true;
                       choice ← input "Select project number or '0' to create new: ";
                       mret (projects0, str_lower (str_strip choice))
                  else mret (projects, str_lower (str_strip line)))) as Ht by tame_auto.
    by destruct (Ht _ _ _ Hrun3). }
  apply good_resolve_choice; intros w4 **; apply Hretry; lia.
Qed.

(** With a depth above the number of lines waiting, [select_project_rec]
    never runs out of depth. *)
Lemma good_select_project_rec (depth : nat) (w : world) :
  length (stdin w) < depth → good (select_project_rec depth) w.
Proof.
  revert w. induction depth as [|depth IH]; intros w Hlt; [lia|].
  cbn [select_project_rec]. apply good_select_project_body.
  intros w1 Hlt1. apply IH. lia.
Qed.

Lemma tame_select_project : tame select_project.
Proof. intros w. unfold select_project. apply good_select_project_rec. lia. Qed.

Lemma input_run (prompt line : string) (rest : list string) (w : world) :
  stdin w = line :: rest →
  input prompt w = (Return line, set_stdin rest (set_trace (trace w ++ [Prompt prompt]) w)).
Proof.
  intros Hin. unfold input. rewrite bind_run, emit_run, bind_run, gets_run.
  cbn [stdin set_trace]. rewrite Hin. reflexivity.
Qed.

Lemma input_eof (prompt : string) (w : world) :
  stdin w = [] →
  input prompt w = (Raise EOFError, set_trace (trace w ++ [Prompt prompt]) w).
Proof.
  intros Hin. unfold input. rewrite bind_run, emit_run, bind_run, gets_run.
  cbn [stdin set_trace]. rewrite Hin. reflexivity.
Qed.

(** The world after [select_project] has read its first answer. *)
Lemma select_project_body_direct (retry : py string) (w : world)
    (line : string) (rest : list string) :
  path_isdir (fs w) FILES_DIR = true →
  stdin w = line :: rest →
  String.eqb (str_lower (str_strip line)) "a" = false →
  ∃ t, select_project_body retry w =
       resolve_choice retry (candidates false w) (str_lower (str_strip line))
         (set_stdin rest (set_trace (trace w ++ t) w)).
Proof.
  intros Hdir Hin Ha. destruct (list_recent_projects_run false w Hdir) as [t Hrun].
  exists (t ++ [Prompt "Press 'a' to show all projects, select project number, or '0' to create new: "]).
  unfold select_project_body. rewrite bind_run, Hrun, bind_run.
  rewrite (input_run _ line rest) by exact Hin.
  cbv zeta. rewrite Ha, bind_run, ret_run.
  cbn [trace set_trace]. by rewrite (assoc_L (++)).
Qed.

(** The same after the answer [a] and a second answer. *)
Lemma select_project_body_all (retry : py string) (w : world)
    (line line2 : string) (rest : list string) :
  path_isdir (fs w) FILES_DIR = true →
  stdin w = line :: line2 :: rest →
  String.eqb (str_lower (str_strip line)) "a" = true →
  ∃ t, select_project_body retry w =
       resolve_choice retry (candidates true w) (str_lower (str_strip line2))
         (set_stdin rest (set_trace (trace w ++ t) w)).
Proof.
  intros Hdir Hin Ha. destruct (list_recent_projects_run false w Hdir) as [t Hrun].
  set (w1 := set_stdin (line2 :: rest)
               (set_trace ((trace w ++ t) ++
                  [Prompt "Press 'a' to show all projects, select project number, or '0' to create new: "]) w)).
  destruct (list_recent_projects_run true w1 Hdir) as [t2 Hrun2].
  exists ((t ++ [Prompt "Press 'a' to show all projects, select project number, or '0' to create new: "])
          ++ t2 ++ [Prompt "Select project number or '0' to create new: "]).
  unfold select_project_body. rewrite bind_run, Hrun, bind_run.
  rewrite (input_run _ line (line2 :: rest)) by exact Hin.
  cbv zeta. rewrite Ha, bind_run, bind_run.
  change (set_stdin (line2 :: rest) _) with w1.
  rewrite Hrun2, bind_run.
  rewrite (input_run _ line2 rest) by reflexivity. rewrite ret_run.
  rewrite (candidates_ext true w1 w) by reflexivity.
  f_equal. cbn [trace set_trace w1 set_stdin].
  rewrite !(assoc_L (++)). reflexivity.
Qed.

Lemma finish_run (name : string) (msg : string) (w : world) :
  (print_green msg ;;
   environ_set "CURRENT_PROJECT" name ;;
   print_green ("Current project set to: " +:+ name) ;;
   mret name) w =
  (Return name,
   set_trace (trace w ++ [Print (green msg); Print (green ("Current project set to: " +:+ name))])
     (set_environ (<["CURRENT_PROJECT" := name]> (environ w)) w)).
Proof.
  unfold print_green, print, environ_set, modify.
  rewrite bind_run, emit_run, bind_run, bind_run, emit_run, ret_run.
  cbn [trace set_trace set_environ]. rewrite <-(assoc_L (++)). reflexivity.
Qed.

Lemma str_isdigit_not_zero_literal (choice : string) (n : Z) :
  decimal_value 0 choice = Some n → (1 ≤ n)%Z → String.eqb choice "0" = false.
Proof.
  intros Hn Hpos. destruct (String.eqb_spec choice "0") as [->|]; [|done].
  vm_compute in Hn. simplify_eq. lia.
Qed.

Lemma int_run (s : string) (n : Z) (w : world) :
  decimal_value 0 s = Some n →
  (Z.of_nat (String.length s) ≤ int_max_str_digits)%Z →
  int s w = (Return n, w).
Proof.
  intros H Hlen. unfold int. rewrite H.
  by rewrite (proj2 (Z.ltb_ge _ _) Hlen).
Qed.

(** A literal of more digits than the interpreter converts. *)
Lemma int_too_long (s : string) (w : world) :
  (int_max_str_digits < Z.of_nat (String.length s))%Z →
  int s w = (Raise (ValueError s), w).
Proof.
  intros Hlen. unfold int. destruct (decimal_value 0 s); [|done].
  by rewrite (proj2 (Z.ltb_lt _ _) Hlen).
Qed.

(** A number within the list selects the candidate at that place, counted
    from one, and records it as the current project. *)
Lemma resolve_choice_index (retry : py string) (projects : list string) (choice : string)
    (n : Z) (w : world) :
  str_isdigit choice = true →
  decimal_value 0 choice = Some n →
  (Z.of_nat (String.length choice) ≤ int_max_str_digits)%Z →
  (1 ≤ n ≤ Z.of_nat (length projects))%Z →
  ∃ name, projects !! Z.to_nat (n - 1) = Some name ∧
    resolve_choice retry projects choice w =
    (Return name,
     set_trace (trace w ++ [Print (green ("Selected project: " +:+ name));
                            Print (green ("Current project set to: " +:+ name))])
       (set_environ (<["CURRENT_PROJECT" := name]> (environ w)) w)).
Proof.
  intros Hdigit Hn Hlen Hrange.
  destruct (lookup_lt_is_Some_2 projects (Z.to_nat (n - 1))) as [name Hname]; [lia|].
  exists name. split; [done|].
  unfold resolve_choice.
  rewrite (str_isdigit_not_zero_literal choice n) by (done || lia).
  rewrite Hdigit, bind_run, bind_run, (int_run _ _ _ Hn Hlen), ret_run.
  assert ((1 <=? n)%Z && (n <=? Z.of_nat (length projects))%Z = true) as ->.
  { apply andb_true_intro. split; apply Z.leb_le; lia. }
  rewrite bind_run, (int_run _ _ _ Hn Hlen), Hname.
  apply finish_run.
Qed.

(** An answer that is neither [0] nor a number within the list is reported
    as invalid, and [select_project] calls itself; the environment, with the
    current project, is as it was. *)
Lemma resolve_choice_invalid (retry : py string) (projects : list string) (choice : string)
    (w : world) :
  String.eqb choice "0" = false →
  str_isdigit choice = false ∨
  (∃ n, decimal_value 0 choice = Some n ∧
        (Z.of_nat (String.length choice) ≤ int_max_str_digits)%Z ∧
        ¬ (1 ≤ n ≤ Z.of_nat (length projects))%Z) →
  resolve_choice retry projects choice w =
  retry (set_trace (trace w ++ [LogError "Invalid choice."; Print (red "Invalid choice.")]) w).
Proof.
  intros Hzero Hbad. unfold resolve_choice. rewrite Hzero.
  assert ((if str_isdigit choice
           then n ← int choice;
                mret ((1 <=? n)%Z && (n <=? Z.of_nat (length projects))%Z)
           else mret false) w = (Return false, w)) as Hrange.
  { destruct Hbad as [->|(n & Hn & Hlen & Hout)]; [done|].
    destruct (str_isdigit choice); [|done].
    rewrite bind_run, (int_run _ _ _ Hn Hlen), ret_run. do 2 f_equal.
    apply andb_false_iff. rewrite !Z.leb_gt. lia. }
  rewrite bind_run, Hrange, bind_run, handle_error_run. reflexivity.
Qed.

(** An answer made of digit characters that are not all decimal digits
    passes [isdigit] and makes [int] raise [ValueError]: the exception leaves
    [select_project], with no report and no new prompt. *)
Lemma resolve_choice_nondecimal (retry : py string) (projects : list string)
    (choice : string) (w : world) :
  str_isdigit choice = true →
  decimal_value 0 choice = None →
  resolve_choice retry projects choice w = (Raise (ValueError choice), w).
Proof.
  intros Hdigit Hnone. unfold resolve_choice.
  assert (String.eqb choice "0" = false) as ->.
  { destruct (String.eqb_spec choice "0") as [->|]; [|done]. by vm_compute in Hnone. }
  rewrite Hdigit, bind_run, bind_run. unfold int. rewrite Hnone. reflexivity.
Qed.

(** The answer [0] followed by a name that is empty once stripped: the name
    is reported as invalid and [select_project] calls itself. *)
Lemma resolve_choice_new_empty (retry : py string) (projects : list string) (w : world)
    (line : string) (rest : list string) :
  stdin w = line :: rest →
  str_strip line = EmptyString →
  resolve_choice retry projects "0" w =
  retry (set_stdin rest
           (set_trace (trace w ++ [Prompt "Enter the name of the new project: ";
                                   LogError "Invalid project name.";
                                   Print (red "Invalid project name.")]) w)).
Proof.
  intros Hin Hempty. unfold resolve_choice. cbn [String.eqb Ascii.eqb Bool.eqb].
  rewrite bind_run, (input_run _ line rest w Hin). cbv zeta. rewrite Hempty.
  cbn [String.eqb negb]. rewrite bind_run, handle_error_run.
  cbn [trace set_trace set_stdin]. rewrite <-(assoc_L (++)). reflexivity.
Qed.

(** The answer [0] followed by a name: the project of that name, stripped,
    is provisioned and becomes the current project. *)
Lemma resolve_choice_new (retry : py string) (projects : list string) (w : world)
    (line : string) (rest : list string) :
  stdin w = line :: rest →
  str_strip line ≠ EmptyString →
  resolve_choice retry projects "0" w =
  (ensure_directories_and_symlinks (str_strip line) ;;
   print_green ("Created new project: " +:+ str_strip line) ;;
   environ_set "CURRENT_PROJECT" (str_strip line) ;;
   print_green ("Current project set to: " +:+ str_strip line) ;;
   mret (str_strip line))
    (set_stdin rest (set_trace (trace w ++ [Prompt "Enter the name of the new project: "]) w)).
Proof.
  intros Hin Hname. unfold resolve_choice. cbn [String.eqb Ascii.eqb Bool.eqb].
  rewrite bind_run, (input_run _ line rest w Hin). cbv zeta.
  destruct (String.eqb_spec (str_strip line) EmptyString) as [|_]; [done|].
  reflexivity.
Qed.

Lemma str_isdigit_not_a (choice : string) :
  str_isdigit choice = true → String.eqb choice "a" = false.
Proof.
  intros H. destruct (String.eqb_spec choice "a") as [->|]; [|done]. by vm_compute in H.
Qed.

(** C8, where the code fails it.  When the answer, stripped and lowered, is
    made of digit characters of which one is not a decimal digit (the
    superscript two, for one), [select_project] does not reject it: after the
    listing and the prompt, [int] raises [ValueError], which leaves
    [select_project]; nothing is reported and no new prompt is written. *)
Theorem select_project_nondecimal_digit (w : world) (line : string) (rest : list string) :
  path_isdir (fs w) FILES_DIR = true →
  stdin w = line :: rest →
  str_isdigit (str_lower (str_strip line)) = true →
  decimal_value 0 (str_lower (str_strip line)) = None →
  ∃ t, select_project w =
       (Raise (ValueError (str_lower (str_strip line))),
        set_stdin rest (set_trace (trace w ++ t) w)).
Proof.
  intros Hdir Hin Hdigit Hnone. unfold select_project. cbn [select_project_rec].
  destruct (select_project_body_direct (select_project_rec (length (stdin w))) w line rest
              Hdir Hin (str_isdigit_not_a _ Hdigit)) as [t Ht].
  exists t. rewrite Ht. by apply resolve_choice_nondecimal.
Qed.

(** ** The interactive loop *)

#[local] Hint Resolve tame_select_project : tame.

Lemma good_interactive_step (loop : option string → py (option string))
    (project_name : option string) (w : world) :
  (∀ pn w1, length (stdin w1) < length (stdin w) → good (loop pn) w1) →
  good (interactive_step loop project_name) w.
Proof.
  intros Hloop. unfold interactive_step.
  unfold print_yellow.
  repeat (apply good_bind; [apply tame_print|];
          let H := fresh "Hp" in intros [] ? H;
          apply tame_print in H as [H _]).
  apply good_bind; [apply tame_input|]. intros choice w6 Hin%input_consumes.
  assert (length (stdin w6) < length (stdin w)) as Hlt by lia.
  assert (∀ (c : py unit) pn, tame c → good (c ;; loop pn) w6) as Hthen.
  { intros c pn Hc. apply good_bind; [apply Hc|]. intros [] w7 Hrun.
    apply Hloop. destruct (Hc _ _ _ Hrun) as [Hlen _]. lia. }
  destruct (String.eqb choice "1").
  { apply good_bind; [apply tame_select_project|]. intros name w7 Hrun.
    destruct (tame_select_project _ _ _ Hrun) as [Hlen _].
    apply good_bind; [apply tame_print|]. intros [] w8 Hrun8.
    apply tame_print in Hrun8 as [Hlen8 _]. apply Hloop. lia. }
  destruct (String.eqb choice "2").
  { apply Hthen. unfold print_red. tame_auto. }
  destruct (String.eqb choice "3").
  { apply Hthen. unfold print_red. tame_auto. }
  destruct (String.eqb choice "4").
  { assert (tame (print_green "Exiting Interactive Mode." ;; mret project_name)) as Ht
      by (unfold print_green; tame_auto).
    apply Ht. }
  apply Hthen. unfold print_red. tame_auto.
Qed.

(** With more rounds than lines waiting, [interactive_loop] never runs out
    of rounds. *)
Lemma good_interactive_loop (rounds : nat) (project_name : option string) (w : world) :
  length (stdin w) < rounds → good (interactive_loop rounds project_name) w.
Proof.
  revert project_name w. induction rounds as [|rounds IH]; intros pn w Hlt; [lia|].
  cbn [interactive_loop]. apply good_interactive_step.
  intros pn' w1 Hlt1. apply IH. lia.
Qed.

Lemma tame_interactive_mode : tame interactive_mode.
Proof.
  intros w. unfold interactive_mode.
  apply good_bind; [apply good_interactive_loop; lia|].
  intros pn w1 _.
  assert (tame (if truthy pn
                then customize_terminal (default EmptyString pn) HFS ;;
                     launch_xterm_with_env (default EmptyString pn) HFS
                else print_red "No project selected. Cannot launch xterm.")) as Ht
    by (unfold print_red; tame_auto).
  apply Ht.
Qed.

Lemma menu_run (w : world) :
  (print_yellow (NL +:+ "--- Interactive Mode ---") ;;
   print "1 - Select or Create Project" ;;
   print "2 - Create Backup" ;;
   print "3 - Restore Backup" ;;
   print "4 - Exit") w = (Return tt, set_trace (trace w ++ menu) w).
Proof.
  unfold print_yellow, print, menu.
  assert (∀ (l : list event) a b c d e,
            l ++ [a; b; c; d; e] = ((((l ++ [a]) ++ [b]) ++ [c]) ++ [d]) ++ [e]) as Happ
    by (intros; by rewrite <-!(assoc_L (++))).
  rewrite Happ. reflexivity.
Qed.

(** The world after the menu and the answer of one round. *)
Lemma interactive_step_read (loop : option string → py (option string))
    (project_name : option string) (w : world) (choice : string) (rest : list string) :
  stdin w = choice :: rest →
  interactive_step loop project_name w =
  (if String.eqb choice "1" then
     name ← select_project;
     print_green ("Selected project: " +:+ name) ;;
     loop (Some name)
   else if String.eqb choice "2" then
     (if truthy project_name then
        create_backup (os_path_join FILES_DIR (default EmptyString project_name)) None
      else print_red "No project selected.") ;;
     loop project_name
   else if String.eqb choice "3" then
     (if truthy project_name then
        timestamp ← input "Enter the backup timestamp to restore: ";
        restore_backup (os_path_join FILES_DIR (default EmptyString project_name)) timestamp
      else print_red "No project selected.") ;;
     loop project_name
   else if String.eqb choice "4" then
     print_green "Exiting Interactive Mode." ;;
     mret project_name
   else
     print_red "Invalid choice, please try again." ;;
     loop project_name)
    (set_stdin rest (set_trace (trace w ++ menu ++ [Prompt "Select an option: "]) w)).
Proof.
  intros Hin. unfold interactive_step, print_yellow, print.
  do 5 (rewrite bind_run, emit_run; cbv beta iota).
  rewrite bind_run, (input_run _ choice rest) by exact Hin.
  cbn [trace set_trace]. unfold menu.
  rewrite <-!(assoc_L (++)). reflexivity.
Qed.

(** C9.  In every round of the loop, the answers [2] and [3] given while no
    project is held only print that no project is selected and go on to the
    next round: no timestamp is read, and the file system, the environment
    and the project held are as before, so neither [create_backup] nor
    [restore_backup] is run.  The loop of [interactive_mode] ends (it does
    not run out of rounds); when it is left through [4] with a project held,
    [interactive_mode] goes on with [customize_terminal] and
    [launch_xterm_with_env] for that project, and when none is held it only
    prints the warning that no xterm can be launched. *)
Theorem interactive_mode_guards :
  (∀ rounds project_name w choice rest,
     truthy project_name = false →
     choice = "2" ∨ choice = "3" →
     stdin w = choice :: rest →
     interactive_loop (S rounds) project_name w =
     interactive_loop rounds project_name
       (set_stdin rest
          (set_trace (trace w ++ menu ++ [Prompt "Select an option: ";
                                          Print (red "No project selected.")]) w))) ∧
  (∀ w, ∃ r w1,
     interactive_loop (S (length (stdin w))) None w = (r, w1) ∧
     r ≠ Raise RecursionError ∧
     match r with
     | Return project_name =>
       if truthy project_name then
         interactive_mode w =
         (customize_terminal (default EmptyString project_name) HFS ;;
          launch_xterm_with_env (default EmptyString project_name) HFS) w1
       else
         interactive_mode w =
         (Return tt,
          set_trace (trace w1 ++ [Print (red "No project selected. Cannot launch xterm.")]) w1)
     | Raise e => interactive_mode w = (Raise e, w1)
     end).
Proof.
  split.
  - intros rounds pn w choice rest Hpn Hchoice Hin. cbn [interactive_loop].
    rewrite (interactive_step_read _ _ _ _ _ Hin), Hpn.
    destruct Hchoice as [-> | ->]; cbn [String.eqb Ascii.eqb Bool.eqb];
      rewrite bind_run, print_red_run; cbn [trace set_trace set_stdin];
      rewrite <-(assoc_L (++)); reflexivity.
  - intros w.
    destruct (interactive_loop (S (length (stdin w))) None w) as [r w1] eqn:Hloop.
    exists r, w1. split; [done|]. split.
    + assert (length (stdin w) < S (length (stdin w))) as Hlt by lia.
      exact (proj2 (good_interactive_loop _ None w Hlt _ _ Hloop)).
    + unfold interactive_mode. rewrite bind_run, Hloop.
      destruct r as [pn|e]; [|done]. by destruct (truthy pn).
Qed.

(** * What a run may change *)

Lemma locate_parent (n : nat) (m : tree) (fl : bool) (cur rest loc : path) :
  lookup_node m cur = Some Dir →
  locate n m fl cur rest = inr loc →
  lookup_node m loc = Some Dir ∨ ∃ p c, loc = p ++ [c] ∧ lookup_node m p = Some Dir.
Proof.
  revert n cur rest. refine (locate_induction m _ _ _).
  - intros n cur Hcur. rewrite locate_nil. intros [= <-]. by left.
  - intros n cur c rest IHdir IHlink Hcur. rewrite locate_cons.
    destruct (m !! (cur ++ [c])) as [[d| |t]|] eqn:Hc.
    + destruct rest; [|done]. intros [= <-]. right. by exists cur, c.
    + intros Hloc. apply (IHdir eq_refl); [|done]. by rewrite lookup_node_snoc.
    + destruct rest as [|c' rest], fl;
        try (destruct n as [|n']; [done|]; intros Hloc; by apply (IHlink t n' eq_refl eq_refl)).
      intros [= <-]. right. by exists cur, c.
    + destruct rest; [|done]. intros [= <-]. right. by exists cur, c.
Qed.

Lemma locate_follow_not_link (n : nat) (m : tree) (cur rest loc t : path) :
  lookup_node m cur = Some Dir →
  locate n m true cur rest = inr loc →
  lookup_node m loc ≠ Some (Symlink t).
Proof.
  revert n cur rest. refine (locate_induction m _ _ _).
  - intros n cur Hcur. rewrite locate_nil. intros [= <-]. congruence.
  - intros n cur c rest IHdir IHlink Hcur. rewrite locate_cons.
    destruct (m !! (cur ++ [c])) as [[d| |t']|] eqn:Hc.
    + destruct rest; [|done]. intros [= <-]. rewrite lookup_node_snoc. congruence.
    + intros Hloc. apply (IHdir eq_refl); [|done]. by rewrite lookup_node_snoc.
    + destruct rest as [|c' rest]; (destruct n as [|n']; [done|]);
        intros Hloc; by apply (IHlink t' n' eq_refl eq_refl).
    + destruct rest; [|done]. intros [= <-]. rewrite lookup_node_snoc. congruence.
Qed.

Lemma keeps_entries_refl (m : tree) : keeps_entries m m.
Proof. intros p [d| |t] H; [by exists d|done|done]. Qed.

Lemma keeps_entries_trans (m1 m2 m3 : tree) :
  keeps_entries m1 m2 → keeps_entries m2 m3 → keeps_entries m1 m3.
Proof.
  intros H12 H23 p nd Hp. specialize (H12 p nd Hp). destruct nd as [d| |t].
  - destruct H12 as [d' Hd']. exact (H23 p (File d') Hd').
  - exact (H23 p Dir H12).
  - exact (H23 p (Symlink t) H12).
Qed.

Lemma keeps_entries_insert_new (m : tree) (loc : path) (nd : node) :
  m !! loc = None → keeps_entries m (<[loc := nd]> m).
Proof.
  intros Hnone p nd' Hp. assert (loc ≠ p) as Hne by congruence.
  rewrite lookup_insert_ne by done. destruct nd' as [d| |t]; [by exists d|done|done].
Qed.

Lemma keeps_entries_overwrite (m : tree) (loc : path) (d d' : string) :
  m !! loc = Some (File d) → keeps_entries m (<[loc := File d']> m).
Proof.
  intros Hf p nd Hp. destruct (decide (loc = p)) as [->|Hne].
  - rewrite lookup_insert_eq. rewrite Hf in Hp. injection Hp as <-. by exists d'.
  - rewrite lookup_insert_ne by done. destruct nd as [d0| |t]; [by exists d0|done|done].
Qed.

Lemma wf_tree_overwrite (m : tree) (loc : path) (d d' : string) :
  wf_tree m → m !! loc = Some (File d) → wf_tree (<[loc := File d']> m).
Proof.
  intros Hwf Hf q c [x Hx].
  assert (is_Some (m !! (q ++ [c]))) as Hin.
  { destruct (decide (loc = q ++ [c])) as [<-|Hne]; [by rewrite Hf|].
    rewrite lookup_insert_ne in Hx by done. by rewrite Hx. }
  pose proof (Hwf q c Hin) as Hq.
  destruct q as [|a q']; [done|]. cbn [lookup_node] in *.
  rewrite lookup_insert_ne; [done|]. intros ->. congruence.
Qed.

(** Making a new entry where a path resolution ended. *)
Lemma wf_tree_insert_located (n : nat) (m : tree) (fl : bool) (p loc : path) (nd : node) :
  wf_tree m →
  locate n m fl [] p = inr loc →
  lookup_node m loc = None →
  wf_tree (<[loc := nd]> m).
Proof.
  intros Hwf Hloc Hnone.
  destruct (locate_parent n m fl [] p loc eq_refl Hloc) as [Hdir|(q & c & -> & Hq)];
    [congruence|].
  apply wf_tree_insert; [done|done|]. by rewrite lookup_node_snoc in Hnone.
Qed.

Lemma evolves_preorder (keys : list string) : PreOrder (evolves keys).
Proof.
  split.
  - intros w. unfold evolves. split_and!; try done. apply keeps_entries_refl.
  - intros w1 w2 w3 (Hk1 & Hw1 & He1 & Hs1 & Hi1 & Ht1 & Hc1 & Hn1)
                    (Hk2 & Hw2 & He2 & Hs2 & Hi2 & Ht2 & Hc2 & Hn2).
    unfold evolves. split_and!.
    + by eapply keeps_entries_trans.
    + auto.
    + intros k Hk. by rewrite He2, He1.
    + auto.
    + by etrans.
    + by etrans.
    + congruence.
    + lia.
Qed.

#[local] Existing Instance evolves_preorder.

Lemma printed_preorder : PreOrder printed.
Proof.
  split.
  - intros w. exists []. destruct w. cbn. by rewrite app_nil_r.
  - intros w1 w2 w3 [t1 ->] [t2 ->]. exists (t1 ++ t2).
    cbn [trace set_trace]. by rewrite (assoc_L (++)).
Qed.

#[local] Existing Instance printed_preorder.

Lemma printed_evolves (keys : list string) (w w' : world) :
  printed w w' → evolves keys w w'.
Proof.
  intros [t ->]. unfold evolves. cbn [fs environ stdin trace atimes clock ticks set_trace].
  split_and!; try done.
  - apply keeps_entries_refl.
  - by apply prefix_app_r.
Qed.

Lemma evolves_mono (keys keys' : list string) (w w' : world) :
  keys ⊆ keys' → evolves keys w w' → evolves keys' w w'.
Proof.
  intros Hsub (Hk & Hw & He & Hs & Hi & Ht & Hc & Hn). unfold evolves.
  split_and!; try done. intros k Hk'. apply He. intros Hin. apply Hk', Hsub, Hin.
Qed.

Lemma evolves_stdin (keys : list string) (w : world) (line : string) (rest : list string) :
  stdin w = line :: rest → evolves keys w (set_stdin rest w).
Proof.
  intros Hin. unfold evolves. cbn [fs environ stdin trace atimes clock ticks set_stdin].
  split_and!; try done.
  - apply keeps_entries_refl.
  - rewrite Hin. by apply suffix_cons_r.
Qed.

Lemma evolves_environ (keys : list string) (w : world) (k v : string) :
  k ∈ keys → evolves keys w (set_environ (<[k := v]> (environ w)) w).
Proof.
  intros Hin. unfold evolves. cbn [fs environ stdin trace atimes clock ticks set_environ].
  split_and!; try done.
  - apply keeps_entries_refl.
  - intros k' Hk'. apply lookup_insert_ne. by intros ->.
  - intros k' Hk'. destruct (decide (k = k')) as [->|Hne].
    + rewrite lookup_insert_eq. by eexists.
    + by rewrite lookup_insert_ne.
Qed.

Lemma evolves_ticks (keys : list string) (w : world) :
  evolves keys w (set_ticks (S (ticks w)) w).
Proof.
  unfold evolves. cbn [fs environ stdin trace atimes clock ticks set_ticks].
  split_and!; try done; [apply keeps_entries_refl|lia].
Qed.

Lemma evolves_fs (keys : list string) (w : world) (m' : tree) :
  keeps_entries (fs w) m' → (wf_tree (fs w) → wf_tree m') → evolves keys w (set_fs m' w).
Proof.
  intros Hk Hwf. unfold evolves. cbn [fs environ stdin trace atimes clock ticks set_fs].
  split_and!; done.
Qed.

(** ** Programs that keep a relation *)

Section Preserves.

Context (R : world → world → Prop) `{!PreOrder R}.

Lemma preserves_ret {A} (a : A) : preserves R (mret a : py A).
Proof. intros w r w' [= <- <-]. reflexivity. Qed.

Lemma preserves_raise {A} (e : exn) : preserves R (raise e : py A).
Proof. intros w r w' [= <- <-]. reflexivity. Qed.

Lemma preserves_gets {A} (f : world → A) : preserves R (gets f).
Proof. intros w r w' [= <- <-]. reflexivity. Qed.

(** A call that leaves the world as it found it. *)
Lemma preserves_pure {A} (c : py A) :
  (∀ w r w', c w = (r, w') → w' = w) → preserves R c.
Proof. intros H w r w' Hrun. rewrite (H _ _ _ Hrun). reflexivity. Qed.

Lemma preserves_bind {A B} (c : py A) (f : A → py B) :
  preserves R c → (∀ a, preserves R (f a)) → preserves R (c ≫= f).
Proof.
  intros Hc Hf w r w'. rewrite bind_run.
  destruct (c w) as [[a|e] w1] eqn:Hrun.
  - intros Hk. etrans; [exact (Hc _ _ _ Hrun)|exact (Hf _ _ _ _ Hk)].
  - intros [= <- <-]. exact (Hc _ _ _ Hrun).
Qed.

Lemma preserves_for {A} (l : list A) (body : A → py unit) :
  (∀ x, preserves R (body x)) → preserves R (for_ l body).
Proof.
  intros Hb. induction l as [|x l IH]; simpl; [apply preserves_ret|].
  apply preserves_bind; [apply Hb|]. by intros _.
Qed.

Lemma preserves_mapM {A B} (f : A → py B) (l : list A) :
  (∀ x, preserves R (f x)) → preserves R (mapM f l).
Proof.
  intros Hf. induction l as [|x l IH]; [apply preserves_ret|].
  apply preserves_bind; [apply Hf|]. intros y.
  apply preserves_bind; [apply IH|]. intros k. apply preserves_ret.
Qed.

Lemma preserves_if {A} (b : bool) (c1 c2 : py A) :
  preserves R c1 → preserves R c2 → preserves R (if b then c1 else c2).
Proof. by destruct b. Qed.

Lemma preserves_lift_os {A} (p : path) (r : errno + A) : preserves R (lift_os p r).
Proof. destruct r; [apply preserves_raise|apply preserves_ret]. Qed.

Lemma preserves_except_pass (c : py unit) :
  preserves R c → preserves R (except_FileExistsError_pass c).
Proof.
  intros Hc w r w' H. destruct (except_pass_inv _ _ _ _ H) as [r0 Hrun].
  exact (Hc _ _ _ Hrun).
Qed.

Lemma preserves_int (s : string) : preserves R (int s).
Proof.
  unfold int. destruct (decimal_value 0 s); [|apply preserves_raise].
  destruct (_ <? _)%Z; [apply preserves_raise|apply preserves_ret].
Qed.

Lemma preserves_os_path_getatime (p : path) : preserves R (os_path_getatime p).
Proof.
  apply preserves_pure. intros w r w'. unfold os_path_getatime.
  destruct (realpath (fs w) p); by intros [= <- <-].
Qed.

Lemma preserves_os_listdir (p : path) : preserves R (os_listdir p).
Proof.
  unfold os_listdir. apply preserves_bind; [apply preserves_gets|].
  intros m. apply preserves_lift_os.
Qed.

End Preserves.

Create HintDb frame.

#[local] Hint Resolve evolves_preorder printed_preorder : frame.
#[local] Hint Resolve preserves_int preserves_os_path_getatime preserves_os_listdir
  preserves_lift_os : frame.

Ltac frame_step :=
  match goal with
  | |- ∀ _, _ => intros
  | |- PreOrder _ => apply _
  | |- preserves _ (mret _) => apply preserves_ret
  | |- preserves _ (_ ≫= _) => apply preserves_bind
  | |- preserves _ (for_ _ _) => apply preserves_for
  | |- preserves _ (mapM _ _) => apply preserves_mapM
  | |- preserves _ (if _ then _ else _) => apply preserves_if
  | |- preserves _ (gets _) => apply preserves_gets
  | |- preserves _ (raise _) => apply preserves_raise
  | |- preserves _ (except_FileExistsError_pass _) => apply preserves_except_pass
  | |- preserves _ (match ?x with _ => _ end) => destruct x
  | |- preserves _ _ => solve [auto with frame]
  end.

Ltac frame_auto := repeat frame_step.

(** ** Programs that only print *)

Lemma printed_emit (e : event) : preserves printed (emit e).
Proof. intros w r w' [= <- <-]. by exists [e]. Qed.

#[local] Hint Resolve printed_emit : frame.

Lemma printed_print (s : string) : preserves printed (print s).
Proof. apply printed_emit. Qed.

Lemma printed_handle_error (msg : string) : preserves printed (handle_error msg).
Proof. unfold handle_error, logging_error, print_red, print. frame_auto. Qed.

#[local] Hint Resolve printed_print printed_handle_error : frame.

Lemma printed_list_recent_projects (show_all : bool) :
  preserves printed (list_recent_projects show_all).
Proof.
  unfold list_recent_projects, os_path_exists, print_green, print_yellow.
  frame_auto.
Qed.

Lemma printed_customize_terminal (name version : string) :
  preserves printed (customize_terminal name version).
Proof. unfold customize_terminal, os_system. frame_auto. Qed.

Lemma printed_find_houdini_version (hversion : string) :
  preserves printed (find_houdini_version hversion).
Proof. unfold find_houdini_version, os_path_exists, print_green, print_red. frame_auto. Qed.

(** ** Programs under which the world evolves *)

Section Evolves.

Variable keys : list string.

Lemma evolves_printed {A} (c : py A) : preserves printed c → preserves (evolves keys) c.
Proof. intros Hc w r w' Hrun. apply printed_evolves. exact (Hc _ _ _ Hrun). Qed.

Lemma evolves_emit (e : event) : preserves (evolves keys) (emit e).
Proof. apply evolves_printed, printed_emit. Qed.

Lemma evolves_input (prompt : string) : preserves (evolves keys) (input prompt).
Proof.
  unfold input. apply preserves_bind; [apply _|apply evolves_emit|]. intros _.
  intros w r w'. rewrite bind_run, gets_run.
  destruct (stdin w) as [|line rest] eqn:Hin.
  - intros [= <- <-]. reflexivity.
  - rewrite bind_run. intros [= <- <-]. by eapply evolves_stdin.
Qed.

Lemma evolves_environ_set (k v : string) :
  k ∈ keys → preserves (evolves keys) (environ_set k v).
Proof. intros Hk w r w' [= <- <-]. by apply evolves_environ. Qed.

Lemma evolves_datetime_now : preserves (evolves keys) datetime_now.
Proof. intros w r w' [= <- <-]. apply evolves_ticks. Qed.

Lemma evolves_os_mkdir (p : path) : preserves (evolves keys) (os_mkdir p).
Proof.
  intros w r w' Hrun.
  destruct (os_mkdir_inv _ _ _ _ Hrun) as [(loc & -> & Hloc & Hnone & ->)|(e & -> & ->)];
    [|reflexivity].
  apply evolves_fs.
  - apply keeps_entries_insert_new. by apply lookup_node_None.
  - intros Hwf. by eapply wf_tree_insert_located.
Qed.

Lemma evolves_os_symlink (src dst : path) : preserves (evolves keys) (os_symlink src dst).
Proof.
  intros w r w' Hrun.
  destruct (os_symlink_inv _ _ _ _ _ Hrun) as [(loc & -> & Hloc & Hnone & ->)|(e & -> & ->)];
    [|reflexivity].
  apply evolves_fs.
  - apply keeps_entries_insert_new. by apply lookup_node_None.
  - intros Hwf. by eapply wf_tree_insert_located.
Qed.

Lemma evolves_write_file (p : path) (data : string) : preserves (evolves keys) (write_file p data).
Proof.
  intros w r w'. unfold write_file.
  destruct (locate SYMLOOP_MAX (fs w) true [] p) as [e|loc] eqn:Hloc;
    [intros [= <- <-]; reflexivity|].
  destruct (lookup_node (fs w) loc) as [[d| |t]|] eqn:Hnd.
  - intros [= <- <-]. assert (fs w !! loc = Some (File d)) as Hf.
    { destruct loc; [done|exact Hnd]. }
    apply evolves_fs.
    + by eapply keeps_entries_overwrite.
    + intros Hwf. by eapply wf_tree_overwrite.
  - intros [= <- <-]. reflexivity.
  - by destruct (locate_follow_not_link SYMLOOP_MAX (fs w) [] p loc t eq_refl Hloc).
  - intros [= <- <-]. apply evolves_fs.
    + apply keeps_entries_insert_new. by apply lookup_node_None.
    + intros Hwf. by eapply wf_tree_insert_located.
Qed.

#[local] Hint Resolve evolves_emit evolves_input evolves_environ_set evolves_datetime_now
  evolves_os_mkdir evolves_os_symlink evolves_write_file : frame.

Lemma evolves_print (s : string) : preserves (evolves keys) (print s).
Proof. apply evolves_emit. Qed.

Lemma evolves_handle_error (msg : string) : preserves (evolves keys) (handle_error msg).
Proof. apply evolves_printed, printed_handle_error. Qed.

Lemma evolves_list_recent_projects (show_all : bool) :
  preserves (evolves keys) (list_recent_projects show_all).
Proof. apply evolves_printed, printed_list_recent_projects. Qed.

Lemma evolves_customize_terminal (name version : string) :
  preserves (evolves keys) (customize_terminal name version).
Proof. apply evolves_printed, printed_customize_terminal. Qed.

Lemma evolves_makedirs_rev (rname : path) : preserves (evolves keys) (makedirs_rev rname).
Proof.
  induction rname as [|tail rhead IH]; simpl; [apply evolves_os_mkdir|].
  unfold os_path_exists. frame_auto.
Qed.

#[local] Hint Resolve evolves_print evolves_handle_error evolves_list_recent_projects
  evolves_customize_terminal evolves_makedirs_rev : frame.

Lemma evolves_ensure_directory_exists (d : path) :
  preserves (evolves keys) (ensure_directory_exists d).
Proof.
  unfold ensure_directory_exists, os_path_isdir, os_makedirs, logging_info, print_yellow.
  frame_auto.
Qed.

Lemma evolves_shutil_copy (src dst : path) : preserves (evolves keys) (shutil_copy src dst).
Proof. unfold shutil_copy, shutil_copyfile, os_path_isdir. frame_auto. Qed.

#[local] Hint Resolve evolves_ensure_directory_exists evolves_shutil_copy : frame.

Lemma evolves_create_backup (project_dir : path) (backup_root : option path) :
  preserves (evolves keys) (create_backup project_dir backup_root).
Proof. unfold create_backup, glob_hip, print_red, print_green. frame_auto. Qed.

Lemma evolves_restore_backup (project_dir : path) (timestamp : string) :
  preserves (evolves keys) (restore_backup project_dir timestamp).
Proof. unfold restore_backup, os_path_exists, glob_hip, print_green. frame_auto. Qed.

Lemma evolves_launch_xterm_with_env (name version : string) :
  preserves (evolves keys) (launch_xterm_with_env name version).
Proof. unfold launch_xterm_with_env, os_system, print_green. frame_auto. Qed.

#[local] Hint Resolve evolves_create_backup evolves_restore_backup
  evolves_launch_xterm_with_env : frame.

Hypothesis keys_name : "PROJECT_NAME" ∈ keys.
Hypothesis keys_path : "PROJECT_PATH" ∈ keys.

Lemma evolves_ensure_directories_and_symlinks (name : string) :
  preserves (evolves keys) (ensure_directories_and_symlinks name).
Proof.
  unfold ensure_directories_and_symlinks, ensure_project_directories, os_path_islink,
    print_green, print_yellow.
  frame_auto.
Qed.

#[local] Hint Resolve evolves_ensure_directories_and_symlinks : frame.

Hypothesis keys_current : "CURRENT_PROJECT" ∈ keys.

Lemma evolves_resolve_choice (retry : py string) (projects : list string) (choice : string) :
  preserves (evolves keys) retry →
  preserves (evolves keys) (resolve_choice retry projects choice).
Proof. intros Hretry. unfold resolve_choice, print_green. frame_auto. Qed.

Lemma evolves_select_project_body (retry : py string) :
  preserves (evolves keys) retry →
  preserves (evolves keys) (select_project_body retry).
Proof.
  intros Hretry. unfold select_project_body.
  frame_auto. by apply evolves_resolve_choice.
Qed.

Lemma evolves_select_project_rec (depth : nat) :
  preserves (evolves keys) (select_project_rec depth).
Proof.
  induction depth as [|depth IH]; simpl; [apply preserves_raise; apply _|].
  by apply evolves_select_project_body.
Qed.

Lemma evolves_select_project : preserves (evolves keys) select_project.
Proof.
  intros w r w'. unfold select_project.
  exact (evolves_select_project_rec (S (length (stdin w))) w r w').
Qed.

#[local] Hint Resolve evolves_select_project : frame.

Lemma evolves_interactive_loop (rounds : nat) (project_name : option string) :
  preserves (evolves keys) (interactive_loop rounds project_name).
Proof.
  revert project_name. induction rounds as [|rounds IH]; intros project_name; simpl;
    [apply preserves_raise; apply _|].
  unfold interactive_step, print_yellow, print_green, print_red. frame_auto.
Qed.

Lemma evolves_interactive_mode : preserves (evolves keys) interactive_mode.
Proof.
  intros w r w'. unfold interactive_mode.
  apply preserves_bind; [apply _|apply evolves_interactive_loop|].
  intros pn. unfold print_red. frame_auto.
Qed.

End Evolves.

(** ** Programs that leave a part of the world alone

    [f] reads a part of the world that does not depend on the file system,
    the trace or the clock readings taken. *)

Section Same.

Context {B : Type} (f : world → B).
Hypothesis f_fs : ∀ m w, f (set_fs m w) = f w.
Hypothesis f_trace : ∀ t w, f (set_trace t w) = f w.
Hypothesis f_ticks : ∀ n w, f (set_ticks n w) = f w.

Lemma same_preorder : PreOrder (same f).
Proof. split; [done|]. intros w1 w2 w3 H1 H2. unfold same in *. congruence. Qed.

#[local] Existing Instance same_preorder.

Lemma same_emit (e : event) : preserves (same f) (emit e).
Proof. intros w r w' [= <- <-]. apply f_trace. Qed.

Lemma same_datetime_now : preserves (same f) datetime_now.
Proof. intros w r w' [= <- <-]. apply f_ticks. Qed.

Lemma same_os_mkdir (p : path) : preserves (same f) (os_mkdir p).
Proof.
  intros w r w' Hrun.
  destruct (os_mkdir_inv _ _ _ _ Hrun) as [(loc & -> & Hloc & Hnone & ->)|(e & -> & ->)];
    [apply f_fs|reflexivity].
Qed.

Lemma same_write_file (p : path) (data : string) : preserves (same f) (write_file p data).
Proof.
  intros w r w'. unfold write_file.
  destruct (locate SYMLOOP_MAX (fs w) true [] p) as [e|loc];
    [intros [= <- <-]; reflexivity|].
  destruct (lookup_node (fs w) loc) as [[d| |t]|]; intros [= <- <-];
    first [apply f_fs|reflexivity].
Qed.

#[local] Hint Resolve same_preorder same_emit same_datetime_now same_os_mkdir
  same_write_file : frame.

Lemma same_makedirs_rev (rname : path) : preserves (same f) (makedirs_rev rname).
Proof.
  induction rname as [|tail rhead IH]; simpl; [apply same_os_mkdir|].
  unfold os_path_exists. frame_auto.
Qed.

#[local] Hint Resolve same_makedirs_rev : frame.

Lemma same_ensure_directory_exists (d : path) : preserves (same f) (ensure_directory_exists d).
Proof.
  unfold ensure_directory_exists, os_path_isdir, os_makedirs, logging_info, print_yellow, print.
  frame_auto.
Qed.

Lemma same_shutil_copy (src dst : path) : preserves (same f) (shutil_copy src dst).
Proof. unfold shutil_copy, shutil_copyfile, os_path_isdir. frame_auto. Qed.

#[local] Hint Resolve same_ensure_directory_exists same_shutil_copy : frame.

Lemma same_create_backup (project_dir : path) (backup_root : option path) :
  preserves (same f) (create_backup project_dir backup_root).
Proof. unfold create_backup, glob_hip, print_red, print_green, print. frame_auto. Qed.

Lemma same_restore_backup (project_dir : path) (timestamp : string) :
  preserves (same f) (restore_backup project_dir timestamp).
Proof.
  unfold restore_backup, os_path_exists, glob_hip, handle_error, logging_error,
    print_red, print_green, print.
  frame_auto.
Qed.

Lemma same_launch_xterm_with_env (name version : string) :
  preserves (same f) (launch_xterm_with_env name version).
Proof. unfold launch_xterm_with_env, os_system, print_green, print. frame_auto. Qed.

End Same.

(** * Further properties of the script

    ** What the functions leave alone *)

Lemma evolves_nil_environ (w w' : world) : evolves [] w w' → environ w' = environ w.
Proof.
  intros (_ & _ & He & _). apply map_eq. intros k. apply He. apply not_elem_of_nil.
Qed.

Lemma project_keys_session : project_keys ⊆ session_keys.
Proof.
  intros k Hk. unfold project_keys in Hk. unfold session_keys.
  apply elem_of_cons in Hk as [->|Hk]; [apply elem_of_cons; by left|].
  apply elem_of_cons in Hk as [->|Hk]; [|by apply elem_of_nil in Hk].
  apply elem_of_cons; right. apply elem_of_cons; by left.
Qed.

Lemma session_keys_name : "PROJECT_NAME" ∈ session_keys.
Proof. unfold session_keys. apply elem_of_cons; by left. Qed.

Lemma session_keys_path : "PROJECT_PATH" ∈ session_keys.
Proof. unfold session_keys. apply elem_of_cons; right. apply elem_of_cons; by left. Qed.

Lemma session_keys_current : "CURRENT_PROJECT" ∈ session_keys.
Proof.
  unfold session_keys. apply elem_of_cons; right. apply elem_of_cons; right.
  apply elem_of_cons; by left.
Qed.

Lemma project_keys_name : "PROJECT_NAME" ∈ project_keys.
Proof. unfold project_keys. apply elem_of_cons; by left. Qed.

Lemma project_keys_path : "PROJECT_PATH" ∈ project_keys.
Proof. unfold project_keys. apply elem_of_cons; right. apply elem_of_cons; by left. Qed.

(** X1.  However a session of [interactive_mode] ends (also with an
    exception), it has removed no entry of the file system and changed the
    kind of none, directories and links are as they were, a well-formed tree
    is still well formed; of the environment only [PROJECT_NAME],
    [PROJECT_PATH] and [CURRENT_PROJECT] can differ and no variable was
    unset; the lines left on standard input are a suffix of those found, the
    trace has only grown, and the clock was only read. *)
Theorem interactive_mode_footprint (w : world) (r : outcome unit) (w' : world) :
  interactive_mode w = (r, w') → evolves session_keys w w'.
Proof.
  apply (evolves_interactive_mode session_keys
           session_keys_name session_keys_path session_keys_current).
Qed.

(** X2.  [create_backup] and [restore_backup], however they end (also with
    an exception of a copy), read nothing from standard input and change no
    environment variable; they remove no entry of the file system and change
    the kind of none (all they do there is add entries and rewrite regular
    files), they keep a well-formed tree well formed, and they only add to
    the trace. *)
Theorem backup_restore_footprint (project_dir : path) (backup_root : option path)
    (timestamp : string) (w : world) (r : outcome unit) (w' : world) :
  create_backup project_dir backup_root w = (r, w') ∨
  restore_backup project_dir timestamp w = (r, w') →
  stdin w' = stdin w ∧
  environ w' = environ w ∧
  keeps_entries (fs w) (fs w') ∧
  (wf_tree (fs w) → wf_tree (fs w')) ∧
  trace w `prefix_of` trace w'.
Proof.
  intros Hrun.
  assert (evolves [] w w' ∧ same (λ w, (stdin w, environ w)) w w') as [He Hs].
  { destruct Hrun as [Hrun|Hrun].
    - split; [exact (evolves_create_backup [] _ _ _ _ _ Hrun)|].
      exact (same_create_backup (λ w, (stdin w, environ w))
               (λ _ _, eq_refl) (λ _ _, eq_refl) (λ _ _, eq_refl) _ _ _ _ _ Hrun).
    - split; [exact (evolves_restore_backup [] _ _ _ _ _ Hrun)|].
      exact (same_restore_backup (λ w, (stdin w, environ w))
               (λ _ _, eq_refl) (λ _ _, eq_refl) _ _ _ _ _ Hrun). }
  unfold same in Hs. injection Hs as Hstdin Henv.
  destruct He as (Hk & Hwf & _ & _ & _ & Ht & _).
  done.
Qed.

Lemma same_stdin_ensure_project_directories (name : string) (w : world) r w' :
  ensure_project_directories name w = (r, w') → stdin w' = stdin w ∧ environ w' = environ w.
Proof.
  rewrite ensure_project_directories_for. intros Hrun.
  assert (preserves (same (λ w, (stdin w, environ w)))
            (for_ (skeleton_dirs name) ensure_directory_exists)) as Hp.
  { apply preserves_for; [apply same_preorder|]. intros d.
    exact (same_ensure_directory_exists (λ w, (stdin w, environ w))
             (λ _ _, eq_refl) (λ _ _, eq_refl) d). }
  pose proof (Hp _ _ _ Hrun) as Hs. unfold same in Hs. by injection Hs.
Qed.

(** X3.  Provisioning never removes, retypes or rewrites anything: however
    [ensure_directories_and_symlinks] ends, every entry of the file system is
    there as it was (the tree before is a submap of the tree after), a
    well-formed tree is still well formed, nothing was read from standard
    input, and the trace has only grown. *)
Theorem provisioning_only_adds (name : string) (w : world) (r : outcome unit) (w' : world) :
  ensure_directories_and_symlinks name w = (r, w') →
  fs w ⊆ fs w' ∧
  (wf_tree (fs w) → wf_tree (fs w')) ∧
  stdin w' = stdin w ∧
  trace w `prefix_of` trace w'.
Proof.
  intros Hrun.
  pose proof (evolves_ensure_directories_and_symlinks project_keys
                project_keys_name project_keys_path _ _ _ _ Hrun)
    as (_ & Hwf & _ & _ & _ & Htrace & _).
  split; [|split; [done|split; [|done]]].
  - destruct (provision_inv _ _ _ _ Hrun) as (rd & wd & Hd & Hrest).
    pose proof (provision_dirs_adds _ _ _ _ Hd) as [Hsub _].
    destruct rd as [[]|e]; [|by destruct Hrest as [_ ->]].
    destruct (path_islink (fs wd) (link_path name)); [by destruct Hrest as [_ ->]|].
    destruct Hrest as (rl & wl & Hl & Hrest).
    assert (fs wd ⊆ fs wl) as Hsub'.
    { destruct (os_symlink_inv _ _ _ _ _ Hl) as [(loc & _ & _ & Hnone & ->)|(e & _ & ->)];
        [|done].
      cbn [fs set_fs]. apply insert_subseteq. by apply lookup_node_None. }
    destruct rl as [[]|e]; destruct Hrest as [_ ->]; cbn [fs after_link set_trace set_environ];
      by etrans.
  - destruct (provision_inv _ _ _ _ Hrun) as (rd & wd & Hd & Hrest).
    destruct (same_stdin_ensure_project_directories _ _ _ _ Hd) as [Hin _].
    destruct rd as [[]|e]; [|by destruct Hrest as [_ ->]].
    destruct (path_islink (fs wd) (link_path name)); [by destruct Hrest as [_ ->]|].
    destruct Hrest as (rl & wl & Hl & Hrest).
    assert (stdin wl = stdin wd) as Hin'.
    { by destruct (os_symlink_inv _ _ _ _ _ Hl) as [(loc & _ & _ & _ & ->)|(e & _ & ->)]. }
    destruct rl as [[]|e]; destruct Hrest as [_ ->];
      cbn [stdin after_link set_trace set_environ]; congruence.
Qed.

(** X4.  The environment after provisioning.  A call of
    [ensure_directories_and_symlinks] that returns has set [PROJECT_NAME] to
    the project name and [PROJECT_PATH] to the project directory under
    [FILES_DIR], and changed no other variable; a call that raises has
    changed none. *)
Theorem provisioning_sets_environment (name : string) (w : world) (r : outcome unit)
    (w' : world) :
  ensure_directories_and_symlinks name w = (r, w') →
  match r with
  | Return _ =>
    environ w' = <["PROJECT_PATH" := show_path (os_path_join FILES_DIR name)]>
                   (<["PROJECT_NAME" := name]> (environ w))
  | Raise _ => environ w' = environ w
  end.
Proof.
  intros Hrun.
  destruct (provision_inv _ _ _ _ Hrun) as (rd & wd & Hd & Hrest).
  destruct (same_stdin_ensure_project_directories _ _ _ _ Hd) as [_ Henv].
  destruct rd as [[]|e]; [|by destruct Hrest as [-> ->]].
  destruct (path_islink (fs wd) (link_path name)).
  { destruct Hrest as [-> ->]. cbn [environ after_link set_trace set_environ]. by rewrite Henv. }
  destruct Hrest as (rl & wl & Hl & Hrest).
  assert (environ wl = environ wd) as Henv'.
  { by destruct (os_symlink_inv _ _ _ _ _ Hl) as [(loc & _ & _ & _ & ->)|(e & _ & ->)]. }
  destruct rl as [[]|e]; destruct Hrest as [-> ->].
  - cbn [environ after_link set_trace set_environ]. by rewrite Henv', Henv.
  - congruence.
Qed.

(** X5.  [list_recent_projects] is a query: however it ends, with either
    flag, it has changed neither the file system nor the environment nor
    standard input; all it has done is add to the trace. *)
Theorem list_recent_projects_only_prints (show_all : bool) (w : world)
    (r : outcome (list string)) (w' : world) :
  list_recent_projects show_all w = (r, w') → ∃ t, w' = set_trace (trace w ++ t) w.
Proof. apply printed_list_recent_projects. Qed.

(** ** Listing: edge cases, errors, ties *)

Lemma insert_desc_filter_key {A} (k : Z) (x : Z * A) (l : list (Z * A)) :
  filter (λ y, y.1 = k) (insert_desc x l) = filter (λ y, y.1 = k) (x :: l).
Proof.
  induction l as [|y l IH]; [done|]. cbn [insert_desc].
  destruct (x.1 <? y.1)%Z eqn:Hlt; [|done].
  apply Z.ltb_lt in Hlt.
  rewrite filter_cons, IH, !filter_cons.
  destruct (decide (y.1 = k)) as [Hy|Hy], (decide (x.1 = k)) as [Hx|Hx]; try done. lia.
Qed.

Lemma sort_desc_filter_key {A} (k : Z) (l : list (Z * A)) :
  filter (λ y, y.1 = k) (foldr insert_desc [] l) = filter (λ y, y.1 = k) l.
Proof.
  induction l as [|x l IH]; [done|]. cbn [foldr].
  by rewrite insert_desc_filter_key, !filter_cons, IH.
Qed.

Lemma filter_keyed {A} (key : A → Z) (k : Z) (l : list (Z * A)) :
  Forall (λ y, y.1 = key y.2) l →
  filter (λ x, key x = k) l.*2 = (filter (λ y, y.1 = k) l).*2.
Proof.
  induction 1 as [|y l Hy _ IH]; [done|]. cbn [fmap list_fmap].
  rewrite !filter_cons. rewrite <-Hy.
  destruct (decide (y.1 = k)); cbn [fmap list_fmap]; by rewrite IH.
Qed.

(** The sort is stable: the items of one key come out in the order in which
    they went in. *)
Lemma sorted_reverse_stable {A} (key : A → Z) (k : Z) (l : list A) :
  filter (λ x, key x = k) (sorted_reverse ((λ x, (key x, x)) <$> l))
  = filter (λ x, key x = k) l.
Proof.
  unfold sorted_reverse.
  assert (Forall (λ y : Z * A, y.1 = key y.2) ((λ x, (key x, x)) <$> l)) as Hkeyed.
  { apply Forall_fmap, Forall_forall. by intros x _. }
  rewrite (filter_keyed key k).
  - rewrite sort_desc_filter_key, <-(filter_keyed key k) by done.
    f_equal. rewrite <-list_fmap_compose. apply list_fmap_id.
  - by rewrite sort_desc_perm.
Qed.

Lemma list_recent_projects_nothing_to_list_aux (show_all : bool) (w : world) :
  path_exists (fs w) FILES_DIR = false →
  ∃ t, list_recent_projects show_all w = (Return [], set_trace (trace w ++ t) w).
Proof.
  intros He. unfold list_recent_projects, os_path_exists.
  rewrite bind_run, gets_run, He. cbn [negb].
  rewrite bind_run, handle_error_run, ret_run. by eexists.
Qed.

(** X6.  Nothing to list.  When [FILES_DIR] does not exist,
    [list_recent_projects] logs and prints that the directory does not exist
    and returns the empty list; when it is a directory with no directory in
    it, the call prints that no projects were found and returns the empty
    list.  In both cases no header and no row is printed, whatever the
    flag. *)
Theorem list_recent_projects_nothing_to_list (show_all : bool) (w : world) :
  (path_exists (fs w) FILES_DIR = false →
   list_recent_projects show_all w =
   (Return [],
    set_trace (trace w ++
      [LogError ("Directory " +:+ show_path FILES_DIR +:+ " does not exist.");
       Print (red ("Directory " +:+ show_path FILES_DIR +:+ " does not exist."))]) w)) ∧
  (path_isdir (fs w) FILES_DIR = true → project_names w = [] →
   list_recent_projects show_all w =
   (Return [],
    set_trace (trace w ++ [Print (yellow "No projects found in FILES_DIR.")]) w)).
Proof.
  split.
  - intros He. unfold list_recent_projects, os_path_exists.
    rewrite bind_run, gets_run, He. cbn [negb].
    by rewrite bind_run, handle_error_run, ret_run.
  - intros Hdir Hnone. pose proof Hdir as [cF HcF]%path_isdir_resolves.
    assert (filter (λ name, path_isdir (fs w) (os_path_join FILES_DIR name) = true)
              (children (fs w) cF) = []) as Hf.
    { rewrite <-Hnone. unfold project_names. by rewrite (listdir_resolves _ _ _ HcF). }
    unfold list_recent_projects, os_path_exists, os_listdir.
    rewrite bind_run, gets_run, (path_isdir_exists _ _ Hdir). cbn [negb].
    rewrite bind_run, bind_run, gets_run, (listdir_resolves _ _ _ HcF).
    unfold lift_os. rewrite ret_run, bind_run, gets_run, Hf. cbn [is_nil].
    unfold print_yellow, print. rewrite bind_run, emit_run, ret_run. reflexivity.
Qed.

Lemma listdir_not_dir (m : tree) (p : path) :
  path_exists m p = true → path_isdir m p = false → listdir m p = inl ENOTDIR.
Proof.
  unfold path_exists, path_isdir, os_stat, stat_with, listdir.
  destruct (locate SYMLOOP_MAX m true [] p) as [e|loc]; [done|].
  by destruct (lookup_node m loc) as [[d| |t]|].
Qed.

(** X7.  The one way in which [list_recent_projects] fails.  It raises
    exactly when [FILES_DIR] exists and is not a directory; the exception is
    then the [NotADirectoryError] of [os.listdir], raised before anything is
    printed. *)
Theorem list_recent_projects_raises (show_all : bool) (w : world) :
  (path_exists (fs w) FILES_DIR = true → path_isdir (fs w) FILES_DIR = false →
   list_recent_projects show_all w = (Raise (NotADirectoryError FILES_DIR), w)) ∧
  (∀ e w', list_recent_projects show_all w = (Raise e, w') →
     e = NotADirectoryError FILES_DIR ∧ w' = w ∧
     path_exists (fs w) FILES_DIR = true ∧ path_isdir (fs w) FILES_DIR = false).
Proof.
  assert (path_exists (fs w) FILES_DIR = true → path_isdir (fs w) FILES_DIR = false →
          list_recent_projects show_all w = (Raise (NotADirectoryError FILES_DIR), w)) as Hfile.
  { intros He Hd. unfold list_recent_projects, os_path_exists, os_listdir.
    rewrite bind_run, gets_run, He. cbn [negb].
    rewrite bind_run, bind_run, gets_run, (listdir_not_dir _ _ He Hd). reflexivity. }
  split; [exact Hfile|].
  intros e w' Hrun.
  destruct (path_exists (fs w) FILES_DIR) eqn:He.
  - destruct (path_isdir (fs w) FILES_DIR) eqn:Hd.
    + destruct (list_recent_projects_run_aux show_all w Hd) as [t Ht]. congruence.
    + rewrite (Hfile eq_refl eq_refl) in Hrun. by injection Hrun as <- <-.
  - destruct (list_recent_projects_nothing_to_list_aux show_all w He) as [t Ht]. congruence.
Qed.

(** X8.  Order of the listing when access times tie.  [FILES_DIR] being a
    directory, the full listing is a permutation of the projects in
    descending (not necessarily strictly) access time, and the projects of
    one access time appear in the order in which [os.listdir] gave them. *)
Theorem list_recent_projects_stable (w : world) :
  path_isdir (fs w) FILES_DIR = true →
  ∃ all t,
    list_recent_projects true w = (Return all, set_trace (trace w ++ t) w) ∧
    all ≡ₚ project_names w ∧
    StronglySorted (λ x y, (atime_of w y ≤ atime_of w x)%Z) all ∧
    ∀ k, filter (λ x, atime_of w x = k) all
         = filter (λ x, atime_of w x = k) (project_names w).
Proof.
  intros Hdir. destruct (list_recent_projects_run_aux true w Hdir) as [t Ht].
  cbv zeta in Ht. cbv iota in Ht.
  exists (sorted_reverse ((λ x, (atime_of w x, x)) <$> project_names w)), t.
  split; [exact Ht|].
  split; [apply sorted_reverse_spec|].
  split; [apply (sorted_reverse_spec (atime_of w))|].
  intros k. apply sorted_reverse_stable.
Qed.

(** ** Selection: the bound on nesting, and what each answer does *)

Lemma resolve_choice_ext (retry1 retry2 : py string) (projects : list string)
    (choice : string) (w : world) :
  (∀ w1, length (stdin w1) ≤ length (stdin w) → retry1 w1 = retry2 w1) →
  resolve_choice retry1 projects choice w = resolve_choice retry2 projects choice w.
Proof.
  intros Hretry. unfold resolve_choice.
  destruct (String.eqb choice "0").
  - rewrite !bind_run.
    destruct (input "Enter the name of the new project: " w) as [[line|e] w1] eqn:Hin;
      [|done].
    apply input_consumes in Hin.
    destruct (negb _); [done|].
    rewrite !bind_run, handle_error_run. apply Hretry. cbn [stdin set_trace]. lia.
  - rewrite !bind_run.
    destruct ((if str_isdigit choice
               then n ← int choice;
                    mret ((1 <=? n)%Z && (n <=? Z.of_nat (length projects))%Z)
               else mret false) w) as [[in_range|e] w1] eqn:Hrange; [|done].
    assert (w1 = w) as ->.
    { revert Hrange. destruct (str_isdigit choice); [|by intros [= _ <-]].
      rewrite bind_run. unfold int. destruct (decimal_value 0 choice); [|done].
      destruct (_ <? _)%Z; [done|].
      rewrite ret_run, ret_run. by intros [= _ <-]. }
    destruct in_range; [done|].
    rewrite !bind_run, handle_error_run. apply Hretry. cbn [stdin set_trace]. lia.
Qed.

Lemma select_project_body_ext (retry1 retry2 : py string) (w : world) :
  (∀ w1, length (stdin w1) < length (stdin w) → retry1 w1 = retry2 w1) →
  select_project_body retry1 w = select_project_body retry2 w.
Proof.
  intros Hretry. unfold select_project_body. rewrite !bind_run.
  destruct (list_recent_projects false w) as [[projects|e] w1] eqn:Hrun1; [|done].
  destruct (tame_list_recent_projects _ _ _ _ Hrun1) as [Hlen1 _].
  rewrite !bind_run.
  destruct (input "Press 'a' to show all projects, select project number, or '0' to create new: " w1)
    as [[line|e] w2] eqn:Hin; [|done].
  apply input_consumes in Hin. cbv zeta. rewrite !bind_run.
  assert (tame (if String.eqb (str_lower (str_strip line)) "a"
                then projects0 ← list_recent_projects true;
                     choice ← input "Select project number or '0' to create new: ";
                     mret (projects0, str_lower (str_strip choice))
                else mret (projects, str_lower (str_strip line)))) as Ht by tame_auto.
  destruct ((if String.eqb (str_lower (str_strip line)) "a"
             then projects0 ← list_recent_projects true;
                  choice ← input "Select project number or '0' to create new: ";
                  mret (projects0, str_lower (str_strip choice))
             else mret (projects, str_lower (str_strip line))) w2)
    as [[[projects' choice]|e] w3] eqn:Hrun3; [|done].
  destruct (Ht _ _ _ Hrun3) as [Hlen3 _].
  apply resolve_choice_ext. intros w4 Hlen4. apply Hretry. lia.
Qed.

Lemma select_project_rec_fuel (d1 d2 : nat) (w : world) :
  length (stdin w) < d1 → length (stdin w) < d2 →
  select_project_rec d1 w = select_project_rec d2 w.
Proof.
  revert d2 w. induction d1 as [|d1 IH]; intros d2 w H1 H2; [lia|].
  destruct d2 as [|d2]; [lia|]. cbn [select_project_rec].
  apply select_project_body_ext. intros w1 Hlt. apply IH; lia.
Qed.

Lemma select_project_rec_enough (depth : nat) (w : world) :
  length (stdin w) < depth → select_project_rec depth w = select_project w.
Proof. intros Hlt. unfold select_project. apply select_project_rec_fuel; lia. Qed.

(** X10.  An index in range.  [FILES_DIR] being a directory, when the answer
    to the first prompt is, once stripped and lowered, the decimal numeral
    (of no more digits than [int] converts) of an [n] between 1 and the
    number of projects listed, [select_project]
    returns the [n]-th project listed (by recency, six at most); it has set
    [CURRENT_PROJECT] to it, read that one line, printed the listing, the
    prompt and two confirmations, and changed nothing else. *)
Theorem select_project_picks_index (w : world) (line : string) (rest : list string) (n : Z) :
  path_isdir (fs w) FILES_DIR = true →
  stdin w = line :: rest →
  str_isdigit (str_lower (str_strip line)) = true →
  decimal_value 0 (str_lower (str_strip line)) = Some n →
  (Z.of_nat (String.length (str_lower (str_strip line))) ≤ int_max_str_digits)%Z →
  (1 ≤ n ≤ Z.of_nat (length (candidates false w)))%Z →
  ∃ name t,
    candidates false w !! Z.to_nat (n - 1) = Some name ∧
    select_project w =
    (Return name,
     set_trace (trace w ++ t ++ [Print (green ("Selected project: " +:+ name));
                                 Print (green ("Current project set to: " +:+ name))])
       (set_environ (<["CURRENT_PROJECT" := name]> (environ w)) (set_stdin rest w))).
Proof.
  intros Hdir Hin Hdigit Hn Hlen Hrange. unfold select_project. cbn [select_project_rec].
  destruct (select_project_body_direct (select_project_rec (length (stdin w))) w line rest
              Hdir Hin (str_isdigit_not_a _ Hdigit)) as [t Ht].
  destruct (resolve_choice_index (select_project_rec (length (stdin w))) (candidates false w)
              _ n (set_stdin rest (set_trace (trace w ++ t) w)) Hdigit Hn Hlen Hrange)
    as (name & Hname & Hrun).
  exists name, t. split; [exact Hname|].
  rewrite Ht, Hrun. unfold set_trace, set_environ, set_stdin.
  cbn [fs atimes environ stdin trace clock ticks].
  by rewrite <-(assoc_L (++)).
Qed.

(** X11.  An answer that is rejected.  [FILES_DIR] being a directory, when
    the answer to the first prompt is, once stripped and lowered, neither
    [a] nor [0] and either not made of digits or the numeral (of no more
    digits than [int] converts) of a number outside 1..(number of projects
    listed), [select_project] logs and prints
    [Invalid choice.] and starts over on the lines that remain: the call is
    the one of [select_project] in a world that differs from the first one
    only by the line read and by what was printed.  The file system, the
    environment and so [CURRENT_PROJECT] are untouched by the rejection.
    (The nested call is one frame deeper in the interpreter, whose recursion
    limit the model leaves out.) *)
Theorem select_project_rejects (w : world) (line : string) (rest : list string) :
  path_isdir (fs w) FILES_DIR = true →
  stdin w = line :: rest →
  String.eqb (str_lower (str_strip line)) "a" = false →
  String.eqb (str_lower (str_strip line)) "0" = false →
  (str_isdigit (str_lower (str_strip line)) = false ∨
   ∃ n, decimal_value 0 (str_lower (str_strip line)) = Some n ∧
        (Z.of_nat (String.length (str_lower (str_strip line))) ≤ int_max_str_digits)%Z ∧
        ¬ (1 ≤ n ≤ Z.of_nat (length (candidates false w)))%Z) →
  ∃ t, select_project w =
       select_project
         (set_stdin rest
            (set_trace (trace w ++ t ++ [LogError "Invalid choice.";
                                         Print (red "Invalid choice.")]) w)).
Proof.
  intros Hdir Hin Ha Hzero Hbad. unfold select_project at 1. cbn [select_project_rec].
  destruct (select_project_body_direct (select_project_rec (length (stdin w))) w line rest
              Hdir Hin Ha) as [t Ht].
  exists t. rewrite Ht, (resolve_choice_invalid _ _ _ _ Hzero Hbad).
  rewrite select_project_rec_enough.
  - f_equal. unfold set_trace, set_stdin. cbn [fs atimes environ stdin trace clock ticks].
    by rewrite <-(assoc_L (++)).
  - cbn [stdin set_trace set_stdin]. rewrite Hin. cbn [length]. lia.
Qed.

(** X12.  Showing all.  When the first answer is [a] (in either case, blanks
    around it ignored), [select_project] lists all the projects and asks
    again; the numeral (of no more digits than [int] converts) of an [n]
    between 1 and the number of all projects then selects the [n]-th of the full listing, which the first listing of
    six may not have shown. *)
Theorem select_project_show_all (w : world) (line line2 : string) (rest : list string)
    (n : Z) :
  path_isdir (fs w) FILES_DIR = true →
  stdin w = line :: line2 :: rest →
  str_lower (str_strip line) = "a" →
  str_isdigit (str_lower (str_strip line2)) = true →
  decimal_value 0 (str_lower (str_strip line2)) = Some n →
  (Z.of_nat (String.length (str_lower (str_strip line2))) ≤ int_max_str_digits)%Z →
  (1 ≤ n ≤ Z.of_nat (length (candidates true w)))%Z →
  ∃ name t,
    candidates true w !! Z.to_nat (n - 1) = Some name ∧
    select_project w =
    (Return name,
     set_trace (trace w ++ t ++ [Print (green ("Selected project: " +:+ name));
                                 Print (green ("Current project set to: " +:+ name))])
       (set_environ (<["CURRENT_PROJECT" := name]> (environ w)) (set_stdin rest w))).
Proof.
  intros Hdir Hin Ha Hdigit Hn Hlen Hrange. unfold select_project. cbn [select_project_rec].
  assert (String.eqb (str_lower (str_strip line)) "a" = true) as Ha'
    by (rewrite Ha; reflexivity).
  destruct (select_project_body_all (select_project_rec (length (stdin w))) w line line2 rest
              Hdir Hin Ha') as [t Ht].
  destruct (resolve_choice_index (select_project_rec (length (stdin w))) (candidates true w)
              _ n (set_stdin rest (set_trace (trace w ++ t) w)) Hdigit Hn Hlen Hrange)
    as (name & Hname & Hrun).
  exists name, t. split; [exact Hname|].
  rewrite Ht, Hrun. unfold set_trace, set_environ, set_stdin.
  cbn [fs atimes environ stdin trace clock ticks].
  by rewrite <-(assoc_L (++)).
Qed.

(** X13.  A new project.  When the first answer is [0], [select_project]
    asks for a name.  A name that is empty once stripped is reported as
    invalid and the selection starts over on the lines that remain, nothing
    having been created; any other name, stripped, is provisioned with
    [ensure_directories_and_symlinks] and, if that returns, becomes
    [CURRENT_PROJECT] and the result. *)
Theorem select_project_new_project (w : world) (line line2 : string) (rest : list string) :
  path_isdir (fs w) FILES_DIR = true →
  stdin w = line :: line2 :: rest →
  str_lower (str_strip line) = "0" →
  ∃ t,
    let w1 := set_stdin rest
                (set_trace (trace w ++ t ++ [Prompt "Enter the name of the new project: "]) w) in
    if String.eqb (str_strip line2) EmptyString then
      select_project w =
      select_project (set_trace (trace w1 ++ [LogError "Invalid project name.";
                                              Print (red "Invalid project name.")]) w1)
    else
      select_project w =
      (ensure_directories_and_symlinks (str_strip line2) ;;
       print_green ("Created new project: " +:+ str_strip line2) ;;
       environ_set "CURRENT_PROJECT" (str_strip line2) ;;
       print_green ("Current project set to: " +:+ str_strip line2) ;;
       mret (str_strip line2)) w1.
Proof.
  intros Hdir Hin Hzero.
  assert (String.eqb (str_lower (str_strip line)) "a" = false) as Ha
    by (rewrite Hzero; reflexivity).
  destruct (select_project_body_direct (select_project_rec (length (stdin w))) w line
              (line2 :: rest) Hdir Hin Ha) as [t Ht].
  assert (select_project w =
          resolve_choice (select_project_rec (length (stdin w))) (candidates false w) "0"
            (set_stdin (line2 :: rest) (set_trace (trace w ++ t) w))) as Hsel.
  { unfold select_project. cbn [select_project_rec]. by rewrite Ht, Hzero. }
  exists t. cbv zeta. rewrite Hsel.
  destruct (String.eqb (str_strip line2) EmptyString) eqn:Hname.
  - apply String.eqb_eq in Hname.
    rewrite (resolve_choice_new_empty _ _ _ line2 rest) by done.
    rewrite select_project_rec_enough.
    + f_equal. unfold set_trace, set_stdin. cbn [fs atimes environ stdin trace clock ticks].
      by rewrite <-!(assoc_L (++)).
    + cbn [stdin set_trace set_stdin]. rewrite Hin. cbn [length]. lia.
  - apply String.eqb_neq in Hname.
    rewrite (resolve_choice_new _ _ _ line2 rest) by done.
    f_equal. unfold set_trace, set_stdin. cbn [fs atimes environ stdin trace clock ticks].
    by rewrite <-!(assoc_L (++)).
Qed.

(** X14.  End of input.  [FILES_DIR] being a directory, when no line is
    waiting on standard input, [select_project] prints the listing and the
    prompt and then fails with the [EOFError] of [input]; it does not
    retry. *)
Theorem select_project_eof (w : world) :
  path_isdir (fs w) FILES_DIR = true →
  stdin w = [] →
  ∃ t, select_project w = (Raise EOFError, set_trace (trace w ++ t) w).
Proof.
  intros Hdir Hin. destruct (list_recent_projects_run false w Hdir) as [t Hrun].
  exists (t ++ [Prompt "Press 'a' to show all projects, select project number, or '0' to create new: "]).
  unfold select_project. cbn [select_project_rec]. unfold select_project_body.
  rewrite bind_run, Hrun, bind_run, input_eof by exact Hin.
  cbn [trace set_trace]. by rewrite (assoc_L (++)).
Qed.

Lemma bind_Return_inv {A B} (c : py A) (f : A → py B) (w : world) (b : B) (w' : world) :
  (c ≫= f) w = (Return b, w') →
  ∃ a w1, c w = (Return a, w1) ∧ f a w1 = (Return b, w').
Proof. rewrite bind_run. destruct (c w) as [[a|e] w1]; [by exists a, w1|done]. Qed.

Lemma finish_tail (name : string) (w : world) :
  (environ_set "CURRENT_PROJECT" name ;;
   print_green ("Current project set to: " +:+ name) ;;
   mret name) w =
  (Return name,
   set_trace (trace w ++ [Print (green ("Current project set to: " +:+ name))])
     (set_environ (<["CURRENT_PROJECT" := name]> (environ w)) w)).
Proof. reflexivity. Qed.

Lemma finish_current (name : string) (w : world) (r : string) (w' : world) :
  (environ_set "CURRENT_PROJECT" name ;;
   print_green ("Current project set to: " +:+ name) ;;
   mret name) w = (Return r, w') →
  environ w' !! "CURRENT_PROJECT" = Some r.
Proof.
  rewrite finish_tail. intros [= <- <-]. cbn [environ set_trace set_environ].
  apply lookup_insert_eq.
Qed.

Lemma resolve_choice_current (retry : py string) (projects : list string) (choice : string)
    (w : world) (name : string) (w' : world) :
  (∀ w1 name w', retry w1 = (Return name, w') →
                 environ w' !! "CURRENT_PROJECT" = Some name) →
  resolve_choice retry projects choice w = (Return name, w') →
  environ w' !! "CURRENT_PROJECT" = Some name.
Proof.
  intros Hretry. unfold resolve_choice. cbv zeta.
  destruct (String.eqb choice "0").
  - intros (line & w1 & _ & Hrest)%bind_Return_inv.
    destruct (negb _).
    + apply bind_Return_inv in Hrest as ([] & w2 & _ & Hrest).
      apply bind_Return_inv in Hrest as ([] & w3 & _ & Hrest).
      by apply finish_current in Hrest.
    + apply bind_Return_inv in Hrest as ([] & w2 & _ & Hrest). by eapply Hretry.
  - intros (in_range & w1 & _ & Hrest)%bind_Return_inv.
    destruct in_range.
    + apply bind_Return_inv in Hrest as (n & w2 & _ & Hrest).
      destruct (projects !! Z.to_nat (n - 1)) as [project_name|]; [|done].
      apply bind_Return_inv in Hrest as ([] & w3 & _ & Hrest).
      by apply finish_current in Hrest.
    + apply bind_Return_inv in Hrest as ([] & w2 & _ & Hrest). by eapply Hretry.
Qed.

Lemma select_project_rec_current (depth : nat) (w : world) (name : string) (w' : world) :
  select_project_rec depth w = (Return name, w') →
  environ w' !! "CURRENT_PROJECT" = Some name.
Proof.
  revert w name w'. induction depth as [|depth IH]; intros w name w'; [done|].
  cbn [select_project_rec]. unfold select_project_body.
  intros (projects & w1 & _ & Hrest)%bind_Return_inv.
  apply bind_Return_inv in Hrest as (line & w2 & _ & Hrest).
  cbv zeta in Hrest.
  apply bind_Return_inv in Hrest as ([projects' choice] & w3 & _ & Hrest).
  by eapply resolve_choice_current.
Qed.

Lemma select_project_sets_current_aux (w : world) (name : string) (w' : world) :
  select_project w = (Return name, w') →
  environ w' !! "CURRENT_PROJECT" = Some name.
Proof. unfold select_project. apply select_project_rec_current. Qed.

(** X15.  Whenever [select_project] returns a project name, whatever the
    answers and the retries that led to it, [CURRENT_PROJECT] holds that
    name in the environment it leaves. *)
Theorem select_project_sets_current (w : world) (name : string) (w' : world) :
  select_project w = (Return name, w') →
  environ w' !! "CURRENT_PROJECT" = Some name.
Proof. apply select_project_sets_current_aux. Qed.

(** X16.  A numeral that is too long.  [FILES_DIR] being a directory, when
    the answer to the first prompt is, once stripped and lowered, made of
    digits and longer than the [int_max_str_digits] digits that [int]
    converts, [select_project] does not reject it as an invalid choice:
    after the listing and the prompt, [int] raises [ValueError], which
    leaves [select_project]; nothing is reported and no new prompt is
    written. *)
Theorem select_project_long_numeral (w : world) (line : string) (rest : list string) :
  path_isdir (fs w) FILES_DIR = true →
  stdin w = line :: rest →
  str_isdigit (str_lower (str_strip line)) = true →
  (int_max_str_digits < Z.of_nat (String.length (str_lower (str_strip line))))%Z →
  ∃ t, select_project w =
       (Raise (ValueError (str_lower (str_strip line))),
        set_stdin rest (set_trace (trace w ++ t) w)).
Proof.
  intros Hdir Hin Hdigit Hlen. unfold select_project. cbn [select_project_rec].
  destruct (select_project_body_direct (select_project_rec (length (stdin w))) w line rest
              Hdir Hin (str_isdigit_not_a _ Hdigit)) as [t Ht].
  exists t. rewrite Ht. unfold resolve_choice.
  assert (String.eqb (str_lower (str_strip line)) "0" = false) as ->.
  { destruct (String.eqb_spec (str_lower (str_strip line)) "0") as [Heq|]; [|done].
    rewrite Heq in Hlen. by vm_compute in Hlen. }
  rewrite Hdigit, bind_run, bind_run, int_too_long by done. reflexivity.
Qed.

(** ** The interactive loop *)

Lemma interactive_step_eof (loop : option string → py (option string))
    (project_name : option string) (w : world) :
  stdin w = [] →
  interactive_step loop project_name w =
  (Raise EOFError, set_trace (trace w ++ menu ++ [Prompt "Select an option: "]) w).
Proof.
  intros Hin. unfold interactive_step, print_yellow, print.
  do 5 (rewrite bind_run, emit_run; cbv beta iota).
  rewrite bind_run, input_eof by exact Hin.
  cbn [trace set_trace]. unfold menu.
  rewrite <-!(assoc_L (++)). reflexivity.
Qed.

Lemma interactive_step_ext (loop1 loop2 : option string → py (option string))
    (project_name : option string) (w : world) :
  (∀ pn w1, length (stdin w1) < length (stdin w) → loop1 pn w1 = loop2 pn w1) →
  interactive_step loop1 project_name w = interactive_step loop2 project_name w.
Proof.
  intros Hloop. destruct (stdin w) as [|choice rest] eqn:Hin.
  { by rewrite !interactive_step_eof. }
  rewrite !(interactive_step_read _ _ _ choice rest Hin).
  set (w0 := set_stdin rest (set_trace (trace w ++ menu ++ [Prompt "Select an option: "]) w)).
  assert (∀ pn w1, length (stdin w1) ≤ length (stdin w0) → loop1 pn w1 = loop2 pn w1)
    as Hloop0.
  { intros pn w1 Hlen. apply Hloop. cbn [stdin w0 set_stdin] in Hlen. cbn [length]. lia. }
  assert (∀ (c : py unit) pn w1, tame c → length (stdin w1) ≤ length (stdin w0) →
            (c ;; loop1 pn) w1 = (c ;; loop2 pn) w1) as Hthen.
  { intros c pn w1 Hc Hlen. rewrite !bind_run.
    destruct (c w1) as [[[]|e] w2] eqn:Hrun; [|done].
    apply Hloop0. destruct (Hc _ _ _ Hrun) as [Hlen' _]. lia. }
  destruct (String.eqb choice "1").
  { rewrite !bind_run. destruct (select_project w0) as [[name|e] w1] eqn:Hrun; [|done].
    destruct (tame_select_project _ _ _ Hrun) as [Hlen _].
    apply Hthen; [apply tame_print|done]. }
  destruct (String.eqb choice "2"); [apply Hthen; [unfold print_red; tame_auto|done]|].
  destruct (String.eqb choice "3"); [apply Hthen; [unfold print_red; tame_auto|done]|].
  destruct (String.eqb choice "4"); [done|].
  apply Hthen; [apply tame_print|done].
Qed.

Lemma interactive_loop_fuel (d1 d2 : nat) (project_name : option string) (w : world) :
  length (stdin w) < d1 → length (stdin w) < d2 →
  interactive_loop d1 project_name w = interactive_loop d2 project_name w.
Proof.
  revert d2 project_name w. induction d1 as [|d1 IH]; intros d2 pn w H1 H2; [lia|].
  destruct d2 as [|d2]; [lia|]. cbn [interactive_loop].
  apply interactive_step_ext. intros pn' w1 Hlt. apply IH; lia.
Qed.

Lemma interactive_mode_loop (rounds : nat) (w : world) :
  length (stdin w) < rounds →
  interactive_mode w =
  (project_name ← interactive_loop rounds None;
   if truthy project_name then
     customize_terminal (default EmptyString project_name) HFS ;;
     launch_xterm_with_env (default EmptyString project_name) HFS
   else
     print_red "No project selected. Cannot launch xterm.") w.
Proof.
  intros Hlt. unfold interactive_mode. rewrite !bind_run.
  rewrite (interactive_loop_fuel (S (length (stdin w))) rounds None w) by lia.
  reflexivity.
Qed.

(** X17.  What the first answer does when no project is held.
    [4] leaves [interactive_mode] at once: the menu, the prompt, the exit
    line and the warning that no xterm can be launched are printed, one line
    is read and nothing else changes.  An answer other than [1], [2], [3]
    and [4] is reported as invalid and the session goes on as a new session
    on the lines that remain.  With no line waiting, the session ends with
    the [EOFError] of [input] after the menu and the prompt. *)
Theorem interactive_mode_first_answer (w : world) :
  (∀ rest, stdin w = "4" :: rest →
     interactive_mode w =
     (Return tt,
      set_stdin rest
        (set_trace (trace w ++ menu ++
           [Prompt "Select an option: ";
            Print (green "Exiting Interactive Mode.");
            Print (red "No project selected. Cannot launch xterm.")]) w))) ∧
  (∀ choice rest, stdin w = choice :: rest →
     choice ∉ ["1"; "2"; "3"; "4"] →
     interactive_mode w =
     interactive_mode
       (set_stdin rest
          (set_trace (trace w ++ menu ++
             [Prompt "Select an option: ";
              Print (red "Invalid choice, please try again.")]) w))) ∧
  (stdin w = [] →
     interactive_mode w =
     (Raise EOFError, set_trace (trace w ++ menu ++ [Prompt "Select an option: "]) w)).
Proof.
  split; [|split].
  - intros rest Hin. unfold interactive_mode. rewrite bind_run.
    cbn [interactive_loop]. rewrite (interactive_step_read _ _ _ "4" rest Hin).
    cbn [String.eqb Ascii.eqb Bool.eqb]. unfold print_green, print_red, print.
    rewrite bind_run, emit_run, ret_run. cbn [truthy]. rewrite emit_run.
    f_equal. unfold set_trace, set_stdin. cbn [fs atimes environ stdin trace clock ticks].
    by rewrite <-!(assoc_L (++)).
  - intros choice rest Hin Hother.
    assert (String.eqb choice "1" = false ∧ String.eqb choice "2" = false ∧
            String.eqb choice "3" = false ∧ String.eqb choice "4" = false)
      as (H1 & H2 & H3 & H4).
    { split_and!; apply String.eqb_neq; intros ->; apply Hother;
        repeat first [apply list_elem_of_here | apply list_elem_of_further]. }
    rewrite (interactive_mode_loop (S (length (stdin w))) w) by lia.
    rewrite bind_run. cbn [interactive_loop].
    rewrite (interactive_step_read _ _ _ choice rest Hin), H1, H2, H3, H4.
    rewrite bind_run, print_red_run.
    assert (set_trace
              (trace (set_stdin rest
                        (set_trace (trace w ++ menu ++ [Prompt "Select an option: "]) w))
               ++ [Print (red "Invalid choice, please try again.")])
              (set_stdin rest
                 (set_trace (trace w ++ menu ++ [Prompt "Select an option: "]) w))
            = set_stdin rest
                (set_trace (trace w ++ menu ++
                   [Prompt "Select an option: ";
                    Print (red "Invalid choice, please try again.")]) w)) as ->.
    { unfold set_trace, set_stdin. cbn [fs atimes environ stdin trace clock ticks].
      by rewrite <-!(assoc_L (++)). }
    rewrite (interactive_mode_loop (length (stdin w)) _).
    + by rewrite bind_run.
    + cbn [stdin set_trace set_stdin]. rewrite Hin. cbn [length]. lia.
  - intros Hin. unfold interactive_mode. rewrite bind_run.
    cbn [interactive_loop]. by rewrite interactive_step_eof.
Qed.

(** ** Making directories: conflicts and missing parents *)

(** X25.  A path that is taken by something other than a directory.  When
    [directory] names an entry that is not a directory (a regular file, or a
    symbolic link that does not lead to a directory, dangling ones
    included), [ensure_directory_exists] raises the [FileExistsError] of
    [os.mkdir] for that path and leaves the world as it was: the entry is
    not replaced, and nothing is logged or printed. *)
Theorem ensure_directory_exists_conflict (directory : path) (nd : node) (w : world) :
  os_lstat (fs w) directory = inr nd →
  path_isdir (fs w) directory = false →
  ensure_directory_exists directory w = (Raise (FileExistsError directory), w).
Proof.
  intros Hlstat Hdir.
  destruct (decide (directory = [])) as [->|Hne]; [done|].
  destruct (exists_last Hne) as (p & c & ->).
  pose proof (os_lstat_parent _ _ _ _ Hlstat) as Hparent.
  unfold ensure_directory_exists, os_path_isdir.
  rewrite bind_run, gets_run, Hdir. cbn [negb].
  rewrite bind_run, os_makedirs_snoc, (path_isdir_exists _ _ Hparent). cbn [negb].
  rewrite bind_run, ret_run.
  unfold os_mkdir. revert Hlstat. unfold os_lstat, stat_with.
  destruct (locate SYMLOOP_MAX (fs w) false [] (p ++ [c])) as [e|loc]; [done|].
  by destruct (lookup_node (fs w) loc).
Qed.

Lemma add_dirs_under_snoc (base : path) (cs : list string) (c : string) (m : tree) :
  add_dirs_under base (cs ++ [c]) m = <[base ++ cs ++ [c] := Dir]> (add_dirs_under base cs m).
Proof.
  revert base m. induction cs as [|c0 cs IH]; intros base m; [done|].
  cbn [app add_dirs_under]. rewrite IH. by rewrite <-(assoc_L (++) base [c0]).
Qed.

Lemma add_dirs_under_new (base : path) (cs : list string) (m : tree) (k : nat) :
  0 < k ≤ length cs → add_dirs_under base cs m !! (base ++ take k cs) = Some Dir.
Proof.
  revert k. induction cs as [|c cs IH] using rev_ind; intros k; [cbn [length]; lia|].
  rewrite length_app. cbn [length]. intros Hk. rewrite add_dirs_under_snoc.
  destruct (decide (k = length cs + 1)) as [->|Hne].
  - rewrite take_ge by (rewrite length_app; cbn [length]; lia). apply lookup_insert_eq.
  - rewrite take_app_le by lia. rewrite lookup_insert_ne; [apply IH; lia|].
    intros Heq. apply (f_equal length) in Heq. rewrite !length_app, length_take in Heq.
    cbn [length] in Heq. lia.
Qed.

Lemma add_dirs_under_old (base : path) (cs : list string) (m : tree) (q : path) :
  (∀ k, 0 < k ≤ length cs → q ≠ base ++ take k cs) →
  add_dirs_under base cs m !! q = m !! q.
Proof.
  induction cs as [|c cs IH] using rev_ind; intros Hq; [done|].
  rewrite add_dirs_under_snoc, lookup_insert_ne.
  - apply IH. intros k Hk. specialize (Hq k). rewrite length_app, take_app_le in Hq by lia.
    apply Hq. cbn [length]. lia.
  - specialize (Hq (length cs + 1)). rewrite length_app, take_ge in Hq
      by (rewrite length_app; cbn [length]; lia).
    intros Heq. apply Hq; [cbn [length]; lia|done].
Qed.

(** Below an absent entry of a well-formed tree there is nothing. *)
Lemma wf_tree_absent_below (m : tree) (p rest : path) :
  wf_tree m → p ≠ [] → m !! p = None → m !! (p ++ rest) = None.
Proof.
  intros Hwf Hne Hnone. induction rest as [|c rest IH] using rev_ind.
  - by rewrite app_nil_r.
  - rewrite (assoc_L (++)). apply wf_tree_absent_child; [done|].
    destruct (p ++ rest) as [|a l] eqn:Hp; [by destruct p|]. exact IH.
Qed.

Lemma locate_absent_snoc (n : nat) (m : tree) (cur rest : path) (c : string) :
  lookup_node m cur = Some Dir →
  (locate n m true cur rest = inl ENOENT ∨
   ∃ loc, locate n m true cur rest = inr loc ∧ lookup_node m loc = None) →
  locate n m true cur (rest ++ [c]) = inl ENOENT.
Proof.
  revert n cur rest. refine (locate_induction m _ _ _).
  - intros n cur Hcur. rewrite locate_nil. intros [|(loc & [= <-] & Hnone)]; congruence.
  - intros n cur c0 rest IHdir IHlink Hcur. cbn [app]. rewrite !locate_cons.
    destruct (m !! (cur ++ [c0])) as [[d| |t]|] eqn:Hc.
    + destruct rest; intros [|(loc & Hloc & Hnone)]; try done.
      injection Hloc as <-. rewrite lookup_node_snoc in Hnone. congruence.
    + intros H. apply (IHdir eq_refl); [|done]. by rewrite lookup_node_snoc.
    + destruct n as [|n'].
      { destruct rest; intros [|(loc & Hloc & Hnone)]; done. }
      intros H. destruct (rest ++ [c]) as [|x l] eqn:Hrc.
      { by destruct rest. }
      rewrite <-Hrc, (assoc_L (++)). apply (IHlink t n' eq_refl eq_refl); [done|].
      by destruct rest.
    + by destruct rest.
Qed.

(** A path that leads through an absent entry does not exist. *)
Lemma locate_through_absent (m : tree) (d cd : path) (c : string) (rest : path) :
  resolves m d cd → m !! (cd ++ [c]) = None →
  locate SYMLOOP_MAX m true [] (d ++ c :: rest) = inl ENOENT ∨
  ∃ loc, locate SYMLOOP_MAX m true [] (d ++ c :: rest) = inr loc ∧ lookup_node m loc = None.
Proof.
  intros [Hloc Hdir] Hnone. induction rest as [|c' rest IH] using rev_ind.
  - right. exists (cd ++ [c]). split; [|by rewrite lookup_node_snoc].
    apply locate_snoc; [done|by rewrite Hnone|done].
  - left. replace (d ++ c :: rest ++ [c']) with ((d ++ c :: rest) ++ [c'])
      by (by rewrite <-(assoc_L (++))).
    by apply locate_absent_snoc.
Qed.

Lemma path_exists_through_absent (m : tree) (d cd : path) (c : string) (rest : path) :
  resolves m d cd → m !! (cd ++ [c]) = None → path_exists m (d ++ c :: rest) = false.
Proof.
  intros Hres Hnone. unfold path_exists, os_stat, stat_with.
  destruct (locate_through_absent m d cd c rest Hres Hnone) as [->|(loc & -> & ->)]; done.
Qed.

Lemma os_makedirs_chain (d cd : path) (c1 : string) (cs : list string) (w : world) :
  wf_tree (fs w) → resolves (fs w) d cd → fs w !! (cd ++ [c1]) = None →
  os_makedirs (d ++ c1 :: cs) w = (Return tt, set_fs (add_dirs_under cd (c1 :: cs) (fs w)) w) ∧
  fs w ⊆ add_dirs_under cd (c1 :: cs) (fs w) ∧
  resolves (add_dirs_under cd (c1 :: cs) (fs w)) (d ++ c1 :: cs) (cd ++ c1 :: cs) ∧
  (∀ rest, rest ≠ [] → add_dirs_under cd (c1 :: cs) (fs w) !! (cd ++ (c1 :: cs) ++ rest) = None).
Proof.
  intros Hwf Hres Hnone. induction cs as [|c cs IH] using rev_ind.
  - assert (fs w ⊆ <[cd ++ [c1] := Dir]> (fs w)) as Hsub by (by apply insert_subseteq).
    cbn [add_dirs_under]. split_and!.
    + rewrite os_makedirs_snoc.
      assert (path_exists (fs w) d = true) as ->.
      { apply path_isdir_exists, path_isdir_resolves. by exists cd. }
      cbn [negb]. rewrite bind_run, ret_run. by apply os_mkdir_child.
    + done.
    + apply resolves_child; [by eapply resolves_weaken|apply lookup_insert_eq].
    + intros rest Hrest. rewrite lookup_insert_ne.
      * rewrite (assoc_L (++)). apply wf_tree_absent_below; [done|by destruct cd|done].
      * intros Heq. apply (f_equal length) in Heq. rewrite !length_app in Heq.
        cbn [length] in Heq. destruct rest; [done|]. cbn [length] in Heq. lia.
  - destruct IH as (Hrun & Hsub & Hres' & Habove).
    replace (c1 :: cs ++ [c]) with ((c1 :: cs) ++ [c]) by done.
    rewrite add_dirs_under_snoc.
    set (m1 := add_dirs_under cd (c1 :: cs) (fs w)) in *.
    assert (cd ++ (c1 :: cs) ++ [c] = (cd ++ c1 :: cs) ++ [c]) as Hk
      by (by rewrite (assoc_L (++))).
    assert (d ++ (c1 :: cs) ++ [c] = (d ++ c1 :: cs) ++ [c]) as Hd
      by (by rewrite (assoc_L (++))).
    rewrite Hk, Hd.
    assert (m1 !! ((cd ++ c1 :: cs) ++ [c]) = None) as Hfree
      by (rewrite <-Hk; by apply Habove).
    assert (m1 ⊆ <[(cd ++ c1 :: cs) ++ [c] := Dir]> m1) as Hsub1
      by (by apply insert_subseteq).
    split_and!.
    + rewrite os_makedirs_snoc.
      rewrite (path_exists_through_absent _ _ _ _ _ Hres Hnone). cbn [negb].
      rewrite bind_run. unfold except_FileExistsError_pass. rewrite Hrun.
      by rewrite (os_mkdir_child (d ++ c1 :: cs) (cd ++ c1 :: cs) c).
    + by etrans.
    + apply resolves_child; [by eapply resolves_weaken|apply lookup_insert_eq].
    + intros rest Hrest. rewrite lookup_insert_ne.
      * replace (cd ++ ((c1 :: cs) ++ [c]) ++ rest) with (cd ++ (c1 :: cs) ++ (c :: rest))
          by (by rewrite <-(assoc_L (++) (c1 :: cs) [c] rest)).
        by apply Habove.
      * intros Heq. apply (f_equal length) in Heq. rewrite !length_app in Heq.
        cbn [length] in Heq. destruct rest; [done|]. cbn [length] in Heq. lia.
Qed.

Lemma path_isdir_prefix (m : tree) (p rest : path) :
  path_isdir m (p ++ rest) = true → path_isdir m p = true.
Proof.
  induction rest as [|c rest IH] using rev_ind; [by rewrite app_nil_r|].
  rewrite (assoc_L (++)). intros Hd%path_isdir_exists%path_exists_parent. by apply IH.
Qed.

Lemma ensure_directory_exists_chain (d cd : path) (c1 : string) (cs : list string)
    (w : world) :
  wf_tree (fs w) → resolves (fs w) d cd → fs w !! (cd ++ [c1]) = None →
  ensure_directory_exists (d ++ c1 :: cs) w =
  (Return tt,
   set_trace (trace w ++
     [LogInfo ("Created directory: " +:+ show_path (d ++ c1 :: cs));
      Print (yellow ("Directory created: " +:+ show_path (d ++ c1 :: cs)))])
     (set_fs (add_dirs_under cd (c1 :: cs) (fs w)) w)).
Proof.
  intros Hwf Hres Hnone.
  destruct (os_makedirs_chain d cd c1 cs w Hwf Hres Hnone) as (Hrun & _).
  unfold ensure_directory_exists, os_path_isdir. rewrite bind_run, gets_run.
  assert (path_isdir (fs w) (d ++ c1 :: cs) = false) as ->.
  { apply not_true_is_false. intros Hd%path_isdir_exists.
    by rewrite (path_exists_through_absent _ _ _ _ _ Hres Hnone) in Hd. }
  cbn [negb]. rewrite bind_run, Hrun.
  unfold logging_info, print_yellow, print. rewrite bind_run, emit_run, emit_run.
  cbn [trace set_trace set_fs]. by rewrite <-(assoc_L (++)).
Qed.

(** X26.  Missing parents.  In a well-formed tree, when the path
    [d/c1/.../cn] leads from an existing directory [d] through an absent
    entry [c1], [ensure_directory_exists] returns having made every
    directory on the way, [d/c1], [d/c1/c2], ... and the last, and nothing
    else; it logs and prints one line only, for the last one.  The tree it
    leaves is described by [add_dirs_under], whose entries the second and
    third parts spell out. *)
Theorem ensure_directory_exists_makes_parents (d cd : path) (c1 : string)
    (cs : list string) (w : world) :
  wf_tree (fs w) → resolves (fs w) d cd → fs w !! (cd ++ [c1]) = None →
  ensure_directory_exists (d ++ c1 :: cs) w =
  (Return tt,
   set_trace (trace w ++
     [LogInfo ("Created directory: " +:+ show_path (d ++ c1 :: cs));
      Print (yellow ("Directory created: " +:+ show_path (d ++ c1 :: cs)))])
     (set_fs (add_dirs_under cd (c1 :: cs) (fs w)) w)) ∧
  (∀ k, 0 < k ≤ S (length cs) →
     add_dirs_under cd (c1 :: cs) (fs w) !! (cd ++ take k (c1 :: cs)) = Some Dir ∧
     path_isdir (add_dirs_under cd (c1 :: cs) (fs w)) (d ++ take k (c1 :: cs)) = true) ∧
  (∀ q, (∀ k, 0 < k ≤ S (length cs) → q ≠ cd ++ take k (c1 :: cs)) →
     add_dirs_under cd (c1 :: cs) (fs w) !! q = fs w !! q).
Proof.
  intros Hwf Hres Hnone.
  destruct (os_makedirs_chain d cd c1 cs w Hwf Hres Hnone) as (Hrun & Hsub & Hres' & _).
  split_and!.
  - by apply ensure_directory_exists_chain.
  - intros k Hk. split; [by apply add_dirs_under_new|].
    apply (path_isdir_prefix _ _ (drop k (c1 :: cs))).
    rewrite <-(assoc_L (++)), take_drop. apply path_isdir_resolves. by eexists.
  - intros q Hq. by apply add_dirs_under_old.
Qed.


(** X29.  Backing up a project that does not exist.  In a well-formed tree,
    when the project directory is an absent entry of an existing directory
    (and its path holds no wildcard character), [create_backup] does not
    fail: the snapshot directory is made together
    with its missing parents, so the call creates the project directory, a
    [BACKUPS] directory in it and the empty snapshot in that, then reports
    that no [.hip] files were found.  Nothing else changes but the clock
    reading taken. *)
Theorem create_backup_missing_project (d cd : path) (name : string) (w : world) :
  wf_tree (fs w) → resolves (fs w) d cd → fs w !! (cd ++ [name]) = None →
  existsb has_magic (os_path_join d name) = false →
  create_backup (os_path_join d name) None w =
  (Return tt,
   set_trace (trace w ++
     [LogInfo ("Created directory: " +:+
               show_path (d ++ [name; "BACKUPS"; strftime_stamp (clock w (ticks w))]));
      Print (yellow ("Directory created: " +:+
               show_path (d ++ [name; "BACKUPS"; strftime_stamp (clock w (ticks w))])));
      Print (red "No .hip files found for backup.")])
     (set_fs (add_dirs_under cd [name; "BACKUPS"; strftime_stamp (clock w (ticks w))] (fs w))
        (set_ticks (S (ticks w)) w))).
Proof.
  intros Hwf Hres Hnone Hplain.
  set (ts := strftime_stamp (clock w (ticks w))).
  set (m' := add_dirs_under cd [name; "BACKUPS"; ts] (fs w)).
  assert (hip_files m' (d ++ [name]) = []) as Hhip.
  { destruct (os_makedirs_chain d cd name ["BACKUPS"; ts] w Hwf Hres Hnone)
      as (_ & Hsub & _ & _).
    assert (m' !! (cd ++ [name]) = Some Dir) as Hdir
      by exact (add_dirs_under_new cd [name; "BACKUPS"; ts] (fs w) 1 ltac:(cbn [length]; lia)).
    assert (resolves m' (d ++ [name]) (cd ++ [name])) as Hres'.
    { apply resolves_child; [by eapply resolves_weaken|done]. }
    apply (hip_files_nil _ _ _ Hplain Hres'). intros c [nd Hc].
    destruct (decide (c = "BACKUPS")) as [->|Hne]; [done|].
    unfold m' in Hc. rewrite add_dirs_under_old in Hc.
    - rewrite wf_tree_absent_below in Hc; [done|done|by destruct cd|done].
    - intros k Hk Heq. cbn [length] in Hk.
      destruct k as [|[|[|k]]]; [lia| | |]; cbn [take] in Heq.
      + apply (f_equal length) in Heq. rewrite !length_app in Heq. cbn [length] in Heq. lia.
      + change (cd ++ [name; "BACKUPS"]) with (cd ++ [name] ++ ["BACKUPS"]) in Heq.
        rewrite (assoc_L (++)) in Heq. by apply app_inj_tail in Heq as [_ ->].
      + apply (f_equal length) in Heq. rewrite !length_app in Heq. cbn [length] in Heq. lia. }
  unfold create_backup, os_path_join. cbv zeta.
  rewrite bind_run, datetime_now_run. fold ts.
  replace (((d ++ [name]) ++ ["BACKUPS"]) ++ [ts]) with (d ++ name :: ["BACKUPS"; ts])
    by (by rewrite <-!(assoc_L (++))).
  rewrite bind_run, (ensure_directory_exists_chain d cd name ["BACKUPS"; ts]) by done.
  cbn [fs set_ticks]. fold m'.
  unfold glob_hip. rewrite bind_run, gets_run. cbn [fs set_trace set_fs]. rewrite Hhip.
  cbn [is_nil]. rewrite print_red_run.
  f_equal. unfold set_trace, set_fs, set_ticks. cbn [fs atimes environ stdin trace clock ticks].
  by rewrite <-(assoc_L (++)).
Qed.

(** X18.  The hand-off uses the project selected in the session.  When the
    first answer is [1], [select_project] returns a (non-empty) name and the
    next answer is [4], [interactive_mode] goes on with
    [customize_terminal] and [launch_xterm_with_env] for that name and the
    default Houdini version, after printing the selection, the menu, the
    prompt and the exit line. *)
Theorem interactive_mode_hands_off_selection (w : world) (rest rest' : list string)
    (name : string) (w1 : world) :
  stdin w = "1" :: rest →
  select_project
    (set_stdin rest (set_trace (trace w ++ menu ++ [Prompt "Select an option: "]) w))
    = (Return name, w1) →
  stdin w1 = "4" :: rest' →
  name ≠ EmptyString →
  interactive_mode w =
  (customize_terminal name HFS ;; launch_xterm_with_env name HFS)
    (set_stdin rest'
       (set_trace (trace w1 ++ [Print (green ("Selected project: " +:+ name))] ++ menu ++
                   [Prompt "Select an option: "; Print (green "Exiting Interactive Mode.")])
          w1)).
Proof.
  intros Hin Hsel Hin1 Hname. unfold interactive_mode. rewrite bind_run.
  cbn [interactive_loop]. rewrite (interactive_step_read _ _ _ "1" rest Hin).
  cbn [String.eqb Ascii.eqb Bool.eqb]. rewrite bind_run, Hsel.
  unfold print_green at 1. unfold print. rewrite bind_run, emit_run.
  rewrite Hin. cbn [length interactive_loop].
  rewrite (interactive_step_read _ _ _ "4" rest') by exact Hin1.
  cbn [String.eqb Ascii.eqb Bool.eqb]. unfold print_green at 1. unfold print.
  rewrite bind_run, emit_run, ret_run.
  assert (truthy (Some name) = true) as ->.
  { cbn [truthy]. apply negb_true_iff, String.eqb_neq, Hname. }
  cbn [default]. f_equal.
  unfold set_trace, set_stdin. cbn [fs atimes environ stdin trace clock ticks].
  by rewrite <-!(assoc_L (++)).
Qed.

(** ** The launcher *)

Lemma launch_xterm_with_env_unfold (project_name hfs_version : string) :
  launch_xterm_with_env project_name hfs_version =
  (write_file temp_env_file (houdini_setup project_name hfs_version) ;;
   os_system (xterm_cmd project_name hfs_version) ;;
   print_green ("Launched xterm for project '" +:+ project_name
                +:+ "' with Houdini " +:+ hfs_version +:+ ".")).
Proof. reflexivity. Qed.

Lemma launch_after_write (project_name hfs_version : string) (w w1 : world) :
  write_file temp_env_file (houdini_setup project_name hfs_version) w = (Return tt, w1) →
  launch_xterm_with_env project_name hfs_version w =
  (Return tt,
   set_trace (trace w1 ++
     [System (xterm_cmd project_name hfs_version);
      Print (green ("Launched xterm for project '" +:+ project_name
                    +:+ "' with Houdini " +:+ hfs_version +:+ "."))]) w1).
Proof.
  intros Hw. rewrite launch_xterm_with_env_unfold, bind_run, Hw.
  unfold os_system, print_green, print. rewrite bind_run, emit_run, emit_run.
  cbn [trace set_trace]. by rewrite <-(assoc_L (++)).
Qed.

Lemma locate_overwrite (n : nat) (m : tree) (loc : path) (d d' : string) (fl : bool)
    (cur rest : path) :
  m !! loc = Some (File d) →
  locate n (<[loc := File d']> m) fl cur rest = locate n m fl cur rest.
Proof.
  intros Hf. revert n cur rest. refine (locate_induction m _ _ _).
  - intros n cur. by rewrite !locate_nil.
  - intros n cur c rest IHdir IHlink. rewrite !locate_cons.
    destruct (decide (loc = cur ++ [c])) as [<-|Hne].
    + by rewrite lookup_insert_eq, Hf.
    + rewrite lookup_insert_ne by done.
      destruct (m !! (cur ++ [c])) as [[d0| |t]|] eqn:Hc; [done| | |done].
      * by apply IHdir.
      * destruct rest, fl, n; try done; by apply IHlink.
Qed.

(** X19.  What the launcher writes and runs.  When [/tmp] is a directory in
    which [fx_env_xterm.env] is absent or a regular file,
    [launch_xterm_with_env] returns: the file then holds exactly the
    environment text for the project and the version (whatever it held
    before), nothing else of the file system has changed, and the trace has
    gained the [xterm] command handed to the shell and the confirmation. *)
Theorem launch_xterm_writes_env_file (project_name hfs_version : string) (w : world)
    (ct : path) :
  resolves (fs w) ["tmp"] ct →
  (fs w !! (ct ++ ["fx_env_xterm.env"]) = None ∨
   ∃ old, fs w !! (ct ++ ["fx_env_xterm.env"]) = Some (File old)) →
  ∃ w',
    launch_xterm_with_env project_name hfs_version w = (Return tt, w') ∧
    fs w' = <[ct ++ ["fx_env_xterm.env"] := File (houdini_setup project_name hfs_version)]>
              (fs w) ∧
    read_file (fs w') temp_env_file = inr (houdini_setup project_name hfs_version) ∧
    trace w' = trace w ++
      [System (xterm_cmd project_name hfs_version);
       Print (green ("Launched xterm for project '" +:+ project_name
                     +:+ "' with Houdini " +:+ hfs_version +:+ "."))] ∧
    environ w' = environ w ∧ stdin w' = stdin w.
Proof.
  intros Hres Hfile.
  assert (write_file temp_env_file (houdini_setup project_name hfs_version) w =
          (Return tt,
           set_fs (<[ct ++ ["fx_env_xterm.env"] :=
                       File (houdini_setup project_name hfs_version)]> (fs w)) w)) as Hw.
  { destruct Hfile as [Hnone|[old Hold]].
    - exact (write_file_child ["tmp"] ct "fx_env_xterm.env" _ w Hres Hnone).
    - destruct Hres as [Hloc Hdir]. unfold write_file, temp_env_file.
      change ["tmp"; "fx_env_xterm.env"] with (["tmp"] ++ ["fx_env_xterm.env"]).
      rewrite (locate_snoc _ _ true [] ["tmp"] ct "fx_env_xterm.env" Hdir) by
        (by rewrite ?Hold).
      by rewrite lookup_node_snoc, Hold. }
  eexists. split; [exact (launch_after_write _ _ _ _ Hw)|].
  cbn [fs trace environ stdin set_trace set_fs]. split; [done|]. split; [|done].
  change temp_env_file with (["tmp"] ++ ["fx_env_xterm.env"]).
  apply (read_file_child _ ["tmp"] ct).
  - destruct Hres as [Hloc Hdir]. split.
    + destruct Hfile as [Hnone|[old Hold]].
      * eapply locate_weaken; [by apply insert_subseteq|done|done].
      * by rewrite (locate_overwrite _ _ _ old).
    + destruct ct as [|a ct']; [done|]. cbn [lookup_node] in *.
      rewrite lookup_insert_ne; [done|].
      intros Heq. apply (f_equal length) in Heq. rewrite length_app in Heq.
      cbn [length] in Heq. lia.
  - apply lookup_insert_eq.
Qed.

(** X20.  A launcher that fails has run nothing.  When
    [launch_xterm_with_env] raises (the environment file could not be
    written: [/tmp] missing, the path a directory, a loop of links), the
    world is exactly as before the call: no command was handed to the shell
    and nothing was printed.  The call raises [FileNotFoundError] when
    [/tmp] does not exist. *)
Theorem launch_xterm_failure_is_clean (project_name hfs_version : string) (w : world) :
  (∀ e w', launch_xterm_with_env project_name hfs_version w = (Raise e, w') → w' = w) ∧
  (os_stat (fs w) ["tmp"] = inl ENOENT →
   launch_xterm_with_env project_name hfs_version w
   = (Raise (FileNotFoundError temp_env_file), w)).
Proof.
  split.
  - intros e w'. rewrite launch_xterm_with_env_unfold, bind_run.
    destruct (write_file temp_env_file (houdini_setup project_name hfs_version) w)
      as [[[]|e0] w1] eqn:Hw.
    + unfold os_system, print_green, print. by rewrite bind_run, emit_run, emit_run.
    + intros [= _ <-]. revert Hw. unfold write_file.
      destruct (locate SYMLOOP_MAX (fs w) true [] temp_env_file) as [e1|loc];
        [by intros [= _ <-]|].
      destruct (lookup_node (fs w) loc) as [[d| |t]|]; by intros [= _ <-].
  - intros Htmp. rewrite launch_xterm_with_env_unfold, bind_run.
    assert (locate SYMLOOP_MAX (fs w) true [] temp_env_file = inl ENOENT) as Hloc.
    { change temp_env_file with (["tmp"] ++ ["fx_env_xterm.env"]).
      apply locate_absent_snoc; [done|].
      revert Htmp. unfold os_stat, stat_with.
      destruct (locate SYMLOOP_MAX (fs w) true [] ["tmp"]) as [e|loc].
      - intros [= ->]. by left.
      - destruct (lookup_node (fs w) loc) eqn:Hnd; [done|]. intros _. right. by exists loc. }
    unfold write_file. by rewrite Hloc.
Qed.

Lemma lookup_node_File (m : tree) (loc : path) (d : string) :
  lookup_node m loc = Some (File d) → m !! loc = Some (File d).
Proof. by destruct loc. Qed.

Lemma lookup_node_overwrite_ne (m : tree) (loc loc0 : path) (d' : string) (nd : node) :
  lookup_node m loc0 = Some nd → loc0 ≠ loc →
  lookup_node (<[loc := File d']> m) loc0 = Some nd.
Proof.
  intros Hnd Hne. destruct loc0 as [|a l]; [done|]. cbn [lookup_node] in *.
  by rewrite lookup_insert_ne.
Qed.

(** X21.  The launcher writes through a link.  When [/tmp/fx_env_xterm.env]
    is a symbolic link that leads to a regular file, [launch_xterm_with_env]
    returns having replaced the contents of that file, wherever it is, by the
    environment text; the link itself is left in place and nothing else of
    the file system changes. *)
Theorem launch_xterm_follows_link (project_name hfs_version : string) (w : world)
    (t : path) (old : string) :
  os_lstat (fs w) temp_env_file = inr (Symlink t) →
  read_file (fs w) temp_env_file = inr old →
  ∃ loc w',
    realpath (fs w) temp_env_file = Some loc ∧
    fs w !! loc = Some (File old) ∧
    launch_xterm_with_env project_name hfs_version w = (Return tt, w') ∧
    fs w' = <[loc := File (houdini_setup project_name hfs_version)]> (fs w) ∧
    os_lstat (fs w') temp_env_file = inr (Symlink t) ∧
    read_file (fs w') temp_env_file = inr (houdini_setup project_name hfs_version).
Proof.
  intros Hlink Hread.
  assert (∃ loc, locate SYMLOOP_MAX (fs w) true [] temp_env_file = inr loc ∧
                 lookup_node (fs w) loc = Some (File old)) as (loc & Hloc & Hnd).
  { revert Hread. unfold read_file, os_stat, stat_with.
    destruct (locate SYMLOOP_MAX (fs w) true [] temp_env_file) as [e|loc]; [done|].
    destruct (lookup_node (fs w) loc) as [[d| |t']|] eqn:Hnd; try done.
    intros [= ->]. by exists loc. }
  pose proof (lookup_node_File _ _ _ Hnd) as Hf.
  assert (write_file temp_env_file (houdini_setup project_name hfs_version) w =
          (Return tt,
           set_fs (<[loc := File (houdini_setup project_name hfs_version)]> (fs w)) w)) as Hw.
  { unfold write_file. by rewrite Hloc, Hnd. }
  exists loc. eexists. split; [|split; [exact Hf|split; [exact (launch_after_write _ _ _ _ Hw)|]]].
  { unfold realpath. by rewrite Hloc, Hnd. }
  cbn [fs set_trace set_fs]. split; [done|]. split.
  - revert Hlink. unfold os_lstat, stat_with. rewrite (locate_overwrite _ _ _ old) by done.
    destruct (locate SYMLOOP_MAX (fs w) false [] temp_env_file) as [e|loc0]; [done|].
    destruct (lookup_node (fs w) loc0) as [nd|] eqn:Hnd0; [|done]. intros [= ->].
    rewrite (lookup_node_overwrite_ne _ _ _ _ _ Hnd0); [done|]. congruence.
  - unfold read_file, os_stat, stat_with. rewrite (locate_overwrite _ _ _ old), Hloc by done.
    destruct loc as [|a l]; [done|]. cbn [lookup_node]. by rewrite lookup_insert_eq.
Qed.

(** ** Version detection and the main program *)

(** X22.  [set_houdini_environment] never raises.  It ends the process with
    status 1 exactly when [/opt/hfs<version>] does not exist, having then
    changed no environment variable; otherwise it returns with [HFS] set to
    that path and [HOUDINI_PATH] to its [houdini] subdirectory.  In both
    cases nothing changes but the environment and the trace. *)
Theorem set_houdini_environment_outcome (hversion : string) (w : world) :
  let install := os_path_join ["opt"] ("hfs" +:+ hversion) in
  ∃ fl w',
    set_houdini_environment hversion w = (Return fl, w') ∧
    fs w' = fs w ∧ stdin w' = stdin w ∧
    (fl = Exit 1 ↔ path_exists (fs w) install = false) ∧
    (fl = Exit 1 ∨ fl = Continue) ∧
    (fl = Exit 1 → environ w' = environ w) ∧
    (fl = Continue →
     environ w' = <["HOUDINI_PATH" := show_path install +:+ "/houdini"]>
                    (<["HFS" := show_path install]> (environ w))).
Proof.
  intros install. unfold set_houdini_environment, find_houdini_version, os_path_exists.
  rewrite bind_run, bind_run, gets_run. fold install.
  destruct (path_exists (fs w) install) eqn:He.
  - unfold print_green, print. rewrite bind_run, emit_run, ret_run.
    unfold environ_set. eexists _, _. split; [reflexivity|].
    cbn [fs stdin environ set_trace set_environ]. split_and!; try done.
    + by right.
  - unfold print_red, print. rewrite bind_run, emit_run, ret_run.
    rewrite bind_run, handle_error_run, ret_run.
    eexists _, _. split; [reflexivity|].
    cbn [fs stdin environ set_trace set_environ]. split_and!; try done.
    + by left.
Qed.

Lemma run_inv {A} (c : py A) (k : A → script) (w : world) (e : ending) (w' : world) :
  run c k w = (e, w') →
  (∃ a w1, c w = (Return a, w1) ∧ k a w1 = (e, w')) ∨
  (∃ x, c w = (Raise x, w') ∧ e = Uncaught x).
Proof.
  unfold run. destruct (c w) as [[a|x] w1].
  - intros Hk. left. by exists a, w1.
  - intros [= <- <-]. right. by exists x.
Qed.

Lemma evolves_is_Some (keys : list string) (w w' : world) (k : string) :
  evolves keys w w' → is_Some (environ w !! k) → is_Some (environ w' !! k).
Proof. intros (_ & _ & _ & Hs & _). apply Hs. Qed.

(** X23.  The main program never fails on a missing [CURRENT_PROJECT]: both
    readings of [os.environ['CURRENT_PROJECT']] come after a
    [select_project] that returned, which has set the variable, and nothing
    that runs in between (the terminal customisation, a backup or a restore,
    an interactive session) unsets it.  So no run of the main program, with
    any command line, ends in [KeyError]. *)
Theorem main_never_key_error (args : Args) (w : world) :
  ∃ e w', main args w = (e, w') ∧ ∀ key, e ≠ KeyError key.
Proof.
  destruct (main args w) as [e w'] eqn:Hmain. exists e, w'. split; [done|].
  intros key ->.
  unfold main in Hmain.
  apply run_inv in Hmain as [([] & w1 & _ & Hmain)|(x & _ & ?)]; [|done].
  apply run_inv in Hmain as [([] & w2 & _ & Hmain)|(x & _ & ?)]; [|done].
  apply run_inv in Hmain as [(fl & w3 & _ & Hmain)|(x & _ & ?)]; [|done].
  destruct fl as [|status]; [|done].
  apply run_inv in Hmain as [(project_name & w4 & Hsel & Hmain)|(x & _ & ?)]; [|done].
  pose proof (select_project_sets_current_aux _ _ _ Hsel) as Hcur.
  apply run_inv in Hmain as [([] & w5 & Hprint & Hmain)|(x & _ & ?)]; [|done].
  injection Hprint as <-.
  unfold environ_get at 1 in Hmain. cbn [environ set_trace] in Hmain. rewrite Hcur in Hmain.
  apply run_inv in Hmain as [([] & w6 & Hcust & Hmain)|(x & _ & ?)]; [|done].
  apply (evolves_customize_terminal session_keys) in Hcust.
  apply run_inv in Hmain as [([] & w7 & Hbackup & Hmain)|(x & _ & ?)]; [|done].
  assert (evolves session_keys w6 w7) as Hev7.
  { revert Hbackup. destruct (backup args); [apply evolves_create_backup|].
    destruct (truthy (restore args)); [apply evolves_restore_backup|].
    intros [= <-]. reflexivity. }
  apply run_inv in Hmain as [([] & w8 & Hinter & Hmain)|(x & _ & ?)]; [|done].
  assert (evolves session_keys w7 w8) as Hev8.
  { revert Hinter. destruct (interactive args).
    - apply (evolves_interactive_mode session_keys
               session_keys_name session_keys_path session_keys_current).
    - intros [= <-]. reflexivity. }
  assert (is_Some (environ w8 !! "CURRENT_PROJECT")) as [current Hcur8].
  { eapply evolves_is_Some; [exact Hev8|]. eapply evolves_is_Some; [exact Hev7|].
    eapply evolves_is_Some; [exact Hcust|]. cbn [environ set_trace]. by rewrite Hcur. }
  unfold environ_get in Hmain. rewrite Hcur8 in Hmain.
  apply run_inv in Hmain as [([] & w9 & _ & Hmain)|(x & _ & ?)]; [|done].
  apply run_inv in Hmain as [([] & w10 & _ & Hmain)|(x & _ & ?)]; done.
Qed.

(** X24.  An unknown Houdini version stops the main program before any
    question is asked.  When [-hv] names a version whose directory
    [/opt/hfs<version>] does not exist, the main program prints the banner,
    the set-up line and the two error lines, and ends with exit status 1: no
    prompt is written, no line is read, and the file system and the
    environment are untouched. *)
Theorem main_unknown_version_exits (args : Args) (w : world) (version : string) :
  hversion args = Some version →
  version ≠ EmptyString →
  path_exists (fs w) (os_path_join ["opt"] ("hfs" +:+ version)) = false →
  main args w =
  (SystemExit 1,
   set_trace (trace w ++
     [Print (green HOUDINI_ASCII);
      Print ("Setting up environment for Houdini " +:+ HFS);
      Print (red ("Houdini version " +:+ version +:+ " not found!"));
      LogError ("Failed to set environment for Houdini " +:+ version);
      Print (red ("Failed to set environment for Houdini " +:+ version))]) w).
Proof.
  intros Hv Hne He. unfold main, run, print_ascii_header, print_green, print.
  rewrite !emit_run, Hv. cbn [truthy default from_option id].
  assert (negb (String.eqb version EmptyString) = true) as ->
    by (by apply negb_true_iff, String.eqb_neq).
  unfold set_houdini_environment, find_houdini_version, os_path_exists.
  rewrite bind_run, bind_run, gets_run. cbn [fs set_trace]. rewrite He.
  unfold print_red, print. rewrite bind_run, emit_run, ret_run.
  rewrite bind_run, handle_error_run, ret_run.
  f_equal. unfold set_trace. cbn [fs atimes environ stdin trace clock ticks].
  by rewrite <-!(assoc_L (++)).
Qed.

(** ** Provisioning: a fresh project, and roots that coincide *)

(** X27.  Roots that coincide.  When [HOUDINI_PROJECT_DIR] and
    [HOUDINI_FILES_DIR] are the same path, the [GEO] directory of the
    project tree and the [GEO] link are one and the same entry: in a
    well-formed tree, provisioning a project whose [GEO] is not already a
    link never completes; when it gets as far as the link it raises
    [FileExistsError] for it, the [GEO] directory made a moment before being
    in the way. *)
Theorem provisioning_same_roots (name : string) (w : world) (r : outcome unit) (w' : world) :
  PROJECT_DIR = FILES_DIR →
  wf_tree (fs w) →
  path_islink (fs w) (link_path name) = false →
  ensure_directories_and_symlinks name w = (r, w') →
  (∃ e, r = Raise e) ∧
  (∀ wd, ensure_project_directories name w = (Return tt, wd) →
         r = Raise (FileExistsError (link_path name)) ∧ w' = wd ∧
         path_isdir (fs w') (link_path name) = true).
Proof.
  intros Hroots Hwf Hnolink Hrun.
  destruct (provision_inv _ _ _ _ Hrun) as (rd & wd & Hd & Hrest).
  destruct rd as [[]|e].
  2:{ destruct Hrest as [-> ->]. split; [by exists e|]. intros wd' Hd'. congruence. }
  pose proof (provision_dirs_adds _ _ _ _ Hd) as Hadd.
  pose proof (provision_dirs_isdir _ _ _ Hd) as Hdirs.
  assert (path_isdir (fs wd) (link_path name) = true) as Hgeo.
  { rewrite Forall_forall in Hdirs. apply Hdirs.
    unfold skeleton_dirs, link_path. rewrite Hroots. set_solver. }
  destruct (path_islink (fs wd) (link_path name)) eqn:Hl.
  { unfold path_islink in Hl.
    destruct (os_lstat (fs wd) (link_path name)) as [|[d| |t]] eqn:Hlst; try done.
    apply (lstat_symlink_back _ _ _ _ Hwf Hadd) in Hlst.
    unfold path_islink in Hnolink. by rewrite Hlst in Hnolink. }
  destruct Hrest as (rl & wl & Hsym & Hrest).
  assert (os_symlink (geo_path name) (link_path name) wd
          = (Raise (FileExistsError (link_path name)), wd)) as Hraise.
  { destruct (path_exists_lstat _ _ (path_isdir_exists _ _ Hgeo)) as [nd Hnd].
    revert Hnd. unfold os_symlink, os_lstat, stat_with.
    destruct (locate SYMLOOP_MAX (fs wd) false [] (link_path name)) as [e|loc]; [done|].
    by destruct (lookup_node (fs wd) loc). }
  rewrite Hraise in Hsym. injection Hsym as <- <-. destruct Hrest as [-> ->].
  split; [by eexists|]. intros wd' Hd'. rewrite Hd in Hd'. injection Hd' as <-. done.
Qed.

Lemma reach_trans (w : world) (t1 t2 : list event) (m1 m2 : tree) :
  set_trace (trace (set_trace (trace w ++ t1) (set_fs m1 w)) ++ t2)
    (set_fs m2 (set_trace (trace w ++ t1) (set_fs m1 w)))
  = set_trace (trace w ++ t1 ++ t2) (set_fs m2 w).
Proof.
  unfold set_trace, set_fs. cbn [fs atimes environ stdin trace clock ticks].
  by rewrite <-(assoc_L (++)).
Qed.

Lemma reach_step (w w1 : world) (t1 t2 : list event) (m1 m2 : tree) :
  w1 = set_trace (trace w ++ t1) (set_fs m1 w) →
  set_trace (trace w1 ++ t2) (set_fs m2 w1) = set_trace (trace w ++ t1 ++ t2) (set_fs m2 w).
Proof. intros ->. apply reach_trans. Qed.

Lemma step_child (d cd : path) (c : string) (w : world) :
  resolves (fs w) d cd → fs w !! (cd ++ [c]) = None →
  ∃ t, ensure_directory_exists (d ++ [c]) w =
       (Return tt, set_trace (trace w ++ t) (set_fs (<[cd ++ [c] := Dir]> (fs w)) w)).
Proof. intros Hd Hc. eexists. by apply ensure_directory_exists_child. Qed.

Lemma step_children (d cd : path) (names : list string) (w : world) :
  resolves (fs w) d cd → NoDup names →
  (∀ c, c ∈ names → fs w !! (cd ++ [c]) = None) →
  ∃ t, for_ names (λ dir_name, ensure_directory_exists (os_path_join d dir_name)) w =
       (Return tt,
        set_trace (trace w ++ t)
          (set_fs (foldl (λ m c, <[cd ++ [c] := Dir]> m) (fs w) names) w)).
Proof.
  revert w. induction names as [|c names IH]; intros w Hd Hnd Hfree.
  - exists []. cbn [for_ foldl]. rewrite ret_run. f_equal.
    unfold set_trace, set_fs. destruct w. cbn. by rewrite app_nil_r.
  - apply NoDup_cons in Hnd as [Hc Hnd].
    destruct (step_child d cd c w Hd) as [t1 H1]; [apply Hfree; by left|].
    set (w1 := set_trace (trace w ++ t1) (set_fs (<[cd ++ [c] := Dir]> (fs w)) w)) in *.
    assert (fs w ⊆ fs w1) as Hsub.
    { cbn [fs w1 set_trace set_fs]. apply insert_subseteq, Hfree. by left. }
    destruct (IH w1) as [t2 H2]; [by eapply resolves_weaken|done| |].
    { intros c' Hc'. cbn [fs w1 set_trace set_fs]. rewrite lookup_insert_ne.
      - apply Hfree. by right.
      - intros [_ ->]%app_inj_tail. done. }
    exists (t1 ++ t2). cbn [for_ foldl]. cbv beta.
    change (os_path_join d c) with (d ++ [c]).
    rewrite bind_run, H1. fold w1. rewrite H2. f_equal.
    unfold w1. cbn [fs set_trace set_fs]. apply reach_trans.
Qed.

Lemma os_symlink_child (src d cd : path) (c : string) (w : world) :
  resolves (fs w) d cd → fs w !! (cd ++ [c]) = None →
  os_symlink src (d ++ [c]) w = (Return tt, set_fs (<[cd ++ [c] := Symlink src]> (fs w)) w).
Proof.
  intros [Hloc Hnd] Hc. unfold os_symlink.
  rewrite (locate_snoc _ _ false _ _ _ _ Hnd) by (done || by rewrite Hc).
  by rewrite lookup_node_snoc, Hc.
Qed.

Ltac key_ne :=
  let Heq := fresh "Heq" in
  let Hs := fresh "Hs" in
  intros Heq;
  first
    [ by (apply (f_equal length) in Heq; rewrite ?length_app in Heq;
          cbn [length] in Heq; lia)
    | apply app_inj_tail in Heq as [Heq Hs];
      first [ discriminate Hs
            | congruence
            | apply app_inj_tail in Heq as [Heq _]; congruence ] ].

(** X28.  Provisioning a project that does not exist yet.  In a well-formed
    tree where the two roots are different directories and neither holds an
    entry of the project's name, [ensure_directories_and_symlinks] returns
    and the tree it leaves is the one before with exactly nine new entries:
    the project directory under [FILES_DIR] with [HIP], [REF], [RENDER],
    [COMP] and [FLIP] in it, the project directory under [PROJECT_DIR] with
    [GEO] in it, and the link [GEO] of the first pointing to the second;
    [PROJECT_NAME] and [PROJECT_PATH] are set, the trace has grown, and
    nothing else has changed. *)
Theorem provisioning_fresh_project (name : string) (cF cP : path) (w : world) :
  wf_tree (fs w) →
  resolves (fs w) FILES_DIR cF → resolves (fs w) PROJECT_DIR cP →
  cF ≠ cP →
  fs w !! (cF ++ [name]) = None → fs w !! (cP ++ [name]) = None →
  ∃ t,
    ensure_directories_and_symlinks name w =
    (Return tt,
     set_trace (trace w ++ t)
       (set_environ (<["PROJECT_PATH" := show_path (os_path_join FILES_DIR name)]>
                       (<["PROJECT_NAME" := name]> (environ w)))
          (set_fs (<[(cF ++ [name]) ++ ["GEO"] := Symlink (geo_path name)]>
                  (<[(cF ++ [name]) ++ ["FLIP"] := Dir]>
                  (<[(cP ++ [name]) ++ ["GEO"] := Dir]>
                  (<[cP ++ [name] := Dir]>
                  (<[(cF ++ [name]) ++ ["COMP"] := Dir]>
                  (<[(cF ++ [name]) ++ ["RENDER"] := Dir]>
                  (<[(cF ++ [name]) ++ ["REF"] := Dir]>
                  (<[(cF ++ [name]) ++ ["HIP"] := Dir]>
                  (<[cF ++ [name] := Dir]> (fs w)))))))))) w))).
Proof.
  intros Hwf HF HP Hdiff HnF HnP.
  assert (cP ≠ cF ++ [name]) as HcP.
  { intros ->. destruct HP as [_ HP]. rewrite lookup_node_snoc in HP. congruence. }
  assert (cF ≠ cP ++ [name]) as HcF.
  { intros ->. destruct HF as [_ HF]. rewrite lookup_node_snoc in HF. congruence. }
  assert (cF ++ [name] ≠ cP ++ [name]) as HpFP by (by intros [? _]%app_inj_tail).
  assert (∀ rest, fs w !! ((cF ++ [name]) ++ rest) = None) as HbF.
  { intros rest. apply wf_tree_absent_below; [done|by destruct cF|done]. }
  assert (∀ rest, fs w !! ((cP ++ [name]) ++ rest) = None) as HbP.
  { intros rest. apply wf_tree_absent_below; [done|by destruct cP|done]. }
  (* the project directory *)
  destruct (step_child FILES_DIR cF name w HF HnF) as [t1 H1].
  set (m1 := <[cF ++ [name] := Dir]> (fs w)) in *.
  set (w1 := set_trace (trace w ++ t1) (set_fs m1 w)) in *.
  assert (resolves (fs w1) (FILES_DIR ++ [name]) (cF ++ [name])) as HF1.
  { cbn [fs w1 set_trace set_fs]. apply resolves_child; [|apply lookup_insert_eq].
    eapply resolves_weaken; [|exact HF]. by apply insert_subseteq. }
  (* its plain subdirectories *)
  destruct (step_children (FILES_DIR ++ [name]) (cF ++ [name])
              ["HIP"; "REF"; "RENDER"; "COMP"] w1 HF1) as [t2 H2].
  { apply (bool_decide_unpack _). vm_compute. exact I. }
  { intros c _. cbn [fs w1 set_trace set_fs]. unfold m1.
    rewrite lookup_insert_ne by key_ne. apply HbF. }
  cbn [foldl fs w1 set_trace set_fs] in H2.
  set (m5 := <[(cF ++ [name]) ++ ["COMP"] := Dir]> _) in H2.
  rewrite (reach_step w w1 t1 t2 m1 m5 eq_refl) in H2.
  set (w5 := set_trace (trace w ++ t1 ++ t2) (set_fs m5 w)) in *.
  assert (fs w ⊆ m5) as Hsub5.
  { unfold m5, m1. repeat (apply insert_subseteq_r; [first [exact HnF|apply HbF]|]). done. }
  (* GEO in the project tree *)
  assert (resolves (fs w5) PROJECT_DIR cP) as HP5.
  { cbn [fs w5 set_trace set_fs]. by eapply resolves_weaken. }
  pose proof (ensure_directory_exists_grandchild PROJECT_DIR cP name "GEO" w5 HP5) as H6.
  cbn [fs w5 set_trace set_fs] in H6.
  assert (m5 !! (cP ++ [name]) = None) as Hn5.
  { unfold m5, m1. rewrite !lookup_insert_ne by key_ne. exact HnP. }
  assert (m5 !! ((cP ++ [name]) ++ ["GEO"]) = None) as Hg5.
  { unfold m5, m1. rewrite !lookup_insert_ne by key_ne. apply HbP. }
  specialize (H6 (or_introl Hn5) Hg5).
  set (m7 := <[(cP ++ [name]) ++ ["GEO"] := Dir]> _) in H6.
  set (t3 := [LogInfo _; Print _]) in H6.
  rewrite (reach_step w w5 (t1 ++ t2) t3 m5 m7 eq_refl) in H6.
  set (w7 := set_trace (trace w ++ (t1 ++ t2) ++ t3) (set_fs m7 w)) in *.
  assert (fs w ⊆ m7) as Hsub7.
  { unfold m7. repeat (apply insert_subseteq_r; [first [exact HnP|apply HbP]|]). done. }
  (* FLIP *)
  assert (resolves (fs w7) (FILES_DIR ++ [name]) (cF ++ [name])) as HF7.
  { cbn [fs w7 set_trace set_fs]. apply resolves_child; [by eapply resolves_weaken|].
    unfold m7, m5, m1. rewrite !lookup_insert_ne by key_ne. apply lookup_insert_eq. }
  destruct (step_child (FILES_DIR ++ [name]) (cF ++ [name]) "FLIP" w7 HF7) as [t4 H8].
  { cbn [fs w7 set_trace set_fs]. unfold m7, m5, m1.
    rewrite !lookup_insert_ne by key_ne. apply HbF. }
  cbn [fs w7 set_trace set_fs] in H8.
  set (m8 := <[(cF ++ [name]) ++ ["FLIP"] := Dir]> m7) in *.
  rewrite (reach_step w w7 ((t1 ++ t2) ++ t3) t4 m7 m8 eq_refl) in H8.
  set (w8 := set_trace (trace w ++ ((t1 ++ t2) ++ t3) ++ t4) (set_fs m8 w)) in *.
  assert (ensure_project_directories name w = (Return tt, w8)) as Hdirs.
  { unfold ensure_project_directories, os_path_join. cbv zeta.
    rewrite bind_run, H1, bind_run.
    change (for_ ["HIP"; "REF"; "RENDER"; "COMP"]
              (λ dir_name, ensure_directory_exists ((FILES_DIR ++ [name]) ++ [dir_name])) w1)
      with (for_ ["HIP"; "REF"; "RENDER"; "COMP"]
              (λ dir_name, ensure_directory_exists
                             (os_path_join (FILES_DIR ++ [name]) dir_name)) w1).
    rewrite H2, bind_run, H6. exact H8. }
  (* the link *)
  assert (m7 ⊆ m8) as Hsub8.
  { apply insert_subseteq. unfold m7, m5, m1. rewrite !lookup_insert_ne by key_ne. apply HbF. }
  assert (resolves (fs w8) (FILES_DIR ++ [name]) (cF ++ [name])) as HF8.
  { cbn [fs w8 set_trace set_fs]. eapply resolves_weaken; [exact Hsub8|exact HF7]. }
  assert (fs w8 !! ((cF ++ [name]) ++ ["GEO"]) = None) as Hfree.
  { cbn [fs w8 set_trace set_fs]. unfold m8, m7, m5, m1.
    rewrite !lookup_insert_ne by key_ne. apply HbF. }
  assert (path_islink (fs w8) ((FILES_DIR ++ [name]) ++ ["GEO"]) = false) as Hnolink.
  { unfold path_islink. by rewrite (os_lstat_child _ _ _ "GEO" HF8), Hfree. }
  destruct (ensure_directories_and_symlinks name w) as [r w'] eqn:Hrun.
  destruct (provision_inv _ _ _ _ Hrun) as (rd & wd & Hd & Hrest).
  rewrite Hdirs in Hd. injection Hd as <- <-.
  unfold link_path, os_path_join in Hrest. rewrite Hnolink in Hrest.
  destruct Hrest as (rl & wl & Hsym & Hrest).
  unfold geo_path, os_path_join in Hsym.
  rewrite (os_symlink_child _ (FILES_DIR ++ [name]) (cF ++ [name]) "GEO" w8 HF8 Hfree) in Hsym.
  injection Hsym as <- <-. destruct Hrest as [-> ->].
  eexists. f_equal.
  unfold after_link, w8, set_trace, set_environ, set_fs, os_path_join, geo_path.
  cbn [fs atimes environ stdin trace clock ticks].
  unfold m8, m7, m5, m1. f_equal.
  rewrite <-(assoc_L (++) (trace w)). reflexivity.
Qed.

End Script.

(** * Worked examples *)

Lemma provisioning_idempotent_witness :
  let w := example_world tree_roots [] in
  let w1 := (ensure_directories_and_symlinks example_files example_src "shotA" w).2 in
  ensure_directories_and_symlinks example_files example_src "shotA" w = (Return tt, w1) ∧
  ∃ w2, ensure_directories_and_symlinks example_files example_src "shotA" w1 = (Return tt, w2) ∧
        fs w2 = fs w1 ∧
        environ w2 = environ w1 ∧
        trace w2 = trace w1 ++
          [Print (yellow ("Symbolic link already exists: "
                          +:+ show_path (link_path example_files "shotA")));
           Print (green ("Environment variables set for project '" +:+ "shotA" +:+ "'."))].
Proof.
  intros w w1.
  assert (ensure_directories_and_symlinks example_files example_src "shotA" w = (Return tt, w1))
    as H by (vm_compute; reflexivity).
  split; [exact H|].
  exact (provisioning_idempotent example_files example_src "shotA" w w1 H).
Defined.

Lemma provisioning_conflict_witness :
  let w := example_world tree_geo_dir [] in
  os_lstat (fs w) (link_path example_files "shotA") = inr Dir ∧
  ∃ wd, ensure_directories_and_symlinks example_files example_src "shotA" w
        = (Raise (FileExistsError (link_path example_files "shotA")), wd) ∧
        fs wd !! ["files"; "shotA"; "GEO"] = Some Dir.
Proof.
  intros w.
  assert (os_lstat (fs w) (link_path example_files "shotA") = inr Dir) as H
    by (vm_compute; reflexivity).
  split; [exact H|].
  destruct (provisioning_conflict example_files example_src "shotA" w H) as (_ & Hraise & _).
  exists (ensure_project_directories example_files example_src "shotA" w).2.
  split.
  - apply Hraise. vm_compute. reflexivity.
  - vm_compute. reflexivity.
Defined.

Lemma provisioning_link_witness :
  let w := example_world tree_roots [] in
  let w1 := (ensure_directories_and_symlinks example_files example_src "shotA" w).2 in
  wf_tree (fs w) ∧
  ensure_directories_and_symlinks example_files example_src "shotA" w = (Return tt, w1) ∧
  ∃ t, os_lstat (fs w1) (link_path example_files "shotA") = inr (Symlink t) ∧
       (path_islink (fs w) (link_path example_files "shotA") = false →
        t = geo_path example_src "shotA" ∧ path_isdir (fs w1) (geo_path example_src "shotA") = true) ∧
       (∀ t0, os_lstat (fs w) (link_path example_files "shotA") = inr (Symlink t0) → t = t0).
Proof.
  intros w w1.
  assert (wf_tree (fs w)) as Hwf.
  { apply wf_tree_check. apply (bool_decide_unpack _). vm_compute. exact I. }
  assert (ensure_directories_and_symlinks example_files example_src "shotA" w = (Return tt, w1))
    as H by (vm_compute; reflexivity).
  split; [exact Hwf|]. split; [exact H|].
  exact (provisioning_link example_files example_src "shotA" w w1 Hwf H).
Defined.

(** After provisioning [shotA] in a tree where [GEO] already is a link to
    [/elsewhere], the call completes and the link still points there, not to
    the [GEO] directory of the project-source root. *)
Lemma provisioning_keeps_stale_link :
  let w := example_world tree_geo_stale [] in
  ∃ w1, ensure_directories_and_symlinks example_files example_src "shotA" w = (Return tt, w1) ∧
        os_lstat (fs w1) (link_path example_files "shotA") = inr (Symlink ["elsewhere"]) ∧
        os_lstat (fs w1) (link_path example_files "shotA")
          ≠ inr (Symlink (geo_path example_src "shotA")).
Proof.
  intros w.
  exists (ensure_directories_and_symlinks example_files example_src "shotA" w).2.
  split; [vm_compute; reflexivity|].
  split; [vm_compute; reflexivity|].
  vm_compute. discriminate.
Qed.



Lemma backup_restore_round_trip_witness :
  let w := example_world tree_project_hips [] in
  let project_dir := os_path_join example_files "shotA" in
  let restore_dir := os_path_join project_dir "RESTORED_20240309_140507" in
  wf_tree (fs w) ∧
  existsb has_magic project_dir = false ∧
  path_isdir (fs w) project_dir = true ∧
  ∃ w1 w2,
    create_backup project_dir None w = (Return tt, w1) ∧
    restore_backup project_dir "20240309_140507" w1 = (Return tt, w2) ∧
    path_isdir (fs w2) restore_dir = true ∧
    read_file (fs w2) (os_path_join restore_dir "a.hip") = inr "scene a" ∧
    read_file (fs w2) (os_path_join restore_dir "b.hip") = inr "scene b".
Proof.
  intros w project_dir restore_dir.
  assert (wf_tree (fs w)) as Hwf.
  { apply wf_tree_check. apply (bool_decide_unpack _). vm_compute. exact I. }
  assert (path_isdir (fs w) project_dir = true) as Hdir by (vm_compute; reflexivity).
  assert (∀ c nd, hip_name c = true →
            os_lstat (fs w) (os_path_join project_dir c) = inr nd → ∃ data, nd = File data)
    as Hfiles.
  { assert (resolves (fs w) project_dir project_dir) as Hres
      by (split; vm_compute; reflexivity).
    intros c nd Hc Hnd.
    unfold os_path_join in Hnd. rewrite (os_lstat_child _ _ _ c Hres) in Hnd.
    destruct (fs w !! (project_dir ++ [c])) as [nd'|] eqn:Hl; [|discriminate].
    injection Hnd as ->.
    assert (c ∈ children (fs w) project_dir) as Hin.
    { apply elem_of_children. exists nd. exact Hl. }
    vm_compute in Hin. apply list_elem_of_In in Hin. cbn [In] in Hin.
    repeat match goal with H : _ ∨ _ |- _ => destruct H as [<-|H] end;
      [..|contradiction];
      first [ vm_compute in Hc; discriminate
            | vm_compute in Hl; injection Hl as <-; eexists; reflexivity ]. }
  assert (strftime_stamp (clock w (ticks w)) = "20240309_140507") as Hstamp
    by (vm_compute; reflexivity).
  assert (existsb has_magic project_dir = false) as Hplain by (vm_compute; reflexivity).
  pose proof (backup_restore_round_trip project_dir w Hwf Hplain Hdir Hfiles) as Hround.
  rewrite Hstamp in Hround.
  split; [exact Hwf|]. split; [exact Hplain|]. split; [exact Hdir|].
  destruct Hround as (w1 & w2 & H1 & H2 & H3 & H4).
  - left. vm_compute. reflexivity.
  - vm_compute. reflexivity.
  - vm_compute. reflexivity.
  - exists w1, w2. split; [exact H1|]. split; [exact H2|]. split; [exact H3|].
    assert (os_lstat (fs w) (os_path_join project_dir "a.hip") = inr (File "scene a")) as Ha
      by (vm_compute; reflexivity).
    assert (os_lstat (fs w) (os_path_join project_dir "b.hip") = inr (File "scene b")) as Hb
      by (vm_compute; reflexivity).
    split.
    + exact (proj1 (H4 "a.hip" "scene a" eq_refl Ha)).
    + exact (proj1 (H4 "b.hip" "scene b" eq_refl Hb)).
Defined.

Lemma backup_restore_wildcard_name_witness :
  let w := example_world tree_project_brackets [] in
  let project_dir := os_path_join example_files "shot[1]" in
  let backup_dir := os_path_join (os_path_join project_dir "BACKUPS") "20240309_140507" in
  let restore_dir := os_path_join project_dir "RESTORED_20240309_140507" in
  wf_tree (fs w) ∧
  existsb has_magic example_files = false ∧
  has_magic "shot[1]" = true ∧
  os_lstat (fs w) project_dir = inr Dir ∧
  glob (fs w) project_dir = [] ∧
  read_file (fs w) (os_path_join project_dir "a.hip") = inr "scene a" ∧
  read_file (fs w) (os_path_join project_dir "b.hip") = inr "scene b" ∧
  ∃ w1 w2,
    create_backup project_dir None w = (Return tt, w1) ∧
    restore_backup project_dir "20240309_140507" w1 = (Return tt, w2) ∧
    (∃ t, trace w1 = t ++ [Print (red "No .hip files found for backup.")]) ∧
    (∃ t, trace w2 = t ++ [LogError "No .hip files found in the backup.";
                           Print (red "No .hip files found in the backup.")]) ∧
    listdir (fs w1) backup_dir = inr [] ∧
    path_isdir (fs w2) restore_dir = true ∧
    listdir (fs w2) restore_dir = inr [].
Proof.
  intros w project_dir backup_dir restore_dir.
  assert (wf_tree (fs w)) as Hwf.
  { apply wf_tree_check. apply (bool_decide_unpack _). vm_compute. exact I. }
  assert (existsb has_magic example_files = false) as Hplain by (vm_compute; reflexivity).
  assert (has_magic "shot[1]" = true) as Hname by (vm_compute; reflexivity).
  assert (os_lstat (fs w) project_dir = inr Dir) as Hdir by (vm_compute; reflexivity).
  assert (glob (fs w) project_dir = []) as Hglob by (vm_compute; reflexivity).
  assert (strftime_stamp (clock w (ticks w)) = "20240309_140507") as Hstamp
    by (vm_compute; reflexivity).
  pose proof (backup_restore_wildcard_name example_files "shot[1]" w
                Hwf Hplain Hname Hdir Hglob) as Hrun.
  rewrite Hstamp in Hrun.
  split; [exact Hwf|]. split; [exact Hplain|]. split; [exact Hname|].
  split; [exact Hdir|]. split; [exact Hglob|].
  split; [vm_compute; reflexivity|]. split; [vm_compute; reflexivity|].
  apply Hrun.
  - left. vm_compute. reflexivity.
  - vm_compute. reflexivity.
  - vm_compute. reflexivity.
Defined.

Lemma restore_snapshot_not_found_witness :
  let w := example_world tree_project_empty [] in
  let project_dir := os_path_join example_files "shotA" in
  path_exists (fs w)
    (os_path_join (os_path_join project_dir "BACKUPS") "20240101_000000") = false ∧
  restore_backup project_dir "20240101_000000" w =
  (Return tt,
   set_trace (trace w ++
     [LogError ("No backup found for the specified timestamp: " +:+ "20240101_000000");
      Print (red ("No backup found for the specified timestamp: " +:+ "20240101_000000"))]) w).
Proof.
  intros w project_dir.
  assert (path_exists (fs w)
            (os_path_join (os_path_join project_dir "BACKUPS") "20240101_000000") = false)
    as H by (vm_compute; reflexivity).
  split; [exact H|].
  exact (restore_snapshot_not_found project_dir "20240101_000000" w H).
Defined.


Lemma list_recent_projects_ordered_witness :
  let w := example_world_atimes tree_three_projects [] in
  path_isdir (fs w) example_files = true ∧
  project_names example_files w = ["shotC"; "shotB"; "shotA"] ∧
  (list_recent_projects example_files example_strftime true w).1
    = Return ["shotB"; "shotC"; "shotA"] ∧
  ∃ all recent t_all t_recent,
    list_recent_projects example_files example_strftime true w
      = (Return all, set_trace (trace w ++ t_all) w) ∧
    list_recent_projects example_files example_strftime false w
      = (Return recent, set_trace (trace w ++ t_recent) w) ∧
    all ≡ₚ project_names example_files w ∧
    StronglySorted (λ x y, (atime_of example_files w y < atime_of example_files w x)%Z) all ∧
    recent = take 6 all ∧
    length recent ≤ 6.
Proof.
  intros w.
  assert (path_isdir (fs w) example_files = true) as Hdir by (vm_compute; reflexivity).
  assert (project_names example_files w = ["shotC"; "shotB"; "shotA"]) as Hnames
    by (vm_compute; reflexivity).
  assert (∀ x y, x ∈ project_names example_files w → y ∈ project_names example_files w →
                 atime_of example_files w x = atime_of example_files w y → x = y) as Hdistinct.
  { intros x y. rewrite Hnames. intros Hx Hy.
    apply list_elem_of_In in Hx. apply list_elem_of_In in Hy. cbn [In] in Hx, Hy.
    destruct Hx as [<-|[<-|[<-|[]]]]; destruct Hy as [<-|[<-|[<-|[]]]];
      vm_compute; intros H; first [reflexivity | discriminate H]. }
  split; [exact Hdir|]. split; [exact Hnames|]. split; [vm_compute; reflexivity|].
  exact (list_recent_projects_ordered example_files example_strftime w Hdir Hdistinct).
Defined.

Lemma select_project_nondecimal_digit_witness :
  let w := example_world tree_roots [superscript_two] in
  path_isdir (fs w) example_files = true ∧
  str_isdigit (str_lower (str_strip superscript_two)) = true ∧
  decimal_value 0 (str_lower (str_strip superscript_two)) = None ∧
  ∃ t, select_project example_files example_src example_strftime w =
       (Raise (ValueError (str_lower (str_strip superscript_two))),
        set_stdin [] (set_trace (trace w ++ t) w)).
Proof.
  intros w.
  assert (path_isdir (fs w) example_files = true) as Hdir by (vm_compute; reflexivity).
  assert (str_isdigit (str_lower (str_strip superscript_two)) = true) as Hdigit
    by (vm_compute; reflexivity).
  assert (decimal_value 0 (str_lower (str_strip superscript_two)) = None) as Hint
    by (vm_compute; reflexivity).
  split; [exact Hdir|]. split; [exact Hdigit|]. split; [exact Hint|].
  exact (select_project_nondecimal_digit example_files example_src example_strftime
           w superscript_two [] Hdir eq_refl Hdigit Hint).
Defined.

Lemma interactive_mode_guards_witness :
  let w := example_world tree_roots ["2"; "3"; "4"] in
  truthy None = false ∧
  interactive_loop example_files example_src example_strftime 3 None w =
  interactive_loop example_files example_src example_strftime 2 None
    (set_stdin ["3"; "4"]
       (set_trace (trace w ++ menu ++ [Prompt "Select an option: ";
                                       Print (red "No project selected.")]) w)).
Proof.
  intros w.
  assert (truthy None = false) as Hnone by reflexivity.
  split; [exact Hnone|].
  exact (proj1 (interactive_mode_guards example_files example_src example_strftime)
           2 None w "2" ["3"; "4"] Hnone (or_introl eq_refl) eq_refl).
Defined.

(** * Worked examples for the further properties *)

Lemma interactive_mode_footprint_witness :
  let w := example_world_atimes tree_three_projects ["1"; "0"; "shotN"; "2"; "4"] in
  let res := interactive_mode example_files example_src example_strftime w in
  res.1 = Raise (FileNotFoundError temp_env_file) ∧
  res.2.(fs) !! ["files"; "shotN"; "BACKUPS"; "20240309_140507"] = Some Dir ∧
  evolves session_keys w res.2.
Proof.
  intros w res.
  split; [vm_compute; reflexivity|]. split; [vm_compute; reflexivity|].
  exact (interactive_mode_footprint example_files example_src example_strftime
           w res.1 res.2 (surjective_pairing res)).
Defined.

Lemma backup_restore_footprint_witness :
  let w := example_world tree_project_hips ["unread"] in
  let project_dir := os_path_join example_files "shotA" in
  let w' := (create_backup project_dir None w).2 in
  create_backup project_dir None w = (Return tt, w') ∧
  stdin w' = stdin w ∧
  environ w' = environ w ∧
  keeps_entries (fs w) (fs w') ∧
  (wf_tree (fs w) → wf_tree (fs w')) ∧
  trace w `prefix_of` trace w'.
Proof.
  intros w project_dir w'.
  assert (create_backup project_dir None w = (Return tt, w')) as H
    by (vm_compute; reflexivity).
  split; [exact H|].
  exact (backup_restore_footprint project_dir None EmptyString w (Return tt) w' (or_introl H)).
Defined.

Lemma provisioning_only_adds_witness :
  let w := example_world tree_geo_dir [] in
  let res := ensure_directories_and_symlinks example_files example_src "shotA" w in
  res.1 = Raise (FileExistsError (link_path example_files "shotA")) ∧
  fs w ⊆ fs res.2 ∧
  (wf_tree (fs w) → wf_tree (fs res.2)) ∧
  stdin res.2 = stdin w ∧
  trace w `prefix_of` trace res.2.
Proof.
  intros w res. split; [vm_compute; reflexivity|].
  exact (provisioning_only_adds example_files example_src "shotA" w res.1 res.2
           (surjective_pairing res)).
Defined.

Lemma provisioning_sets_environment_witness :
  let w := example_world tree_roots [] in
  let w' := (ensure_directories_and_symlinks example_files example_src "shotA" w).2 in
  ensure_directories_and_symlinks example_files example_src "shotA" w = (Return tt, w') ∧
  environ w' = <["PROJECT_PATH" := "/files/shotA"]> (<["PROJECT_NAME" := "shotA"]> (environ w)).
Proof.
  intros w w'.
  assert (ensure_directories_and_symlinks example_files example_src "shotA" w = (Return tt, w'))
    as H by (vm_compute; reflexivity).
  split; [exact H|].
  exact (provisioning_sets_environment example_files example_src "shotA" w (Return tt) w' H).
Defined.

Lemma list_recent_projects_only_prints_witness :
  let w := example_world tree_files_is_file [] in
  list_recent_projects example_files example_strftime false w
    = (Raise (NotADirectoryError example_files), w) ∧
  ∃ t, w = set_trace (trace w ++ t) w.
Proof.
  intros w.
  assert (list_recent_projects example_files example_strftime false w
          = (Raise (NotADirectoryError example_files), w)) as H by (vm_compute; reflexivity).
  split; [exact H|].
  exact (list_recent_projects_only_prints example_files example_strftime false w _ w H).
Defined.

Lemma list_recent_projects_nothing_to_list_witness :
  let w := example_world (<[ ["src"] := Dir ]> ∅) [] in
  path_exists (fs w) example_files = false ∧
  list_recent_projects example_files example_strftime true w =
  (Return [],
   set_trace (trace w ++
     [LogError ("Directory " +:+ show_path example_files +:+ " does not exist.");
      Print (red ("Directory " +:+ show_path example_files +:+ " does not exist."))]) w).
Proof.
  intros w.
  assert (path_exists (fs w) example_files = false) as H by (vm_compute; reflexivity).
  split; [exact H|].
  exact (proj1 (list_recent_projects_nothing_to_list example_files example_strftime true w) H).
Defined.

Lemma list_recent_projects_raises_witness :
  let w := example_world tree_files_is_file [] in
  path_exists (fs w) example_files = true ∧
  path_isdir (fs w) example_files = false ∧
  list_recent_projects example_files example_strftime false w
    = (Raise (NotADirectoryError example_files), w).
Proof.
  intros w.
  assert (path_exists (fs w) example_files = true) as He by (vm_compute; reflexivity).
  assert (path_isdir (fs w) example_files = false) as Hd by (vm_compute; reflexivity).
  split; [exact He|]. split; [exact Hd|].
  exact (proj1 (list_recent_projects_raises example_files example_strftime false w) He Hd).
Defined.

Lemma list_recent_projects_stable_witness :
  let w := example_world tree_three_projects [] in
  path_isdir (fs w) example_files = true ∧
  project_names example_files w = ["shotC"; "shotB"; "shotA"] ∧
  (list_recent_projects example_files example_strftime true w).1
    = Return ["shotC"; "shotB"; "shotA"] ∧
  ∃ all t,
    list_recent_projects example_files example_strftime true w
      = (Return all, set_trace (trace w ++ t) w) ∧
    all ≡ₚ project_names example_files w ∧
    StronglySorted (λ x y, (atime_of example_files w y ≤ atime_of example_files w x)%Z) all ∧
    ∀ k, filter (λ x, atime_of example_files w x = k) all
         = filter (λ x, atime_of example_files w x = k) (project_names example_files w).
Proof.
  intros w.
  assert (path_isdir (fs w) example_files = true) as H by (vm_compute; reflexivity).
  split; [exact H|]. split; [vm_compute; reflexivity|]. split; [vm_compute; reflexivity|].
  exact (list_recent_projects_stable example_files example_strftime w H).
Defined.

Lemma select_project_picks_index_witness :
  let w := example_world_atimes tree_three_projects [" 2 "; "unread"] in
  path_isdir (fs w) example_files = true ∧
  candidates example_files false w = ["shotB"; "shotC"; "shotA"] ∧
  ∃ name t,
    candidates example_files false w !! Z.to_nat (2 - 1) = Some name ∧
    select_project example_files example_src example_strftime w =
    (Return name,
     set_trace (trace w ++ t ++ [Print (green ("Selected project: " +:+ name));
                                 Print (green ("Current project set to: " +:+ name))])
       (set_environ (<["CURRENT_PROJECT" := name]> (environ w)) (set_stdin ["unread"] w))).
Proof.
  intros w.
  assert (path_isdir (fs w) example_files = true) as Hdir by (vm_compute; reflexivity).
  split; [exact Hdir|]. split; [vm_compute; reflexivity|].
  refine (select_project_picks_index example_files example_src example_strftime
            w " 2 " ["unread"] 2 Hdir eq_refl _ _ _ _).
  - vm_compute; reflexivity.
  - vm_compute; reflexivity.
  - vm_compute. discriminate.
  - vm_compute. split; discriminate.
Defined.

Lemma select_project_rejects_witness :
  let w := example_world_atimes tree_three_projects ["5"; "1"] in
  path_isdir (fs w) example_files = true ∧
  length (candidates example_files false w) = 3 ∧
  ∃ t, select_project example_files example_src example_strftime w =
       select_project example_files example_src example_strftime
         (set_stdin ["1"]
            (set_trace (trace w ++ t ++ [LogError "Invalid choice.";
                                         Print (red "Invalid choice.")]) w)).
Proof.
  intros w.
  assert (path_isdir (fs w) example_files = true) as Hdir by (vm_compute; reflexivity).
  split; [exact Hdir|]. split; [vm_compute; reflexivity|].
  refine (select_project_rejects example_files example_src example_strftime
            w "5" ["1"] Hdir eq_refl _ _ _).
  - vm_compute; reflexivity.
  - vm_compute; reflexivity.
  - right. exists 5%Z. split; [vm_compute; reflexivity|].
    split; [vm_compute; discriminate|].
    vm_compute. intros [_ H]. apply H. reflexivity.
Defined.

Lemma select_project_show_all_witness :
  let w := example_world_atimes tree_three_projects [" A"; "3"] in
  path_isdir (fs w) example_files = true ∧
  candidates example_files true w = ["shotB"; "shotC"; "shotA"] ∧
  ∃ name t,
    candidates example_files true w !! Z.to_nat (3 - 1) = Some name ∧
    select_project example_files example_src example_strftime w =
    (Return name,
     set_trace (trace w ++ t ++ [Print (green ("Selected project: " +:+ name));
                                 Print (green ("Current project set to: " +:+ name))])
       (set_environ (<["CURRENT_PROJECT" := name]> (environ w)) (set_stdin [] w))).
Proof.
  intros w.
  assert (path_isdir (fs w) example_files = true) as Hdir by (vm_compute; reflexivity).
  split; [exact Hdir|]. split; [vm_compute; reflexivity|].
  refine (select_project_show_all example_files example_src example_strftime
            w " A" "3" [] 3 Hdir eq_refl _ _ _ _ _).
  - vm_compute; reflexivity.
  - vm_compute; reflexivity.
  - vm_compute; reflexivity.
  - vm_compute. discriminate.
  - vm_compute. split; discriminate.
Defined.

Lemma select_project_new_project_witness :
  let w := example_world_atimes tree_three_projects ["0"; "  shotN "] in
  path_isdir (fs w) example_files = true ∧
  str_strip "  shotN " = "shotN" ∧
  ∃ t,
    select_project example_files example_src example_strftime w =
    (ensure_directories_and_symlinks example_files example_src "shotN" ;;
     print_green ("Created new project: " +:+ "shotN") ;;
     environ_set "CURRENT_PROJECT" "shotN" ;;
     print_green ("Current project set to: " +:+ "shotN") ;;
     mret "shotN")
      (set_stdin []
         (set_trace (trace w ++ t ++ [Prompt "Enter the name of the new project: "]) w)).
Proof.
  intros w.
  assert (path_isdir (fs w) example_files = true) as Hdir by (vm_compute; reflexivity).
  split; [exact Hdir|]. split; [vm_compute; reflexivity|].
  destruct (select_project_new_project example_files example_src example_strftime
              w "0" "  shotN " [] Hdir eq_refl eq_refl) as [t Ht].
  exists t. exact Ht.
Defined.

Lemma select_project_eof_witness :
  let w := example_world_atimes tree_three_projects [] in
  path_isdir (fs w) example_files = true ∧
  ∃ t, select_project example_files example_src example_strftime w
       = (Raise EOFError, set_trace (trace w ++ t) w).
Proof.
  intros w.
  assert (path_isdir (fs w) example_files = true) as Hdir by (vm_compute; reflexivity).
  split; [exact Hdir|].
  exact (select_project_eof example_files example_src example_strftime w Hdir eq_refl).
Defined.

Lemma select_project_sets_current_witness :
  let w := example_world_atimes tree_three_projects ["9"; ""; "0"; " "; "3"] in
  let w' := (select_project example_files example_src example_strftime w).2 in
  select_project example_files example_src example_strftime w = (Return "shotA", w') ∧
  environ w' !! "CURRENT_PROJECT" = Some "shotA".
Proof.
  intros w w'.
  assert (select_project example_files example_src example_strftime w = (Return "shotA", w'))
    as H by (vm_compute; reflexivity).
  split; [exact H|].
  exact (select_project_sets_current example_files example_src example_strftime w "shotA" w' H).
Defined.

Lemma select_project_long_numeral_witness :
  let w := example_world_atimes tree_three_projects [long_numeral; "1"] in
  path_isdir (fs w) example_files = true ∧
  str_isdigit (str_lower (str_strip long_numeral)) = true ∧
  String.length long_numeral = 4301 ∧
  ∃ t, select_project example_files example_src example_strftime w =
       (Raise (ValueError (str_lower (str_strip long_numeral))),
        set_stdin ["1"] (set_trace (trace w ++ t) w)).
Proof.
  intros w.
  assert (path_isdir (fs w) example_files = true) as Hdir by (vm_compute; reflexivity).
  assert (str_isdigit (str_lower (str_strip long_numeral)) = true) as Hdigit
    by (vm_compute; reflexivity).
  split; [exact Hdir|]. split; [exact Hdigit|]. split; [vm_compute; reflexivity|].
  refine (select_project_long_numeral example_files example_src example_strftime
            w long_numeral ["1"] Hdir eq_refl Hdigit _).
  vm_compute. reflexivity.
Defined.

Lemma interactive_mode_first_answer_witness :
  let w := example_world_atimes tree_three_projects ["4"; "unread"] in
  interactive_mode example_files example_src example_strftime w =
  (Return tt,
   set_stdin ["unread"]
     (set_trace (trace w ++ menu ++
        [Prompt "Select an option: ";
         Print (green "Exiting Interactive Mode.");
         Print (red "No project selected. Cannot launch xterm.")]) w)).
Proof.
  intros w.
  exact (proj1 (interactive_mode_first_answer example_files example_src example_strftime w)
           ["unread"] eq_refl).
Defined.

Lemma interactive_mode_hands_off_selection_witness :
  let w := example_world_atimes tree_with_tmp ["1"; "2"; "4"] in
  let w0 := set_stdin ["2"; "4"]
              (set_trace (trace w ++ menu ++ [Prompt "Select an option: "]) w) in
  let w1 := (select_project example_files example_src example_strftime w0).2 in
  select_project example_files example_src example_strftime w0 = (Return "shotC", w1) ∧
  stdin w1 = ["4"] ∧
  interactive_mode example_files example_src example_strftime w =
  (customize_terminal "shotC" HFS ;; launch_xterm_with_env example_files "shotC" HFS)
    (set_stdin []
       (set_trace (trace w1 ++ [Print (green ("Selected project: " +:+ "shotC"))] ++ menu ++
                   [Prompt "Select an option: "; Print (green "Exiting Interactive Mode.")])
          w1)).
Proof.
  intros w w0 w1.
  assert (select_project example_files example_src example_strftime w0 = (Return "shotC", w1))
    as Hsel by (vm_compute; reflexivity).
  assert (stdin w1 = ["4"]) as Hin by (vm_compute; reflexivity).
  split; [exact Hsel|]. split; [exact Hin|].
  refine (interactive_mode_hands_off_selection example_files example_src example_strftime
            w ["2"; "4"] [] "shotC" w1 eq_refl Hsel Hin _).
  discriminate.
Defined.

Lemma launch_xterm_writes_env_file_witness :
  let w := example_world tree_with_tmp [] in
  resolves (fs w) ["tmp"] ["tmp"] ∧
  fs w !! (["tmp"] ++ ["fx_env_xterm.env"]) = None ∧
  ∃ w',
    launch_xterm_with_env example_files "shotA" HFS w = (Return tt, w') ∧
    fs w' = <[["tmp"] ++ ["fx_env_xterm.env"] := File (houdini_setup example_files "shotA" HFS)]>
              (fs w) ∧
    read_file (fs w') temp_env_file = inr (houdini_setup example_files "shotA" HFS) ∧
    trace w' = trace w ++
      [System (xterm_cmd "shotA" HFS);
       Print (green ("Launched xterm for project '" +:+ "shotA"
                     +:+ "' with Houdini " +:+ HFS +:+ "."))] ∧
    environ w' = environ w ∧ stdin w' = stdin w.
Proof.
  intros w.
  assert (resolves (fs w) ["tmp"] ["tmp"]) as Hres by (split; vm_compute; reflexivity).
  assert (fs w !! (["tmp"] ++ ["fx_env_xterm.env"]) = None) as Hnone
    by (vm_compute; reflexivity).
  split; [exact Hres|]. split; [exact Hnone|].
  exact (launch_xterm_writes_env_file example_files "shotA" HFS w ["tmp"] Hres
           (or_introl Hnone)).
Defined.

Lemma launch_xterm_failure_is_clean_witness :
  let w := example_world tree_roots [] in
  os_stat (fs w) ["tmp"] = inl ENOENT ∧
  launch_xterm_with_env example_files "shotA" HFS w
  = (Raise (FileNotFoundError temp_env_file), w).
Proof.
  intros w.
  assert (os_stat (fs w) ["tmp"] = inl ENOENT) as H by (vm_compute; reflexivity).
  split; [exact H|].
  exact (proj2 (launch_xterm_failure_is_clean example_files "shotA" HFS w) H).
Defined.

Lemma launch_xterm_follows_link_witness :
  let w := example_world tree_tmp_link [] in
  os_lstat (fs w) temp_env_file = inr (Symlink ["home"; "profile"]) ∧
  read_file (fs w) temp_env_file = inr "export EDITOR=vi" ∧
  ∃ loc w',
    realpath (fs w) temp_env_file = Some loc ∧
    fs w !! loc = Some (File "export EDITOR=vi") ∧
    launch_xterm_with_env example_files "shotA" HFS w = (Return tt, w') ∧
    fs w' = <[loc := File (houdini_setup example_files "shotA" HFS)]> (fs w) ∧
    os_lstat (fs w') temp_env_file = inr (Symlink ["home"; "profile"]) ∧
    read_file (fs w') temp_env_file = inr (houdini_setup example_files "shotA" HFS).
Proof.
  intros w.
  assert (os_lstat (fs w) temp_env_file = inr (Symlink ["home"; "profile"])) as Hl
    by (vm_compute; reflexivity).
  assert (read_file (fs w) temp_env_file = inr "export EDITOR=vi") as Hr
    by (vm_compute; reflexivity).
  split; [exact Hl|]. split; [exact Hr|].
  exact (launch_xterm_follows_link example_files "shotA" HFS w _ _ Hl Hr).
Defined.

Lemma main_unknown_version_exits_witness :
  let w := example_world_atimes tree_three_projects ["1"] in
  path_exists (fs w) (os_path_join ["opt"] ("hfs" +:+ "99.9")) = false ∧
  main example_files example_src example_strftime "HOUDINI" example_args w =
  (SystemExit 1,
   set_trace (trace w ++
     [Print (green "HOUDINI");
      Print ("Setting up environment for Houdini " +:+ HFS);
      Print (red ("Houdini version " +:+ "99.9" +:+ " not found!"));
      LogError ("Failed to set environment for Houdini " +:+ "99.9");
      Print (red ("Failed to set environment for Houdini " +:+ "99.9"))]) w).
Proof.
  intros w.
  assert (path_exists (fs w) (os_path_join ["opt"] ("hfs" +:+ "99.9")) = false) as H
    by (vm_compute; reflexivity).
  split; [exact H|].
  refine (main_unknown_version_exits example_files example_src example_strftime "HOUDINI"
            example_args w "99.9" eq_refl _ H).
  discriminate.
Defined.

Lemma ensure_directory_exists_conflict_witness :
  let w := example_world tree_project_empty [] in
  let directory := ["files"; "shotA"; "notes.txt"] in
  os_lstat (fs w) directory = inr (File "todo") ∧
  path_isdir (fs w) directory = false ∧
  ensure_directory_exists directory w = (Raise (FileExistsError directory), w).
Proof.
  intros w directory.
  assert (os_lstat (fs w) directory = inr (File "todo")) as Hl by (vm_compute; reflexivity).
  assert (path_isdir (fs w) directory = false) as Hd by (vm_compute; reflexivity).
  split; [exact Hl|]. split; [exact Hd|].
  exact (ensure_directory_exists_conflict directory _ w Hl Hd).
Defined.

Lemma ensure_directory_exists_makes_parents_witness :
  let w := example_world tree_roots [] in
  wf_tree (fs w) ∧
  resolves (fs w) ["files"] ["files"] ∧
  fs w !! (["files"] ++ ["shotN"]) = None ∧
  ensure_directory_exists (["files"] ++ ["shotN"; "BACKUPS"; "today"]) w =
  (Return tt,
   set_trace (trace w ++
     [LogInfo ("Created directory: " +:+ "/files/shotN/BACKUPS/today");
      Print (yellow ("Directory created: " +:+ "/files/shotN/BACKUPS/today"))])
     (set_fs (add_dirs_under ["files"] ["shotN"; "BACKUPS"; "today"] (fs w)) w)).
Proof.
  intros w.
  assert (wf_tree (fs w)) as Hwf.
  { apply wf_tree_check. apply (bool_decide_unpack _). vm_compute. exact I. }
  assert (resolves (fs w) ["files"] ["files"]) as Hres by (split; vm_compute; reflexivity).
  assert (fs w !! (["files"] ++ ["shotN"]) = None) as Hnone by (vm_compute; reflexivity).
  split; [exact Hwf|]. split; [exact Hres|]. split; [exact Hnone|].
  exact (proj1 (ensure_directory_exists_makes_parents ["files"] ["files"] "shotN"
                  ["BACKUPS"; "today"] w Hwf Hres Hnone)).
Defined.

Lemma provisioning_same_roots_witness :
  let w := example_world tree_roots [] in
  let res := ensure_directories_and_symlinks example_files example_files "shotA" w in
  wf_tree (fs w) ∧
  path_islink (fs w) (link_path example_files "shotA") = false ∧
  res.1 = Raise (FileExistsError (link_path example_files "shotA")) ∧
  ∃ e, res.1 = Raise e.
Proof.
  intros w res.
  assert (wf_tree (fs w)) as Hwf.
  { apply wf_tree_check. apply (bool_decide_unpack _). vm_compute. exact I. }
  assert (path_islink (fs w) (link_path example_files "shotA") = false) as Hl
    by (vm_compute; reflexivity).
  split; [exact Hwf|]. split; [exact Hl|]. split; [vm_compute; reflexivity|].
  exact (proj1 (provisioning_same_roots example_files example_files "shotA" w res.1 res.2
                  eq_refl Hwf Hl (surjective_pairing res))).
Defined.

Lemma provisioning_fresh_project_witness :
  let w := example_world tree_roots [] in
  wf_tree (fs w) ∧
  resolves (fs w) example_files ["files"] ∧ resolves (fs w) example_src ["src"] ∧
  fs w !! (["files"] ++ ["shotA"]) = None ∧ fs w !! (["src"] ++ ["shotA"]) = None ∧
  ∃ t,
    ensure_directories_and_symlinks example_files example_src "shotA" w =
    (Return tt,
     set_trace (trace w ++ t)
       (set_environ (<["PROJECT_PATH" := show_path (os_path_join example_files "shotA")]>
                       (<["PROJECT_NAME" := "shotA"]> (environ w)))
          (set_fs (<[(["files"] ++ ["shotA"]) ++ ["GEO"] := Symlink (geo_path example_src "shotA")]>
                  (<[(["files"] ++ ["shotA"]) ++ ["FLIP"] := Dir]>
                  (<[(["src"] ++ ["shotA"]) ++ ["GEO"] := Dir]>
                  (<[["src"] ++ ["shotA"] := Dir]>
                  (<[(["files"] ++ ["shotA"]) ++ ["COMP"] := Dir]>
                  (<[(["files"] ++ ["shotA"]) ++ ["RENDER"] := Dir]>
                  (<[(["files"] ++ ["shotA"]) ++ ["REF"] := Dir]>
                  (<[(["files"] ++ ["shotA"]) ++ ["HIP"] := Dir]>
                  (<[["files"] ++ ["shotA"] := Dir]> (fs w)))))))))) w))).
Proof.
  intros w.
  assert (wf_tree (fs w)) as Hwf.
  { apply wf_tree_check. apply (bool_decide_unpack _). vm_compute. exact I. }
  assert (resolves (fs w) example_files ["files"]) as HF by (split; vm_compute; reflexivity).
  assert (resolves (fs w) example_src ["src"]) as HP by (split; vm_compute; reflexivity).
  assert (fs w !! (["files"] ++ ["shotA"]) = None) as HnF by (vm_compute; reflexivity).
  assert (fs w !! (["src"] ++ ["shotA"]) = None) as HnP by (vm_compute; reflexivity).
  split; [exact Hwf|]. split; [exact HF|]. split; [exact HP|].
  split; [exact HnF|]. split; [exact HnP|].
  refine (provisioning_fresh_project example_files example_src "shotA" ["files"] ["src"] w
            Hwf HF HP _ HnF HnP).
  discriminate.
Defined.

Lemma create_backup_missing_project_witness :
  let w := example_world tree_roots [] in
  wf_tree (fs w) ∧
  resolves (fs w) ["files"] ["files"] ∧
  fs w !! (["files"] ++ ["ghost"]) = None ∧
  existsb has_magic (os_path_join ["files"] "ghost") = false ∧
  (create_backup (os_path_join ["files"] "ghost") None w).1 = Return tt ∧
  fs (create_backup (os_path_join ["files"] "ghost") None w).2
    !! ["files"; "ghost"; "BACKUPS"; "20240309_140507"] = Some Dir ∧
  create_backup (os_path_join ["files"] "ghost") None w =
  (Return tt,
   set_trace (trace w ++
     [LogInfo ("Created directory: " +:+
               show_path (["files"] ++ ["ghost"; "BACKUPS"; strftime_stamp (clock w (ticks w))]));
      Print (yellow ("Directory created: " +:+
               show_path (["files"] ++ ["ghost"; "BACKUPS"; strftime_stamp (clock w (ticks w))])));
      Print (red "No .hip files found for backup.")])
     (set_fs (add_dirs_under ["files"]
                ["ghost"; "BACKUPS"; strftime_stamp (clock w (ticks w))] (fs w))
        (set_ticks (S (ticks w)) w))).
Proof.
  intros w.
  assert (wf_tree (fs w)) as Hwf.
  { apply wf_tree_check. apply (bool_decide_unpack _). vm_compute. exact I. }
  assert (resolves (fs w) ["files"] ["files"]) as Hres by (split; vm_compute; reflexivity).
  assert (fs w !! (["files"] ++ ["ghost"]) = None) as Hnone by (vm_compute; reflexivity).
  assert (existsb has_magic (os_path_join ["files"] "ghost") = false) as Hplain
    by (vm_compute; reflexivity).
  split; [exact Hwf|]. split; [exact Hres|]. split; [exact Hnone|]. split; [exact Hplain|].
  split; [vm_compute; reflexivity|]. split; [vm_compute; reflexivity|].
  exact (create_backup_missing_project ["files"] ["files"] "ghost" w Hwf Hres Hnone Hplain).
Defined.
